(* ===== verification/_CoqProject ===== *)
-Q . S2P
Prelude.v
MathFixed.v
GTypes.v
Transform.v
Rotation.v
TransformStore.v
Calls.v
Apply.v
Demo.v
Sdk.v
Lifecycle.v
