(* ===== verification/Prelude.v ===== *)
(** * A verification development of pebble-hacks/gtransform

    gtransform is a small C library for 2D affine transforms in fixed point,
    written for the Pebble watch (no floating point).  Its parts, leaf first:

    - [src/math_fixed.h]: two fixed-point scalar formats, [Fixed_S16_3]
      (16-bit raw, 3 fraction bits) and [Fixed_S32_16] (32-bit raw, 16
      fraction bits), each a union of a raw two's-complement integer and a
      bit-field view (unsigned [fraction], signed [integer]); addition,
      subtraction, three-term addition, equality, the 64-bit-widened
      [Fixed_S32_16_mul] and the mixed [Fixed_S16_3_S32_16_mul].
    - [src/gtypes.h], [src/gtypes.c]: [GPointPrecise] and [GVectorPrecise]
      (pairs of [Fixed_S16_3]), [GVector], the conversion macros from and to
      the integer [GPoint]/[GVector] of the Pebble SDK, and the two equality
      functions.
    - [src/gtransform.h], [src/gtransform.c]: [GTransform], six
      [Fixed_S32_16] coefficients of the row-vector matrix
      [[a b 0; c d 0; tx ty 1]]; construction macros (identity, scale,
      translation, from numbers) and [gtransform_init_rotation] (which calls
      the SDK's [cos_lookup]/[sin_lookup]); the classification predicates
      ([gtransform_is_identity] and [gtransform_is_equal] use [memcmp]); the
      mutators [gtransform_concat], [gtransform_scale],
      [gtransform_translate], [gtransform_rotate], [gtransform_invert], which
      write through a pointer that may alias their inputs; and
      [gpoint_transform], [gvector_transform].
    - [src/test_gtransform.c]: a demo watch app (a sun, an orbiting earth
      and moon, a twinkling star field), which the spec excludes from the
      core; it is modelled whole: its animation state and handlers, and
      its life on the Pebble SDK from [main] to exit.

    ** Layout of the development (in dependency order)

    - [Prelude] (this file): the C integer semantics every other file uses.
      [wrap w z] is the conversion of [z] to a [w]-bit signed C type
      (two's complement, as GCC for ARM does it), [wrapu w z] the one to
      an unsigned type, [in_range w z] the signed range
      ([in_rangeb] the boolean test); shifts are [Z.shiftr]/[Z.shiftl]
      (arithmetic, as GCC does on signed operands), with the notations
      [x >> n] and [x << n] in [cint_scope]; C's [/] and [%] on signed
      operands are [Z.quot] and [Z.rem].  Signed overflow is undefined in
      ISO C; the development models the wrapping behaviour of the target
      compiler, and the comments of each definition say where the code
      relies on it.  The hint database [cint], the rewrite database [cint_rw] and
      the tactics [cint_consts] and [range_by_eval] carry the arithmetic
      side conditions.
    - [MathFixed]: [math_fixed.h].  Module [S16_3] and module [S32_16] hold
      the record of each format (its [raw_value], the union's single source
      of truth), the raw constructor macro ([mk_Fixed_S16_3],
      [mk_Fixed_S32_16]), the bit-field view ([integer], [fraction],
      [of_parts], written once in section [BitFields]) and every operation;
      module [Mixed] holds [Fixed_S16_3_S32_16_mul] and the specification's
      wide version of it.  The rewrite database [fx_rw] simplifies products
      by one and sums with zero.
    - [GTypes]: [gtypes.h] and [gtypes.c]: one module per record ([Point]
      for the SDK's [GPoint], [PointPrecise], [Vector], [VectorPrecise]) and
      the conversion macros and equality functions.
    - [Transform]: the [GTransform] record (module [Tr]), the construction
      macros, the predicates (a NULL pointer is [None]), the 24-byte image
      of the packed struct and [memcmp] over it, and [gtransform_mul], the
      arithmetic of [gtransform_concat].  [affine_mul] is the abstract
      specification of the product: exact integer arithmetic on the raw
      values, with no rounding.
    - [Rotation]: [gtransform_init_rotation] in a section over the class
      [TrigLookup], the interface the SDK's [cos_lookup]/[sin_lookup]
      promise (values within [TRIG_MAX_RATIO]); [QuarterTurnLookup] is an
      instance used only to evaluate examples.
    - [TransformStore]: the mutators as the C writes them, over a store of
      [GTransform] objects ([gmap loc GTransform]) in an option-state monad
      ([let!]): [load], [rd] (a field read through a pointer),
      [store_field] (a field write), [memcpy], [alloca]/[free] (the local
      [tR] of [gtransform_rotate]).  A pointer is [option loc]; an access
      through a dangling pointer is the monad's failure.  Reads and writes
      follow the order of the C, so the aliasing theorems depend on it.
      [store_wf] is the invariant of the store (every object holds six
      [int32_t] values); [Decision] instances decide it on concrete stores.
    - [Calls]: a client's sequence of mutator calls ([Call], [run_call],
      [run_calls]) on the store of [TransformStore], in any order and with
      any aliasing of the addresses; and [concat_locals], the demo's call
      [gtransform_concat(&t_concat, &tr, &tt)] run on a store that holds
      its three stack locals at three distinct addresses.
    - [Apply]: [gpoint_transform] and [gvector_transform].
    - [Demo]: the demo app.  [DemoState] holds its [static] globals,
      [init], [time_handler] and [frame_handler] are its handlers as
      functions on it ([frame_handler] also returns its drawing calls, in
      order, as a list of [DrawCmd]), and [reachable] is the step relation
      of the event loop (any interleaving of seconds and frames).  The
      [float] scale factor is reached only through the class [FloatOps]
      (literals, addition, comparisons, [GTransformNumberFromNumber] of a
      float), so the theorems hold whatever the target's rounding;
      [ExactFloat] (rationals) evaluates examples.  The [for] loop of
      [draw_star_background] is [star_loop], with fuel and with the read
      [stars[index]] as [nth_error]: [None] stands for a read past the
      table (undefined in C) or for exhausted fuel.
      The earth's and the moon's positions are [orbit_point]: the rotation,
      the translation, [concat_locals] and [gpoint_transform], as the C
      calls them; the uninitialised [t_concat] of the first call is
      [t_concat_indeterminate], and C31 shows its contents do not matter.
    - [Sdk]: the part of the Pebble SDK the demo calls, which is not in
      the repository and is modelled from its documented behaviour: its
      windows, layers and app timers as objects by handle ([Obj], removed
      when destroyed), the window stack, the tick service and the drawing
      calls made ([Sdk]); an option-state monad [SM G] over the SDK and the
      app's globals [G], whose failure is a call the SDK does not allow;
      the app's callbacks as the record [Callbacks] (the function pointers
      the app registers); and [dispatch]/[app_event_loop], the SDK's event
      loop on a list of events (timer expiry, refresh, second, back).
    - [Lifecycle]: module [App] holds the demo's functions that call the
      SDK ([frame_timer_handler], [draw_frame_update_proc], [window_load],
      [window_unload], [init], [deinit], [main]) over the globals
      [window], [s_canvas], [s_render_timer] and the state of [Demo];
      [run_state], [unloaded_state] and [ended] are the exact shapes of
      the app while it runs, after its window is unloaded, and at exit.

    ** What the theorems show (claims C1 to C40)

    - refinement: each mutator stores at [t_new] the value-level product of
      the values its inputs had, for every aliasing of output and inputs
      (C1, C5 to C7); [gtransform_scale] and [gtransform_translate] are
      multiplication on the left by [GTransformScale] and
      [GTransformTranslation], bit for bit; the SDK-level demo refines the
      abstract step relation [reachable] of its animation (C36);
    - safety: any sequence of mutator calls on valid addresses runs
      without a dangling access, keeps every object valid and the store's
      domain (the local of [gtransform_rotate] is freed), and writes only
      the [t_new] objects (C9, by induction on the sequence); the demo,
      whatever events the SDK delivers, never makes a call the SDK does
      not allow (C34), and at exit has released every window, layer and
      timer (C37);
    - invariants: the fast-path classes only-scale and only-translation
      are closed under the product (C14); every reachable state of the
      demo keeps its counters and angles in range, so no [uint8_t] or
      [int32_t] update wraps (C27, by rule induction on [reachable]);
      while the demo runs it holds exactly one armed frame timer, its
      canvas and its tick subscription (C35);
    - equivalence: the mixed 16x32 multiplication, computed in a 32-bit
      [int] as the C does, always equals the wide product the spec asks for
      (C2); [gvector_transform] is [gpoint_transform] on the same
      coordinates, translation included (C26);
    - functional behaviour: the identity laws of the product (C3, C4), the
      composition of scales and of translations (C15), exact translation of
      integer points (C13), [gtransform_is_equal], [gtransform_is_identity]
      and [gtransform_is_only_scale] on every branch (C16 to C18), the
      inverted meaning of [gtransform_is_only_scale_or_translation] stated
      as it is (C19); [gtransform_is_only_translation], the rotation at
      angle 0, application of the identity and the byte round trip
      behind [memcmp] are lemmas beside them;
    - errors: [gtransform_invert] always reports failure (C8); mutators with
      a NULL pointer change nothing (C21); after [window_unload] the demo's
      frame timer is still armed on a freed canvas, and firing it would
      crash (C40);
    - bounds: the rounding of each multiplication (C23, C24), wrapping
      addition (C25), the shape of rotation matrices (C20), the error of
      the product against [affine_mul] (below two units of 2^-16 per
      coefficient, C11), the error of a chain of two products against the
      exact triple product [affine_mul3] (below [2 + 2 (|x| + |y|)] units,
      [x] and [y] the coefficients of the third factor, so below six units
      for rotations: C12, the accumulation the spec warns of), and the error
      of point application against the exact affine image (below three
      units of 1/8 pixel, C10), under hypotheses that no intermediate result
      overflows, each checked by a witness;
    - round trips: integer point to precise point and back (a 13-bit wrap,
      C22);
    - the demo: from every reachable state the scale animation resumes
      within 40 frames and the star phase changes within 7 seconds
      (liveness, C28); every frame timer expiry followed by a refresh draws
      one frame and re-arms the timer (liveness, C38); the first refresh
      after start-up draws the first frame (C39); the star loop exits after
      its 60 iterations without reading past the table (termination, C29);
      40 of the 60 stars are drawn per frame (C30); the composition of
      rotation, [gtransform_concat] on the stack locals and
      [gpoint_transform] in [frame_handler]: whenever the earth's angle is
      0 the earth is drawn straight above the centre, whatever [t_concat]
      held (C31); the two-second pause of the scale animation (C32), and
      the orbit angles after [n] frames (C33).  The star phase after [n]
      seconds and the sun drawn at the centre are lemmas.

    Fuel: every operation of the library is straight-line code.  The
    demo's one loop, [star_loop], takes fuel; [draw_star_background] gives
    it [NUM_STARS + 1], one more than its iterations, and C29 proves this
    is enough and that more changes nothing.  Repeated handler calls appear
    only in statements, as [Nat.iter]; the SDK's event loop runs on a
    finite list of events, which stands for any prefix of the app's life,
    so the theorems hold after every number of events.  Every definition
    is total and computes.

    ** Not modelled

    - The SDK's trigonometric tables: only their range is assumed, as the
      class [TrigLookup]; no theorem depends on the table's values except
      through hypotheses a witness discharges.
    - [GTransformNumberFromNumber] on floating-point arguments is modelled
      for rationals whose product with 65536 is exact (as it is for binary
      floats in range), truncated toward zero; rounding of float arithmetic
      done by the caller before the macro is outside the library.
    - The Pebble SDK beyond the calls the demo makes: [Sdk] models only
      those, from the SDK's documentation; allocation is assumed to
      succeed, [window_stack_push] marks the window's root layer dirty for
      its first render, rendering recurses one level (the depth of the
      demo's layer tree), and the drawing functions are recorded as calls,
      not rasterised.  [APP_LOG] in [main] is omitted: it changes no state.
    - Float rounding in the demo: [FloatOps] is abstract, and no theorem
      depends on how [s_scale_factor] rounds.
    - The remaining lines of the headers are includes, prototypes and
      documentation: every function they declare is modelled from its
      definition in the [.c] files, and every macro from the header.
    - The product is not associative in fixed point; C12 bounds how far a
      chain of two products can drift from the exact one, and no theorem
      compares the two bracketings directly. *)

From Stdlib Require Import ZArith Lia Bool.
Open Scope Z_scope.

Declare Scope cint_scope.
Delimit Scope cint_scope with cint.

(** C's [>>] on a signed operand (arithmetic shift, floor division by a power
    of two) and [<<] (multiplication by a power of two). *)
Notation "x '>>' n" := (Z.shiftr x n) (at level 57, left associativity) : cint_scope.
Notation "x '<<' n" := (Z.shiftl x n) (at level 57, left associativity) : cint_scope.

(** Conversion of an integer to a [w]-bit signed C type. *)
Definition wrap (w z : Z) : Z := (z + 2 ^ (w - 1)) mod 2 ^ w - 2 ^ (w - 1).

(** The values of a [w]-bit signed C type. *)
Definition in_range (w z : Z) : Prop := - 2 ^ (w - 1) <= z < 2 ^ (w - 1).

Definition in_rangeb (w z : Z) : bool := (- 2 ^ (w - 1) <=? z) && (z <? 2 ^ (w - 1)).

(** Conversion of an integer to a [w]-bit unsigned C type ([uint8_t],
    [uint16_t]): reduction modulo [2^w]. *)
Definition wrapu (w z : Z) : Z := z mod 2 ^ w.

Create HintDb cint.
Create Rewrite HintDb cint_rw.

(** Evaluate the powers of two with constant exponents, everywhere. *)
Ltac cint_consts :=
  repeat match goal with
  | |- context [2 ^ ?e] =>
      let v := eval vm_compute in (2 ^ e) in
      match v with 2 ^ _ => fail 1 | _ => change (2 ^ e) with v end
  | H : context [2 ^ ?e] |- _ =>
      let v := eval vm_compute in (2 ^ e) in
      match v with 2 ^ _ => fail 1 | _ => change (2 ^ e) with v in H end
  end.

Lemma pow2_pos (n : Z) : 0 <= n -> 0 < 2 ^ n.
Proof. intros; apply Z.pow_pos_nonneg; lia. Qed.

Lemma pow2_split (w : Z) : 0 < w -> 2 ^ w = 2 * 2 ^ (w - 1).
Proof.
  intros Hw. replace w with (Z.succ (w - 1)) at 1 by lia.
  rewrite Z.pow_succ_r by lia. reflexivity.
Qed.

Lemma in_rangeb_spec (w z : Z) : reflect (in_range w z) (in_rangeb w z).
Proof.
  apply iff_reflect. unfold in_range, in_rangeb.
  rewrite andb_true_iff, Z.leb_le, Z.ltb_lt. reflexivity.
Qed.

Lemma in_range_of_b (w z : Z) : in_rangeb w z = true -> in_range w z.
Proof. intros H. destruct (in_rangeb_spec w z); [assumption | discriminate]. Qed.

(** Range side conditions on closed terms, by evaluation. *)
Ltac range_by_eval := apply in_range_of_b; vm_compute; reflexivity.

Lemma in_range_widen (w1 w2 z : Z) : 0 < w1 <= w2 -> in_range w1 z -> in_range w2 z.
Proof.
  unfold in_range. intros Hw Hz.
  assert (2 ^ (w1 - 1) <= 2 ^ (w2 - 1)) by (apply Z.pow_le_mono_r; lia). lia.
Qed.

(** [wrap] subtracts a multiple of [2^w]. *)
Lemma wrap_eq (w z : Z) :
  0 < w -> wrap w z = z - ((z + 2 ^ (w - 1)) / 2 ^ w) * 2 ^ w.
Proof.
  intros Hw. unfold wrap.
  pose proof (pow2_pos w ltac:(lia)).
  rewrite (Z.mod_eq (z + 2 ^ (w - 1)) (2 ^ w)) by lia. lia.
Qed.

Lemma wrap_range (w z : Z) : 0 < w -> in_range w (wrap w z).
Proof.
  intros Hw. unfold in_range, wrap.
  pose proof (pow2_split w Hw).
  pose proof (pow2_pos (w - 1) ltac:(lia)).
  pose proof (Z.mod_pos_bound (z + 2 ^ (w - 1)) (2 ^ w) ltac:(lia)). lia.
Qed.

Lemma wrapu_small (w z : Z) : 0 <= z < 2 ^ w -> wrapu w z = z.
Proof. intros H. unfold wrapu. apply Z.mod_small. exact H. Qed.

Lemma wrap_small (w z : Z) : 0 < w -> in_range w z -> wrap w z = z.
Proof.
  intros Hw Hz. unfold in_range, wrap in *.
  pose proof (pow2_split w Hw).
  rewrite Z.mod_small by lia. lia.
Qed.

(** [wrap] depends only on its argument modulo [2^w]. *)
Lemma wrap_add_mul (w z k : Z) : 0 < w -> wrap w (z + k * 2 ^ w) = wrap w z.
Proof.
  intros Hw. unfold wrap.
  pose proof (pow2_pos w ltac:(lia)).
  replace (z + k * 2 ^ w + 2 ^ (w - 1)) with (z + 2 ^ (w - 1) + k * 2 ^ w) by lia.
  rewrite Z.mod_add by lia. reflexivity.
Qed.

Lemma wrap_congr (w a b : Z) :
  0 < w -> (exists k, a = b + k * 2 ^ w) -> wrap w a = wrap w b.
Proof. intros Hw [k ->]. apply wrap_add_mul; lia. Qed.

Lemma wrap_wrap (w z : Z) : 0 < w -> wrap w (wrap w z) = wrap w z.
Proof. intros Hw. apply wrap_small; [lia | apply wrap_range; lia]. Qed.

(** Narrowing twice, to a wider type and then to a narrower one, is
    narrowing once. *)
Lemma wrap_wrap_le (w1 w2 z : Z) :
  0 < w1 <= w2 -> wrap w1 (wrap w2 z) = wrap w1 z.
Proof.
  intros Hw. rewrite (wrap_eq w2 z) by lia.
  apply wrap_congr; [lia |].
  exists (- ((z + 2 ^ (w2 - 1)) / 2 ^ w2) * 2 ^ (w2 - w1)).
  replace (2 ^ w2) with (2 ^ (w2 - w1) * 2 ^ w1)
    by (rewrite <- Z.pow_add_r by lia; f_equal; lia).
  lia.
Qed.

Lemma wrap_add_l (w a b : Z) : 0 < w -> wrap w (wrap w a + b) = wrap w (a + b).
Proof.
  intros Hw. rewrite (wrap_eq w a) by lia. apply wrap_congr; [lia |].
  exists (- ((a + 2 ^ (w - 1)) / 2 ^ w)). ring.
Qed.

Lemma wrap_add_r (w a b : Z) : 0 < w -> wrap w (a + wrap w b) = wrap w (a + b).
Proof.
  intros Hw. rewrite Z.add_comm, wrap_add_l, Z.add_comm by lia. reflexivity.
Qed.

(** Narrowing to a wider type first does not change a narrower sum. *)
Lemma wrap_wrap_add_le (w1 w2 a b : Z) :
  0 < w1 <= w2 -> wrap w1 (wrap w2 a + b) = wrap w1 (a + b).
Proof.
  intros Hw. rewrite <- (wrap_add_l w1 (wrap w2 a)), wrap_wrap_le, wrap_add_l by lia. reflexivity.
Qed.

(** The low [w1] bits of [z >> k] only depend on the low [w1 + k] bits of
    [z]: narrowing [z] to any width [w2 >= w1 + k] before the shift does not
    change the result narrowed to [w1] bits. *)
Lemma wrap_shiftr_wrap (w1 w2 k z : Z) :
  0 < w1 -> 0 <= k -> w1 + k <= w2 ->
  wrap w1 (Z.shiftr (wrap w2 z) k) = wrap w1 (Z.shiftr z k).
Proof.
  intros Hw1 Hk Hw. rewrite (wrap_eq w2 z) by lia.
  rewrite !Z.shiftr_div_pow2 by lia.
  set (q := (z + 2 ^ (w2 - 1)) / 2 ^ w2).
  replace (2 ^ w2) with (2 ^ (w2 - k - w1) * 2 ^ w1 * 2 ^ k)
    by (rewrite <- !Z.pow_add_r by lia; f_equal; lia).
  replace (z - q * (2 ^ (w2 - k - w1) * 2 ^ w1 * 2 ^ k))
    with (z + (- q * 2 ^ (w2 - k - w1) * 2 ^ w1) * 2 ^ k) by ring.
  rewrite Z.div_add by (pose proof (pow2_pos k Hk); lia).
  replace (- q * 2 ^ (w2 - k - w1) * 2 ^ w1) with ((- q * 2 ^ (w2 - k - w1)) * 2 ^ w1)
    by ring.
  apply wrap_add_mul; lia.
Qed.

(** A sum or difference of two [w]-bit values is off by at most one
    [2^w]: narrowing it wraps at most once. *)
Lemma wrap_once (w s : Z) :
  0 < w -> - 2 ^ w <= s < 2 ^ w ->
  wrap w s = if s <? - 2 ^ (w - 1) then s + 2 ^ w
             else if 2 ^ (w - 1) <=? s then s - 2 ^ w else s.
Proof.
  intros Hw Hs. pose proof (pow2_split w Hw).
  destruct (Z.ltb_spec s (- 2 ^ (w - 1))); [| destruct (Z.leb_spec (2 ^ (w - 1)) s)].
  - rewrite <- (wrap_add_mul w s 1) by lia. rewrite Z.mul_1_l.
    apply wrap_small; unfold in_range; lia.
  - replace s with (s - 2 ^ w + 1 * 2 ^ w) at 1 by ring.
    rewrite wrap_add_mul by lia. apply wrap_small; unfold in_range; lia.
  - apply wrap_small; unfold in_range; lia.
Qed.

(** Or-ing a value shifted left by [p] with the low [p] bits of another is
    adding them: the bit ranges are disjoint. *)
Lemma lor_shiftl_low (x f p : Z) :
  0 <= p -> Z.lor (Z.shiftl x p) (Z.land f (Z.ones p)) = x * 2 ^ p + f mod 2 ^ p.
Proof.
  intros Hp.
  assert (Hdis : Z.land (Z.shiftl x p) (Z.land f (Z.ones p)) = 0).
  { apply Z.bits_inj'. intros i Hi.
    rewrite Z.land_spec, Z.shiftl_spec, Z.land_spec, Z.testbit_ones, Z.bits_0 by lia.
    destruct (Z.ltb_spec i p).
    - rewrite Z.testbit_neg_r by lia. reflexivity.
    - rewrite !andb_false_r. reflexivity. }
  pose proof (Z.add_lor_land (Z.shiftl x p) (Z.land f (Z.ones p))) as E.
  rewrite Hdis, Z.add_0_r in E. rewrite E, Z.shiftl_mul_pow2, Z.land_ones by lia. reflexivity.
Qed.

#[export] Hint Resolve wrap_range pow2_pos : cint.
#[export] Hint Rewrite wrap_wrap wrap_add_l wrap_add_r using lia : cint_rw.
