(* ===== verification/MathFixed.v ===== *)
(** * MathFixed: the fixed-point formats of [src/math_fixed.h]

    [Fixed_S16_3] and [Fixed_S32_16] are C unions of a raw two's-complement
    integer and a bit-field struct [{ fraction; integer }].  Each is modelled
    as a record holding only the raw value (its single source of truth); the
    bit-field view is the pair of functions of section [BitFields], written
    once for any width.  Every operation of the header is a definition of
    module [S16_3], [S32_16] or [Mixed], with the C integer promotions and
    narrowing conversions written out with [wrap]. *)

From Stdlib Require Import ZArith Lia Bool.
From S2P Require Import Prelude.
Open Scope Z_scope.
Local Open Scope cint_scope.

(** ** The bit-field view of a fixed-point union

    GCC allocates bit-fields from the least significant bit on ARM: the
    unsigned [fraction] field is the low [p] bits of the raw value, the
    signed [integer] field the [w - p] bits above them. *)
Section BitFields.
Variables w p : Z.

(** Reading the signed [integer] field. *)
Definition bf_integer (raw : Z) : Z := raw >> p.

(** Reading the unsigned [fraction] field. *)
Definition bf_fraction (raw : Z) : Z := Z.land raw (Z.ones p).

(** The raw value of the initialiser [{ .integer = i, .fraction = f }]:
    each field keeps as many bits as it has. *)
Definition bf_raw (i f : Z) : Z := Z.lor (wrap (w - p) i << p) (Z.land f (Z.ones p)).

End BitFields.

(** ** [Fixed_S16_3]: 1 sign bit, 12 integer bits, 3 fraction bits *)
Module S16_3.
Record Fixed_S16_3 := { raw_value : Z }.

Definition FIXED_S16_3_PRECISION : Z := 3.

(** The macro [Fixed_S16_3(raw)]: [raw] is converted to [int16_t]. *)
Definition mk_Fixed_S16_3 (raw : Z) : Fixed_S16_3 := {| raw_value := wrap 16 raw |}.

Definition integer (x : Fixed_S16_3) : Z := bf_integer FIXED_S16_3_PRECISION (raw_value x).
Definition fraction (x : Fixed_S16_3) : Z := bf_fraction FIXED_S16_3_PRECISION (raw_value x).

(** A compound literal [{ .integer = i, .fraction = f }]. *)
Definition of_parts (i f : Z) : Fixed_S16_3 :=
  {| raw_value := bf_raw 16 FIXED_S16_3_PRECISION i f |}.

Definition FIXED_S16_3_ZERO : Fixed_S16_3 := of_parts 0 0.
Definition FIXED_S16_3_ONE : Fixed_S16_3 := of_parts 1 0.

(** The operands are promoted to [int] (32 bits), which cannot overflow on
    two or three [int16_t] operands; the result is narrowed back. *)
Definition Fixed_S16_3_add (a b : Fixed_S16_3) : Fixed_S16_3 :=
  mk_Fixed_S16_3 (raw_value a + raw_value b).

Definition Fixed_S16_3_sub (a b : Fixed_S16_3) : Fixed_S16_3 :=
  mk_Fixed_S16_3 (raw_value a - raw_value b).

Definition Fixed_S16_3_add3 (a b c : Fixed_S16_3) : Fixed_S16_3 :=
  mk_Fixed_S16_3 (raw_value a + raw_value b + raw_value c).

Definition Fixed_S16_3_equal (a b : Fixed_S16_3) : bool := raw_value a =? raw_value b.

(** The type invariant: the raw value is an [int16_t]. *)
Definition wf (x : Fixed_S16_3) : Prop := in_range 16 (raw_value x).
End S16_3.

(** ** [Fixed_S32_16]: 1 sign bit, 15 integer bits, 16 fraction bits *)
Module S32_16.
Record Fixed_S32_16 := { raw_value : Z }.

Definition FIXED_S32_16_PRECISION : Z := 16.

(** The macro [Fixed_S32_16(raw)]: [raw] is converted to [int32_t]. *)
Definition mk_Fixed_S32_16 (raw : Z) : Fixed_S32_16 := {| raw_value := wrap 32 raw |}.

Definition integer (x : Fixed_S32_16) : Z := bf_integer FIXED_S32_16_PRECISION (raw_value x).
Definition fraction (x : Fixed_S32_16) : Z := bf_fraction FIXED_S32_16_PRECISION (raw_value x).

Definition of_parts (i f : Z) : Fixed_S32_16 :=
  {| raw_value := bf_raw 32 FIXED_S32_16_PRECISION i f |}.

Definition FIXED_S32_16_ONE : Fixed_S32_16 := of_parts 1 0.

(** Both operands are widened to [int64_t], whose product cannot overflow;
    the arithmetic shift rescales and the cast narrows to [int32_t]. *)
Definition Fixed_S32_16_mul (a b : Fixed_S32_16) : Fixed_S32_16 :=
  {| raw_value := wrap 32 (wrap 64 (raw_value a * raw_value b) >> FIXED_S32_16_PRECISION) |}.

(** [int32_t] additions: an overflow wraps on the target. *)
Definition Fixed_S32_16_add (a b : Fixed_S32_16) : Fixed_S32_16 :=
  mk_Fixed_S32_16 (raw_value a + raw_value b).

Definition Fixed_S32_16_add3 (a b c : Fixed_S32_16) : Fixed_S32_16 :=
  mk_Fixed_S32_16 (wrap 32 (raw_value a + raw_value b) + raw_value c).

Definition wf (x : Fixed_S32_16) : Prop := in_range 32 (raw_value x).
End S32_16.

(** ** Mixed operations *)
Module Mixed.
Import S16_3 S32_16.

(** [a.raw_value * b.raw_value >> FIXED_S32_16_PRECISION]: the [int16_t]
    operand is promoted to [int], so the product is computed in 32 bits
    and may wrap; the shift is arithmetic; the result is narrowed to
    [int16_t]. *)
Definition Fixed_S16_3_S32_16_mul (a : Fixed_S16_3) (b : Fixed_S32_16) : Fixed_S16_3 :=
  mk_Fixed_S16_3 (wrap 32 (S16_3.raw_value a * S32_16.raw_value b) >> FIXED_S32_16_PRECISION).

(** The specification's version: the product in a width where it cannot
    overflow (48 bits suffice), then the shift and the narrowing. *)
Definition Fixed_S16_3_S32_16_mul_wide (a : Fixed_S16_3) (b : Fixed_S32_16) : Fixed_S16_3 :=
  mk_Fixed_S16_3 (S16_3.raw_value a * S32_16.raw_value b >> FIXED_S32_16_PRECISION).
End Mixed.

(** ** Facts about the bit-field view *)
Section BitFieldFacts.
Variables w p : Z.
Hypothesis Hp : 0 < p.
Hypothesis Hpw : p < w.

Lemma bf_fraction_mod (raw : Z) : bf_fraction p raw = raw mod 2 ^ p.
Proof. unfold bf_fraction. apply Z.land_ones; lia. Qed.

Lemma bf_integer_div (raw : Z) : bf_integer p raw = raw / 2 ^ p.
Proof. unfold bf_integer. apply Z.shiftr_div_pow2; lia. Qed.

(** The raw value is [integer * 2^p + fraction], with a fraction that is
    never negative: a negative number has its integer part rounded down. *)
Lemma bf_decompose (raw : Z) :
  raw = bf_integer p raw * 2 ^ p + bf_fraction p raw /\ 0 <= bf_fraction p raw < 2 ^ p.
Proof.
  rewrite bf_integer_div, bf_fraction_mod.
  pose proof (pow2_pos p ltac:(lia)).
  split; [| apply Z.mod_pos_bound; lia].
  rewrite Z.mul_comm. apply Z.div_mod. lia.
Qed.

Lemma bf_raw_eq (i f : Z) : bf_raw w p i f = wrap (w - p) i * 2 ^ p + f mod 2 ^ p.
Proof. unfold bf_raw. apply lor_shiftl_low; lia. Qed.

Lemma pow2_w_split : 2 ^ (w - 1) = 2 ^ (w - p - 1) * 2 ^ p.
Proof. rewrite <- Z.pow_add_r by lia. f_equal. lia. Qed.

Lemma bf_raw_range (i f : Z) : in_range w (bf_raw w p i f).
Proof.
  rewrite bf_raw_eq. pose proof (wrap_range (w - p) i ltac:(lia)) as Hr.
  unfold in_range in *. rewrite pow2_w_split.
  replace (w - p - 1) with (w - p - 1) in Hr by lia.
  pose proof (Z.mod_pos_bound f (2 ^ p) (pow2_pos p ltac:(lia))). nia.
Qed.

Lemma bf_integer_range (raw : Z) : in_range w raw -> in_range (w - p) (bf_integer p raw).
Proof.
  intros Hr. unfold in_range in *. rewrite pow2_w_split in Hr.
  destruct (bf_decompose raw) as [E Hf].
  pose proof (pow2_pos p ltac:(lia)). nia.
Qed.

(** From raw value to fields and back. *)
Lemma bf_raw_view (raw : Z) :
  in_range w raw -> bf_raw w p (bf_integer p raw) (bf_fraction p raw) = raw.
Proof.
  intros Hr. rewrite bf_raw_eq, wrap_small by (try apply bf_integer_range; auto; lia).
  rewrite (Z.mod_small (bf_fraction p raw)) by apply bf_decompose.
  symmetry. apply bf_decompose.
Qed.

(** From fields to raw value and back, for fields within their widths. *)
Lemma bf_view_raw (i f : Z) :
  in_range (w - p) i -> 0 <= f < 2 ^ p ->
  bf_integer p (bf_raw w p i f) = i /\ bf_fraction p (bf_raw w p i f) = f.
Proof.
  intros Hi Hf. rewrite bf_integer_div, bf_fraction_mod, bf_raw_eq, wrap_small, Z.mod_small
    by (auto; lia).
  pose proof (pow2_pos p ltac:(lia)). split.
  - rewrite Z.div_add_l by lia. rewrite Z.div_small by lia. lia.
  - rewrite Z.add_comm, Z.mod_add by lia. apply Z.mod_small; lia.
Qed.
End BitFieldFacts.

(** ** Facts about the two formats *)

Lemma S16_3_ext (x y : S16_3.Fixed_S16_3) :
  S16_3.raw_value x = S16_3.raw_value y -> x = y.
Proof. destruct x, y; simpl; intros ->; reflexivity. Qed.

Lemma S32_16_ext (x y : S32_16.Fixed_S32_16) :
  S32_16.raw_value x = S32_16.raw_value y -> x = y.
Proof. destruct x, y; simpl; intros ->; reflexivity. Qed.

Lemma mk_Fixed_S16_3_wf (z : Z) : S16_3.wf (S16_3.mk_Fixed_S16_3 z).
Proof. apply wrap_range; lia. Qed.

Lemma mk_Fixed_S32_16_wf (z : Z) : S32_16.wf (S32_16.mk_Fixed_S32_16 z).
Proof. apply wrap_range; lia. Qed.

Lemma mk_Fixed_S32_16_id (x : S32_16.Fixed_S32_16) :
  S32_16.wf x -> S32_16.mk_Fixed_S32_16 (S32_16.raw_value x) = x.
Proof. intros H. apply S32_16_ext. apply wrap_small; [lia | exact H]. Qed.

Lemma Fixed_S32_16_mul_wf (a b : S32_16.Fixed_S32_16) : S32_16.wf (S32_16.Fixed_S32_16_mul a b).
Proof. apply wrap_range; lia. Qed.

Lemma Fixed_S32_16_add_wf (a b : S32_16.Fixed_S32_16) : S32_16.wf (S32_16.Fixed_S32_16_add a b).
Proof. apply mk_Fixed_S32_16_wf. Qed.

Lemma Fixed_S32_16_add3_wf (a b c : S32_16.Fixed_S32_16) :
  S32_16.wf (S32_16.Fixed_S32_16_add3 a b c).
Proof. apply mk_Fixed_S32_16_wf. Qed.

#[export] Hint Resolve mk_Fixed_S16_3_wf mk_Fixed_S32_16_wf Fixed_S32_16_mul_wf
  Fixed_S32_16_add_wf Fixed_S32_16_add3_wf : cint.

Lemma FIXED_S16_3_ONE_raw : S16_3.raw_value S16_3.FIXED_S16_3_ONE = 8.
Proof. reflexivity. Qed.

Lemma FIXED_S32_16_ONE_raw : S32_16.raw_value S32_16.FIXED_S32_16_ONE = 65536.
Proof. reflexivity. Qed.

Lemma FIXED_S32_16_ONE_wf : S32_16.wf S32_16.FIXED_S32_16_ONE.
Proof. unfold S32_16.wf. rewrite FIXED_S32_16_ONE_raw. unfold in_range. cint_consts. lia. Qed.

#[export] Hint Resolve FIXED_S32_16_ONE_wf : cint.

(** An arithmetic right shift by 16 is the floor of the quotient by 2^16. *)
Lemma shiftr16_floor (z : Z) : (z >> 16) * 65536 <= z < ((z >> 16) + 1) * 65536.
Proof. rewrite Z.shiftr_div_pow2 by lia. cint_consts. Z.div_mod_to_equations. lia. Qed.

(** The 64-bit product of two [int32_t] values never overflows. *)
Lemma mul32_in_range64 (a b : Z) : in_range 32 a -> in_range 32 b -> in_range 64 (a * b).
Proof. unfold in_range; cint_consts; intros; nia. Qed.

(** [Fixed_S32_16_add3] is two [Fixed_S32_16_add]s. *)
Lemma Fixed_S32_16_add3_add (a b c : S32_16.Fixed_S32_16) :
  S32_16.Fixed_S32_16_add3 a b c = S32_16.Fixed_S32_16_add (S32_16.Fixed_S32_16_add a b) c.
Proof. reflexivity. Qed.

Lemma Fixed_S32_16_mul_raw (a b : S32_16.Fixed_S32_16) :
  S32_16.wf a -> S32_16.wf b ->
  S32_16.raw_value (S32_16.Fixed_S32_16_mul a b)
  = wrap 32 (S32_16.raw_value a * S32_16.raw_value b >> 16).
Proof.
  intros Ha Hb. cbn [S32_16.Fixed_S32_16_mul S32_16.raw_value].
  rewrite (wrap_small 64); [reflexivity | lia | apply mul32_in_range64; assumption].
Qed.

(** Multiplying by one ([FIXED_S32_16_ONE] on either side) is exact. *)
Lemma Fixed_S32_16_mul_one_l (x : S32_16.Fixed_S32_16) :
  S32_16.wf x -> S32_16.Fixed_S32_16_mul S32_16.FIXED_S32_16_ONE x = x.
Proof.
  intros Hx. apply S32_16_ext. rewrite Fixed_S32_16_mul_raw by auto with cint.
  rewrite FIXED_S32_16_ONE_raw, Z.shiftr_div_pow2, Z.mul_comm, Z.div_mul by lia.
  apply wrap_small; [lia | exact Hx].
Qed.

Lemma Fixed_S32_16_mul_one_r (x : S32_16.Fixed_S32_16) :
  S32_16.wf x -> S32_16.Fixed_S32_16_mul x S32_16.FIXED_S32_16_ONE = x.
Proof.
  intros Hx. apply S32_16_ext. rewrite Fixed_S32_16_mul_raw by auto with cint.
  rewrite FIXED_S32_16_ONE_raw, Z.shiftr_div_pow2, Z.div_mul by lia.
  apply wrap_small; [lia | exact Hx].
Qed.

(** Multiplying by a zero raw value gives a zero raw value. *)
Lemma Fixed_S32_16_mul_zero_l (x y : S32_16.Fixed_S32_16) :
  S32_16.raw_value x = 0 -> S32_16.raw_value (S32_16.Fixed_S32_16_mul x y) = 0.
Proof. intros H. cbn. rewrite H. reflexivity. Qed.

Lemma Fixed_S32_16_mul_zero_r (x y : S32_16.Fixed_S32_16) :
  S32_16.raw_value y = 0 -> S32_16.raw_value (S32_16.Fixed_S32_16_mul x y) = 0.
Proof. intros H. cbn. rewrite H, Z.mul_0_r. reflexivity. Qed.

(** The 32-bit and the wide computation of the mixed product agree. *)
Lemma mixed_mul_wide (a : S16_3.Fixed_S16_3) (b : S32_16.Fixed_S32_16) :
  Mixed.Fixed_S16_3_S32_16_mul a b = Mixed.Fixed_S16_3_S32_16_mul_wide a b.
Proof.
  unfold Mixed.Fixed_S16_3_S32_16_mul, Mixed.Fixed_S16_3_S32_16_mul_wide, S16_3.mk_Fixed_S16_3.
  f_equal. apply wrap_shiftr_wrap; unfold S32_16.FIXED_S32_16_PRECISION; lia.
Qed.

(** C2: The mixed multiplication [Fixed_S16_3_S32_16_mul] computes the
    product in a 32-bit [int], which overflows for large operands; its
    result is nevertheless always the one of the wide product the
    specification asks for, because only bits 16 to 31 of the product reach
    the [int16_t] result. *)
Theorem Fixed_S16_3_S32_16_mul_wide_equiv (a : S16_3.Fixed_S16_3) (b : S32_16.Fixed_S32_16) :
  Mixed.Fixed_S16_3_S32_16_mul a b = Mixed.Fixed_S16_3_S32_16_mul_wide a b.
Proof. apply mixed_mul_wide. Qed.

(** C23: [Fixed_S32_16_mul] on two valid coefficients is the product
    rounded down to the 16.16 grid, whenever that product is representable:
    the 64-bit widening makes the intermediate exact. *)
Theorem Fixed_S32_16_mul_floor (a b : S32_16.Fixed_S32_16) :
  S32_16.wf a -> S32_16.wf b ->
  in_range 32 (S32_16.raw_value a * S32_16.raw_value b >> 16) ->
  S32_16.raw_value (S32_16.Fixed_S32_16_mul a b) * 65536
    <= S32_16.raw_value a * S32_16.raw_value b
    < (S32_16.raw_value (S32_16.Fixed_S32_16_mul a b) + 1) * 65536.
Proof.
  intros Ha Hb Hr. rewrite Fixed_S32_16_mul_raw, wrap_small by (auto; lia).
  apply shiftr16_floor.
Qed.

(** C24: the mixed multiplication yields the product of a 13.3 and a 16.16
    value rounded down to the 13.3 grid, whenever it is representable. *)
Theorem Fixed_S16_3_S32_16_mul_floor (a : S16_3.Fixed_S16_3) (b : S32_16.Fixed_S32_16) :
  in_range 16 (S16_3.raw_value a * S32_16.raw_value b >> 16) ->
  S16_3.raw_value (Mixed.Fixed_S16_3_S32_16_mul a b) * 65536
    <= S16_3.raw_value a * S32_16.raw_value b
    < (S16_3.raw_value (Mixed.Fixed_S16_3_S32_16_mul a b) + 1) * 65536.
Proof.
  intros Hr. rewrite mixed_mul_wide.
  cbn [Mixed.Fixed_S16_3_S32_16_mul_wide S16_3.mk_Fixed_S16_3 S16_3.raw_value].
  rewrite wrap_small by (auto; lia). apply shiftr16_floor.
Qed.

(** The bit-field view of a [Fixed_S16_3] and its raw value determine
    each other: the raw value is [integer * 8 + fraction] with a fraction in
    [0, 8) (also for negative numbers), and the compound literal built from
    the two fields gives the raw value back. *)
Theorem Fixed_S16_3_fields_roundtrip (x : S16_3.Fixed_S16_3) :
  S16_3.wf x ->
  S16_3.of_parts (S16_3.integer x) (S16_3.fraction x) = x
  /\ S16_3.raw_value x = S16_3.integer x * 8 + S16_3.fraction x
  /\ 0 <= S16_3.fraction x < 8.
Proof.
  intros Hx. unfold S16_3.integer, S16_3.fraction, S16_3.FIXED_S16_3_PRECISION.
  destruct (bf_decompose 3 ltac:(lia) (S16_3.raw_value x)) as [E F].
  split; [| exact (conj E F)].
  apply S16_3_ext. apply bf_raw_view; [lia | lia | exact Hx].
Qed.

(** C25: fixed-point addition and subtraction of [Fixed_S16_3] are the
    exact sum and difference of the raw values when these fit in 16 bits,
    and wrap around by 2^16 otherwise (no saturation, no error). *)
Theorem Fixed_S16_3_add_wraps (a b : S16_3.Fixed_S16_3) :
  S16_3.wf a -> S16_3.wf b ->
  S16_3.raw_value (S16_3.Fixed_S16_3_add a b)
    = (let s := S16_3.raw_value a + S16_3.raw_value b in
       if s <? -32768 then s + 65536 else if 32768 <=? s then s - 65536 else s)
  /\ S16_3.raw_value (S16_3.Fixed_S16_3_sub a b)
    = (let s := S16_3.raw_value a - S16_3.raw_value b in
       if s <? -32768 then s + 65536 else if 32768 <=? s then s - 65536 else s).
Proof.
  unfold S16_3.wf, in_range. intros Ha Hb. cbn -[wrap Z.pow].
  cint_consts. rewrite !wrap_once by (cint_consts; lia). cint_consts. split; reflexivity.
Qed.

Lemma Fixed_S32_16_mul_floor_witness :
  S32_16.raw_value (S32_16.Fixed_S32_16_mul {| S32_16.raw_value := 98304 |}
                                           {| S32_16.raw_value := 131072 |}) = 196608
  /\ S32_16.raw_value (S32_16.Fixed_S32_16_mul {| S32_16.raw_value := 98304 |}
                                              {| S32_16.raw_value := 131072 |}) * 65536
     <= 98304 * 131072
     < (S32_16.raw_value (S32_16.Fixed_S32_16_mul {| S32_16.raw_value := 98304 |}
                                                 {| S32_16.raw_value := 131072 |}) + 1) * 65536.
Proof.
  split; [reflexivity |].
  apply (Fixed_S32_16_mul_floor {| S32_16.raw_value := 98304 |} {| S32_16.raw_value := 131072 |});
    range_by_eval.
Defined.

Lemma Fixed_S16_3_S32_16_mul_floor_witness :
  S16_3.raw_value (Mixed.Fixed_S16_3_S32_16_mul {| S16_3.raw_value := 24 |}
                                                {| S32_16.raw_value := 131072 |}) = 48
  /\ S16_3.raw_value (Mixed.Fixed_S16_3_S32_16_mul {| S16_3.raw_value := 24 |}
                                                   {| S32_16.raw_value := 131072 |}) * 65536
     <= 24 * 131072
     < (S16_3.raw_value (Mixed.Fixed_S16_3_S32_16_mul {| S16_3.raw_value := 24 |}
                                                      {| S32_16.raw_value := 131072 |}) + 1) * 65536.
Proof.
  split; [reflexivity |].
  apply (Fixed_S16_3_S32_16_mul_floor {| S16_3.raw_value := 24 |} {| S32_16.raw_value := 131072 |});
    range_by_eval.
Defined.

(** -1.125 is stored as integer -2 and fraction 7. *)
Lemma Fixed_S16_3_fields_roundtrip_witness :
  S16_3.integer {| S16_3.raw_value := -9 |} = -2
  /\ S16_3.fraction {| S16_3.raw_value := -9 |} = 7
  /\ S16_3.of_parts (S16_3.integer {| S16_3.raw_value := -9 |})
                    (S16_3.fraction {| S16_3.raw_value := -9 |}) = {| S16_3.raw_value := -9 |}.
Proof.
  split; [reflexivity | split; [reflexivity |]].
  apply (Fixed_S16_3_fields_roundtrip {| S16_3.raw_value := -9 |}). range_by_eval.
Defined.

(** 4095.875 + 0.125 wraps around to -4096. *)
Lemma Fixed_S16_3_add_wraps_witness :
  S16_3.raw_value (S16_3.Fixed_S16_3_add {| S16_3.raw_value := 32767 |} {| S16_3.raw_value := 1 |})
  = -32768.
Proof.
  destruct (Fixed_S16_3_add_wraps {| S16_3.raw_value := 32767 |} {| S16_3.raw_value := 1 |})
    as [H _]; [range_by_eval | range_by_eval |].
  rewrite H. reflexivity.
Defined.

(** Adding a zero raw value to a valid coefficient changes nothing. *)
Lemma Fixed_S32_16_add_zero_r (x y : S32_16.Fixed_S32_16) :
  S32_16.raw_value y = 0 -> S32_16.wf x -> S32_16.Fixed_S32_16_add x y = x.
Proof.
  intros Hy Hx. apply S32_16_ext. cbn. rewrite Hy, Z.add_0_r. apply wrap_small; [lia | exact Hx].
Qed.

Lemma Fixed_S32_16_add_zero_l (x y : S32_16.Fixed_S32_16) :
  S32_16.raw_value x = 0 -> S32_16.wf y -> S32_16.Fixed_S32_16_add x y = y.
Proof. intros Hx Hy. apply S32_16_ext. cbn. rewrite Hx. apply wrap_small; [lia | exact Hy]. Qed.

Lemma Fixed_S32_16_add3_zero (x y z : S32_16.Fixed_S32_16) :
  S32_16.raw_value x = 0 -> S32_16.raw_value y = 0 -> S32_16.wf z ->
  S32_16.Fixed_S32_16_add3 x y z = z.
Proof.
  intros Hx Hy Hz. apply S32_16_ext. cbn. rewrite Hx, Hy.
  change (wrap 32 (0 + 0)) with 0. apply wrap_small; [lia | exact Hz].
Qed.

Lemma Fixed_S32_16_add3_zero_r (x y z : S32_16.Fixed_S32_16) :
  S32_16.raw_value y = 0 -> S32_16.raw_value z = 0 -> S32_16.wf x ->
  S32_16.Fixed_S32_16_add3 x y z = x.
Proof.
  intros Hy Hz Hx. apply S32_16_ext. cbn. rewrite Hy, Hz, !Z.add_0_r.
  rewrite wrap_wrap by lia. apply wrap_small; [lia | exact Hx].
Qed.

Lemma Fixed_S32_16_add3_zero_lr (x y z : S32_16.Fixed_S32_16) :
  S32_16.raw_value x = 0 -> S32_16.raw_value z = 0 -> S32_16.wf y ->
  S32_16.Fixed_S32_16_add3 x y z = y.
Proof.
  intros Hx Hz Hy. apply S32_16_ext. cbn. rewrite Hx, Hz, Z.add_0_r.
  rewrite wrap_wrap by lia. apply wrap_small; [lia | exact Hy].
Qed.

(** Side conditions of the rewrite database [fx_rw]. *)
Ltac fx_side :=
  solve [ assumption | reflexivity
        | apply Fixed_S32_16_mul_zero_l; reflexivity
        | apply Fixed_S32_16_mul_zero_r; reflexivity
        | auto with cint ].

Create Rewrite HintDb fx_rw.
#[export] Hint Rewrite Fixed_S32_16_mul_one_l Fixed_S32_16_mul_one_r
  Fixed_S32_16_add_zero_r Fixed_S32_16_add_zero_l Fixed_S32_16_add3_zero
  Fixed_S32_16_add3_zero_r Fixed_S32_16_add3_zero_lr using fx_side : fx_rw.
