(* ===== verification/GTypes.v ===== *)
(** * GTypes: precise points and vectors of [src/gtypes.h] and [src/gtypes.c]

    [GPoint] is the Pebble SDK's integer point ([int16_t x, y]); it is not
    part of this repository and is modelled from its SDK declaration.
    [GPointPrecise] and [GVectorPrecise] are pairs of [Fixed_S16_3];
    [GVector] is a pair of [int16_t].  Each record lives in a module named
    after it, so that the field names of the source ([x], [y], [dx], [dy])
    can be kept.  The conversion macros are definitions with the C's [%]
    ([Z.rem]), [<<] and [>>] and the narrowing of the brace initialisers. *)

From Stdlib Require Import ZArith Lia Bool.
From S2P Require Import Prelude MathFixed.
Open Scope Z_scope.
Local Open Scope cint_scope.

Module Point.
(** The SDK's [GPoint]: [int16_t x, y]. *)
Record GPoint := { x : Z; y : Z }.
(** The SDK's macro [GPoint(x, y)]: both coordinates narrowed to [int16_t]. *)
Definition mk_GPoint (x y : Z) : GPoint := {| x := wrap 16 x; y := wrap 16 y |}.
End Point.

Module PointPrecise.
Record GPointPrecise := { x : S16_3.Fixed_S16_3; y : S16_3.Fixed_S16_3 }.
(** [GPointPrecise(x, y)]: the raw values initialise the unions' first
    member, an [int16_t]. *)
Definition mk_GPointPrecise (x y : Z) : GPointPrecise :=
  {| x := S16_3.mk_Fixed_S16_3 x; y := S16_3.mk_Fixed_S16_3 y |}.
End PointPrecise.

Module Vector.
Record GVector := { dx : Z; dy : Z }.
Definition mk_GVector (dx dy : Z) : GVector := {| dx := wrap 16 dx; dy := wrap 16 dy |}.
End Vector.

Module VectorPrecise.
Record GVectorPrecise := { dx : S16_3.Fixed_S16_3; dy : S16_3.Fixed_S16_3 }.
Definition mk_GVectorPrecise (dx dy : Z) : GVectorPrecise :=
  {| dx := S16_3.mk_Fixed_S16_3 dx; dy := S16_3.mk_Fixed_S16_3 dy |}.
End VectorPrecise.

Definition GPOINT_PRECISE_MAX : Z := 8192.
Definition GPOINT_PRECISE_PRECISION : Z := S16_3.FIXED_S16_3_PRECISION.
Definition GVECTOR_PRECISE_MAX : Z := GPOINT_PRECISE_MAX.
Definition GVECTOR_PRECISE_PRECISION : Z := GPOINT_PRECISE_PRECISION.

Definition GPointPreciseFromGPoint (point : Point.GPoint) : PointPrecise.GPointPrecise :=
  PointPrecise.mk_GPointPrecise
    (Z.rem (Point.x point) GPOINT_PRECISE_MAX << GPOINT_PRECISE_PRECISION)
    (Z.rem (Point.y point) GPOINT_PRECISE_MAX << GPOINT_PRECISE_PRECISION).

Definition GPointFromGPointPrecise (pointP : PointPrecise.GPointPrecise) : Point.GPoint :=
  Point.mk_GPoint
    (S16_3.raw_value (PointPrecise.x pointP) >> GPOINT_PRECISE_PRECISION)
    (S16_3.raw_value (PointPrecise.y pointP) >> GPOINT_PRECISE_PRECISION).

Definition gpointprecise_equal (pointP_a pointP_b : PointPrecise.GPointPrecise) : bool :=
  (S16_3.raw_value (PointPrecise.x pointP_a) =? S16_3.raw_value (PointPrecise.x pointP_b))
  && (S16_3.raw_value (PointPrecise.y pointP_a) =? S16_3.raw_value (PointPrecise.y pointP_b)).

Definition GVectorPreciseFromGVector (vector : Vector.GVector) : VectorPrecise.GVectorPrecise :=
  VectorPrecise.mk_GVectorPrecise
    (Z.rem (Vector.dx vector) GVECTOR_PRECISE_MAX << GVECTOR_PRECISE_PRECISION)
    (Z.rem (Vector.dy vector) GVECTOR_PRECISE_MAX << GVECTOR_PRECISE_PRECISION).

Definition GVectorFromGVectorPrecise (vectorP : VectorPrecise.GVectorPrecise) : Vector.GVector :=
  Vector.mk_GVector
    (S16_3.raw_value (VectorPrecise.dx vectorP) >> GVECTOR_PRECISE_PRECISION)
    (S16_3.raw_value (VectorPrecise.dy vectorP) >> GVECTOR_PRECISE_PRECISION).

Definition gvectorprecise_equal (vectorP_a vectorP_b : VectorPrecise.GVectorPrecise) : bool :=
  (S16_3.raw_value (VectorPrecise.dx vectorP_a) =? S16_3.raw_value (VectorPrecise.dx vectorP_b))
  && (S16_3.raw_value (VectorPrecise.dy vectorP_a) =? S16_3.raw_value (VectorPrecise.dy vectorP_b)).

(** ** One coordinate at a time *)

(** Narrowing a multiple of [2^k] to [w + k] bits is narrowing the
    multiplier to [w] bits. *)
Lemma wrap_mul_pow2 (w k z : Z) :
  0 < w -> 0 <= k -> wrap (w + k) (z * 2 ^ k) = wrap w z * 2 ^ k.
Proof.
  intros Hw Hk. unfold wrap.
  replace (w + k - 1) with ((w - 1) + k) by lia.
  rewrite !Z.pow_add_r by lia.
  replace (z * 2 ^ k + 2 ^ (w - 1) * 2 ^ k) with ((z + 2 ^ (w - 1)) * 2 ^ k) by ring.
  rewrite Z.mul_mod_distr_r by (pose proof (pow2_pos w); pose proof (pow2_pos k); lia).
  ring.
Qed.

(** An integer coordinate, taken modulo 8192 and shifted into 13.3, is
    eight times the coordinate wrapped to 13 signed bits. *)
Lemma coord_precise (z : Z) : wrap 16 (Z.rem z 8192 << 3) = wrap 13 z * 8.
Proof.
  rewrite Z.shiftl_mul_pow2 by lia.
  replace 16 with (13 + 3) by reflexivity.
  rewrite wrap_mul_pow2 by lia. f_equal.
  apply wrap_congr; [lia |].
  exists (- Z.quot z 8192). rewrite (Z.rem_eq z 8192) by lia. cint_consts. lia.
Qed.

(** Eight times a 13-bit value, shifted back to an integer. *)
Lemma times8_shiftr (z : Z) : (wrap 13 z * 8) >> 3 = wrap 13 z.
Proof. rewrite Z.shiftr_div_pow2, Z.div_mul by lia. reflexivity. Qed.

(** An integer coordinate, taken modulo 8192, shifted into 13.3 and back,
    is the coordinate wrapped to 13 signed bits. *)
Lemma coord_roundtrip (z : Z) :
  (wrap 16 (Z.rem z 8192 << 3) >> 3) = wrap 13 z.
Proof. rewrite coord_precise. apply times8_shiftr. Qed.

(** A precise coordinate, shifted to an integer and back, loses its
    fraction: it is rounded down to the integer grid. *)
Lemma coord_truncate (r : Z) :
  in_range 16 r -> wrap 16 (Z.rem (wrap 16 (r >> 3)) 8192 << 3) = (r >> 3) * 8.
Proof.
  intros Hr. unfold in_range in Hr. cint_consts.
  rewrite Z.shiftr_div_pow2 by lia. cint_consts.
  assert (Hq : -4096 <= r / 8 < 4096)
    by (split; [apply Z.div_le_lower_bound | apply Z.div_lt_upper_bound]; lia).
  rewrite (wrap_small 16 (r / 8)) by (unfold in_range; cint_consts; lia).
  rewrite (proj2 (Z.rem_small_iff (r / 8) 8192 ltac:(lia))) by lia.
  rewrite Z.shiftl_mul_pow2 by lia. cint_consts.
  apply wrap_small; unfold in_range; cint_consts; lia.
Qed.

Lemma wrap16_wrap13 (z : Z) : wrap 16 (wrap 13 z) = wrap 13 z.
Proof. apply wrap_small; [lia |]. apply (in_range_widen 13); [lia | apply wrap_range; lia]. Qed.

(** ** Conversions *)

(** C22: converting an integer point to a precise point and back gives
    each coordinate wrapped into the 13-bit window [-4096, 4095]: the
    [% GPOINT_PRECISE_MAX] and the narrowing to [int16_t] together wrap
    rather than saturate. *)
Theorem GPoint_precise_roundtrip (p : Point.GPoint) :
  GPointFromGPointPrecise (GPointPreciseFromGPoint p)
  = {| Point.x := wrap 13 (Point.x p); Point.y := wrap 13 (Point.y p) |}.
Proof.
  unfold GPointFromGPointPrecise, GPointPreciseFromGPoint, Point.mk_GPoint,
    GPOINT_PRECISE_MAX, GPOINT_PRECISE_PRECISION, S16_3.FIXED_S16_3_PRECISION.
  cbn -[wrap Z.shiftr Z.shiftl Z.rem]. rewrite !coord_roundtrip, !wrap16_wrap13. reflexivity.
Qed.

(** Inside the window, the round trip is the identity. *)
Lemma GPoint_precise_roundtrip_window (p : Point.GPoint) :
  in_range 13 (Point.x p) -> in_range 13 (Point.y p) ->
  GPointFromGPointPrecise (GPointPreciseFromGPoint p) = p.
Proof.
  intros Hx Hy.
  unfold GPointFromGPointPrecise, GPointPreciseFromGPoint, Point.mk_GPoint,
    GPOINT_PRECISE_MAX, GPOINT_PRECISE_PRECISION, S16_3.FIXED_S16_3_PRECISION.
  cbn -[wrap Z.shiftr Z.shiftl Z.rem]. rewrite !coord_roundtrip, !wrap16_wrap13.
  rewrite !wrap_small by (auto; lia). destruct p; reflexivity.
Qed.

Lemma GVector_precise_roundtrip (v : Vector.GVector) :
  GVectorFromGVectorPrecise (GVectorPreciseFromGVector v)
  = {| Vector.dx := wrap 13 (Vector.dx v); Vector.dy := wrap 13 (Vector.dy v) |}.
Proof.
  unfold GVectorFromGVectorPrecise, GVectorPreciseFromGVector, Vector.mk_GVector,
    GVECTOR_PRECISE_MAX, GVECTOR_PRECISE_PRECISION, GPOINT_PRECISE_MAX, GPOINT_PRECISE_PRECISION,
    S16_3.FIXED_S16_3_PRECISION.
  cbn -[wrap Z.shiftr Z.shiftl Z.rem]. rewrite !coord_roundtrip, !wrap16_wrap13. reflexivity.
Qed.

(** Converting a valid precise point to an integer point and back
    drops the fraction of each coordinate: what remains is its [integer]
    bit-field times 8 (rounding down, also for negative coordinates). *)
Theorem GPointPrecise_truncate (pp : PointPrecise.GPointPrecise) :
  S16_3.wf (PointPrecise.x pp) -> S16_3.wf (PointPrecise.y pp) ->
  S16_3.raw_value (PointPrecise.x (GPointPreciseFromGPoint (GPointFromGPointPrecise pp)))
    = S16_3.integer (PointPrecise.x pp) * 8
  /\ S16_3.raw_value (PointPrecise.y (GPointPreciseFromGPoint (GPointFromGPointPrecise pp)))
    = S16_3.integer (PointPrecise.y pp) * 8.
Proof.
  intros Hx Hy. split; apply coord_truncate; assumption.
Qed.

Lemma GPointPrecise_truncate_witness :
  S16_3.raw_value (PointPrecise.x (GPointPreciseFromGPoint (GPointFromGPointPrecise
     {| PointPrecise.x := {| S16_3.raw_value := -9 |}; PointPrecise.y := {| S16_3.raw_value := 13 |} |})))
  = -16
  /\ S16_3.raw_value (PointPrecise.x (GPointPreciseFromGPoint (GPointFromGPointPrecise
     {| PointPrecise.x := {| S16_3.raw_value := -9 |}; PointPrecise.y := {| S16_3.raw_value := 13 |} |})))
  = S16_3.integer {| S16_3.raw_value := -9 |} * 8.
Proof.
  split; [reflexivity |].
  apply (GPointPrecise_truncate
     {| PointPrecise.x := {| S16_3.raw_value := -9 |}; PointPrecise.y := {| S16_3.raw_value := 13 |} |});
    range_by_eval.
Defined.

(** [gpointprecise_equal] decides equality of precise points. *)
Lemma gpointprecise_equal_spec (a b : PointPrecise.GPointPrecise) :
  gpointprecise_equal a b = true <-> a = b.
Proof.
  unfold gpointprecise_equal. rewrite andb_true_iff, !Z.eqb_eq.
  destruct a as [[ax] [ay]], b as [[bx] [by_]]; cbn.
  split; [intros [-> ->]; reflexivity | intros H; injection H; auto].
Qed.

Lemma gvectorprecise_equal_spec (a b : VectorPrecise.GVectorPrecise) :
  gvectorprecise_equal a b = true <-> a = b.
Proof.
  unfold gvectorprecise_equal. rewrite andb_true_iff, !Z.eqb_eq.
  destruct a as [[ax] [ay]], b as [[bx] [by_]]; cbn.
  split; [intros [-> ->]; reflexivity | intros H; injection H; auto].
Qed.
