(* ===== verification/Transform.v ===== *)
(** * Transform: the [GTransform] value type of [src/gtypes.h] and
    [src/gtransform.h]/[src/gtransform.c]

    The record [Tr.GTransform] has the six [GTransformNumber] fields of the
    packed C struct, in their order.  The construction macros are
    definitions; [gtransform_init_rotation] is in [Rotation].  The
    predicates take [option GTransform]: [None] is a NULL pointer, [Some t]
    a pointer to [t].  [gtransform_is_identity] and [gtransform_is_equal]
    compare with [memcmp], modelled over the 24-byte little-endian image of
    the packed struct ([gtransform_bytes]).  [gtransform_mul] is the
    arithmetic of [gtransform_concat]: the product [t1 * t2] computed with
    [Fixed_S32_16_mul], [Fixed_S32_16_add] and [Fixed_S32_16_add3] as the C
    computes it; the pointer-level [gtransform_concat] is in
    [TransformStore].  [affine_mul] and [affine_mul3] are the exact
    products of two and three transforms, against which the rounding of
    one and of two chained products is bounded. *)

From Stdlib Require Import ZArith Lia Bool List QArith.
From S2P Require Import Prelude MathFixed.
Import ListNotations.
Open Scope Z_scope.
Local Open Scope cint_scope.

(** [typedef Fixed_S32_16 GTransformNumber;] *)
Definition GTransformNumber : Type := S32_16.Fixed_S32_16.

Module Tr.
Record GTransform := {
  a : GTransformNumber; b : GTransformNumber;
  c : GTransformNumber; d : GTransformNumber;
  tx : GTransformNumber; ty : GTransformNumber }.
End Tr.

(** ** Construction macros *)

Definition GTransformNumberZero : GTransformNumber := S32_16.of_parts 0 0.
Definition GTransformNumberOne : GTransformNumber := S32_16.of_parts 1 0.

(** [GTransformNumberFromNumber(x)] for an integer [x]: the product with
    [GTransformNumberOne.raw_value] is an [int] product, narrowed to
    [int32_t]. *)
Definition GTransformNumberFromNumber (x : Z) : GTransformNumber :=
  {| S32_16.raw_value := wrap 32 (x * S32_16.raw_value GTransformNumberOne) |}.

(** [GTransformNumberFromNumber(x)] for a floating-point [x] holding the
    rational [q]: the product with 65536.0 is exact (a power of two), and
    the cast to [int32_t] truncates toward zero.  Out of range the C
    conversion is undefined; the model wraps. *)
Definition GTransformNumberFromQ (q : Q) : GTransformNumber :=
  {| S32_16.raw_value :=
       wrap 32 (Z.quot (Qnum q * S32_16.raw_value GTransformNumberOne) (Z.pos (Qden q))) |}.

Definition mk_GTransform (a b c d tx ty : GTransformNumber) : Tr.GTransform :=
  {| Tr.a := a; Tr.b := b; Tr.c := c; Tr.d := d; Tr.tx := tx; Tr.ty := ty |}.

Definition GTransformFromNumbers (a b c d tx ty : Z) : Tr.GTransform :=
  mk_GTransform (GTransformNumberFromNumber a) (GTransformNumberFromNumber b)
                (GTransformNumberFromNumber c) (GTransformNumberFromNumber d)
                (GTransformNumberFromNumber tx) (GTransformNumberFromNumber ty).

Definition GTransformIdentity : Tr.GTransform :=
  {| Tr.a := GTransformNumberOne; Tr.b := GTransformNumberZero;
     Tr.c := GTransformNumberZero; Tr.d := GTransformNumberOne;
     Tr.tx := GTransformNumberZero; Tr.ty := GTransformNumberZero |}.

Definition GTransformScale (sx sy : GTransformNumber) : Tr.GTransform :=
  {| Tr.a := sx; Tr.b := GTransformNumberZero;
     Tr.c := GTransformNumberZero; Tr.d := sy;
     Tr.tx := GTransformNumberZero; Tr.ty := GTransformNumberZero |}.

Definition GTransformScaleFromNumber (sx sy : Z) : Tr.GTransform :=
  GTransformScale (GTransformNumberFromNumber sx) (GTransformNumberFromNumber sy).

Definition GTransformTranslation (tx_v ty_v : GTransformNumber) : Tr.GTransform :=
  {| Tr.a := GTransformNumberOne; Tr.b := GTransformNumberZero;
     Tr.c := GTransformNumberZero; Tr.d := GTransformNumberOne;
     Tr.tx := tx_v; Tr.ty := ty_v |}.

Definition GTransformTranslationFromNumber (tx ty : Z) : Tr.GTransform :=
  GTransformTranslation (GTransformNumberFromNumber tx) (GTransformNumberFromNumber ty).

(** ** The byte image of a packed [GTransform] and [memcmp] *)

(** The [n] bytes of [z] in little-endian order, as [unsigned char]s. *)
Fixpoint le_bytes (n : nat) (z : Z) : list Z :=
  match n with
  | O => []
  | S n' => Z.land z 255 :: le_bytes n' (z >> 8)
  end.

(** The unsigned value of a little-endian byte sequence. *)
Fixpoint le_combine (l : list Z) : Z :=
  match l with
  | [] => 0
  | byte :: l' => byte + 256 * le_combine l'
  end.

(** The 24 bytes of a packed [GTransform] (no padding), on a little-endian
    target. *)
Definition gtransform_bytes (t : Tr.GTransform) : list Z :=
  le_bytes 4 (S32_16.raw_value (Tr.a t)) ++ le_bytes 4 (S32_16.raw_value (Tr.b t))
  ++ le_bytes 4 (S32_16.raw_value (Tr.c t)) ++ le_bytes 4 (S32_16.raw_value (Tr.d t))
  ++ le_bytes 4 (S32_16.raw_value (Tr.tx t)) ++ le_bytes 4 (S32_16.raw_value (Tr.ty t)).

Definition sizeof_GTransform : nat := 24.

(** [memcmp(p, q, n)]: the difference of the first pair of differing bytes
    among the first [n], or 0. *)
Fixpoint memcmp (p q : list Z) (n : nat) : Z :=
  match n, p, q with
  | S n', x :: p', y :: q' => if x =? y then memcmp p' q' n' else x - y
  | _, _, _ => 0
  end.

(** ** Evaluating transforms *)

Definition gtransform_is_identity (t : option Tr.GTransform) : bool :=
  match t with
  | None => false
  | Some t =>
      let t_c := GTransformIdentity in
      if memcmp (gtransform_bytes t) (gtransform_bytes t_c) sizeof_GTransform =? 0
      then true else false
  end.

Definition gtransform_is_only_scale (t : option Tr.GTransform) : bool :=
  match t with
  | None => false
  | Some t =>
      if (S32_16.raw_value (Tr.b t) =? S32_16.raw_value GTransformNumberZero)
         && (S32_16.raw_value (Tr.c t) =? S32_16.raw_value GTransformNumberZero)
         && (S32_16.raw_value (Tr.tx t) =? S32_16.raw_value GTransformNumberZero)
         && (S32_16.raw_value (Tr.ty t) =? S32_16.raw_value GTransformNumberZero)
      then true else false
  end.

Definition gtransform_is_only_translation (t : option Tr.GTransform) : bool :=
  match t with
  | None => false
  | Some t =>
      if (S32_16.raw_value (Tr.a t) =? S32_16.raw_value GTransformNumberOne)
         && (S32_16.raw_value (Tr.b t) =? S32_16.raw_value GTransformNumberZero)
         && (S32_16.raw_value (Tr.c t) =? S32_16.raw_value GTransformNumberZero)
         && (S32_16.raw_value (Tr.d t) =? S32_16.raw_value GTransformNumberOne)
      then true else false
  end.

Definition gtransform_is_only_scale_or_translation (t : option Tr.GTransform) : bool :=
  match t with
  | None => false
  | Some t =>
      if negb (S32_16.raw_value (Tr.b t) =? S32_16.raw_value GTransformNumberZero)
         || negb (S32_16.raw_value (Tr.c t) =? S32_16.raw_value GTransformNumberZero)
      then true else false
  end.

Definition gtransform_is_equal (t1 t2 : option Tr.GTransform) : bool :=
  match t1, t2 with
  | Some t1, Some t2 => memcmp (gtransform_bytes t1) (gtransform_bytes t2) sizeof_GTransform =? 0
  | _, _ => false
  end.

(** ** The product computed by [gtransform_concat]

    The eight products of [t1] and [t2] and the six sums, exactly as
    [gtransform_concat] computes them before it writes [t_new]. *)
Definition gtransform_mul (t1 t2 : Tr.GTransform) : Tr.GTransform :=
  let a_a := S32_16.Fixed_S32_16_mul (Tr.a t1) (Tr.a t2) in
  let b_c := S32_16.Fixed_S32_16_mul (Tr.b t1) (Tr.c t2) in
  let a_b := S32_16.Fixed_S32_16_mul (Tr.a t1) (Tr.b t2) in
  let b_d := S32_16.Fixed_S32_16_mul (Tr.b t1) (Tr.d t2) in
  let c_a := S32_16.Fixed_S32_16_mul (Tr.c t1) (Tr.a t2) in
  let d_c := S32_16.Fixed_S32_16_mul (Tr.d t1) (Tr.c t2) in
  let c_b := S32_16.Fixed_S32_16_mul (Tr.c t1) (Tr.b t2) in
  let d_d := S32_16.Fixed_S32_16_mul (Tr.d t1) (Tr.d t2) in
  let tx_a := S32_16.Fixed_S32_16_mul (Tr.tx t1) (Tr.a t2) in
  let ty_c := S32_16.Fixed_S32_16_mul (Tr.ty t1) (Tr.c t2) in
  let tx_b := S32_16.Fixed_S32_16_mul (Tr.tx t1) (Tr.b t2) in
  let ty_d := S32_16.Fixed_S32_16_mul (Tr.ty t1) (Tr.d t2) in
  {| Tr.a := S32_16.Fixed_S32_16_add a_a b_c;
     Tr.b := S32_16.Fixed_S32_16_add a_b b_d;
     Tr.c := S32_16.Fixed_S32_16_add c_a d_c;
     Tr.d := S32_16.Fixed_S32_16_add c_b d_d;
     Tr.tx := S32_16.Fixed_S32_16_add3 tx_a ty_c (Tr.tx t2);
     Tr.ty := S32_16.Fixed_S32_16_add3 tx_b ty_d (Tr.ty t2) |}.

(** The type invariant of a transform: six [int32_t] raw values. *)
Definition gtransform_wf (t : Tr.GTransform) : Prop :=
  S32_16.wf (Tr.a t) /\ S32_16.wf (Tr.b t) /\ S32_16.wf (Tr.c t)
  /\ S32_16.wf (Tr.d t) /\ S32_16.wf (Tr.tx t) /\ S32_16.wf (Tr.ty t).

Definition gtransform_wfb (t : Tr.GTransform) : bool :=
  in_rangeb 32 (S32_16.raw_value (Tr.a t)) && in_rangeb 32 (S32_16.raw_value (Tr.b t))
  && in_rangeb 32 (S32_16.raw_value (Tr.c t)) && in_rangeb 32 (S32_16.raw_value (Tr.d t))
  && in_rangeb 32 (S32_16.raw_value (Tr.tx t)) && in_rangeb 32 (S32_16.raw_value (Tr.ty t)).

Definition GTransform_eq_dec (t1 t2 : Tr.GTransform) : {t1 = t2} + {t1 <> t2}.
Proof. decide equality; decide equality; apply Z.eq_dec. Defined.

(** ** Decoding the byte image (the inverse of [gtransform_bytes]) *)

(** [n] signed 32-bit little-endian words read from a byte sequence. *)
Fixpoint le_words (n : nat) (l : list Z) : list Z :=
  match n with
  | O => []
  | S n' => wrap 32 (le_combine (firstn 4 l)) :: le_words n' (skipn 4 l)
  end.

Definition gtransform_of_bytes (l : list Z) : option Tr.GTransform :=
  match le_words 6 l with
  | [a; b; c; d; tx; ty] =>
      Some {| Tr.a := {| S32_16.raw_value := a |}; Tr.b := {| S32_16.raw_value := b |};
              Tr.c := {| S32_16.raw_value := c |}; Tr.d := {| S32_16.raw_value := d |};
              Tr.tx := {| S32_16.raw_value := tx |}; Tr.ty := {| S32_16.raw_value := ty |} |}
  | _ => None
  end.

Definition opt_wf (t : option Tr.GTransform) : Prop :=
  match t with None => True | Some t => gtransform_wf t end.

(** ** The exact product (the abstract specification of [gtransform_mul])

    A transform whose coefficients are exact integers in units of 2^-32
    (the linear part) and 2^-32 (the translation, with [t2.tx] scaled by
    2^16): the product of the real matrices the two 16.16 transforms denote,
    without rounding. *)
Record Affine := { ea : Z; eb : Z; ec : Z; ed : Z; etx : Z; ety : Z }.

Definition affine_mul (t1 t2 : Tr.GTransform) : Affine :=
  let r := S32_16.raw_value in
  {| ea := r (Tr.a t1) * r (Tr.a t2) + r (Tr.b t1) * r (Tr.c t2);
     eb := r (Tr.a t1) * r (Tr.b t2) + r (Tr.b t1) * r (Tr.d t2);
     ec := r (Tr.c t1) * r (Tr.a t2) + r (Tr.d t1) * r (Tr.c t2);
     ed := r (Tr.c t1) * r (Tr.b t2) + r (Tr.d t1) * r (Tr.d t2);
     etx := r (Tr.tx t1) * r (Tr.a t2) + r (Tr.ty t1) * r (Tr.c t2) + r (Tr.tx t2) * 65536;
     ety := r (Tr.tx t1) * r (Tr.b t2) + r (Tr.ty t1) * r (Tr.d t2) + r (Tr.ty t2) * 65536 |}.

(** The exact product of three transforms, [(t1 * t2) * t3], on the raw
    values: its linear coefficients are in units of 2^-48, as is its
    translation ([tx3] scaled by 2^32). *)
Definition affine_mul3 (t1 t2 t3 : Tr.GTransform) : Affine :=
  let e := affine_mul t1 t2 in
  let r := S32_16.raw_value in
  {| ea := ea e * r (Tr.a t3) + eb e * r (Tr.c t3);
     eb := ea e * r (Tr.b t3) + eb e * r (Tr.d t3);
     ec := ec e * r (Tr.a t3) + ed e * r (Tr.c t3);
     ed := ec e * r (Tr.b t3) + ed e * r (Tr.d t3);
     etx := etx e * r (Tr.a t3) + ety e * r (Tr.c t3) + r (Tr.tx t3) * 2 ^ 32;
     ety := etx e * r (Tr.b t3) + ety e * r (Tr.d t3) + r (Tr.ty t3) * 2 ^ 32 |}.

(** No intermediate result of [gtransform_mul t1 t2] leaves [int32_t]:
    each rounded product and each partial sum is in range. *)
Definition sum_fits (p q : Z) (e : Z) : bool :=
  in_rangeb 32 (p >> 16) && in_rangeb 32 (q >> 16) && in_rangeb 32 ((p >> 16) + (q >> 16))
  && in_rangeb 32 ((p >> 16) + (q >> 16) + e).

Definition gtransform_mul_fits (t1 t2 : Tr.GTransform) : bool :=
  let r := S32_16.raw_value in
  sum_fits (r (Tr.a t1) * r (Tr.a t2)) (r (Tr.b t1) * r (Tr.c t2)) 0
  && sum_fits (r (Tr.a t1) * r (Tr.b t2)) (r (Tr.b t1) * r (Tr.d t2)) 0
  && sum_fits (r (Tr.c t1) * r (Tr.a t2)) (r (Tr.d t1) * r (Tr.c t2)) 0
  && sum_fits (r (Tr.c t1) * r (Tr.b t2)) (r (Tr.d t1) * r (Tr.d t2)) 0
  && sum_fits (r (Tr.tx t1) * r (Tr.a t2)) (r (Tr.ty t1) * r (Tr.c t2)) (r (Tr.tx t2))
  && sum_fits (r (Tr.tx t1) * r (Tr.b t2)) (r (Tr.ty t1) * r (Tr.d t2)) (r (Tr.ty t2)).

(** [r] approximates the exact [e] from below by less than two units. *)
Definition within2 (r e : Z) : Prop := r * 65536 <= e < r * 65536 + 2 * 65536.

(** ** Bytes and [memcmp] *)

Lemma length_le_bytes (n : nat) (z : Z) : length (le_bytes n z) = n.
Proof. revert z; induction n; intros z; simpl; [reflexivity | rewrite IHn; reflexivity]. Qed.

(** Encoding then decoding [n] bytes keeps the value modulo [2^(8n)]. *)
Lemma le_combine_bytes (n : nat) (z : Z) :
  le_combine (le_bytes n z) = z mod 2 ^ (8 * Z.of_nat n).
Proof.
  revert z; induction n as [| n IH]; intros z; [simpl; rewrite Z.mod_1_r; reflexivity |].
  cbn [le_bytes le_combine]. rewrite IH.
  replace (8 * Z.of_nat (S n)) with (8 + 8 * Z.of_nat n) by lia.
  rewrite Z.pow_add_r, Z.rem_mul_r by lia.
  change (Z.ones 8) with 255.
  rewrite Z.shiftr_div_pow2 by lia.
  change 255 with (Z.ones 8). rewrite Z.land_ones by lia. reflexivity.
Qed.

Lemma firstn_skipn_length {A : Type} (l1 l2 : list A) :
  firstn (length l1) (l1 ++ l2) = l1 /\ skipn (length l1) (l1 ++ l2) = l2.
Proof.
  induction l1 as [| x l1 [F S]]; simpl; [split; reflexivity | rewrite F, S; split; reflexivity].
Qed.

Lemma le_words_app (n : nat) (z : Z) (rest : list Z) :
  le_words (S n) (le_bytes 4 z ++ rest) = wrap 32 z :: le_words n rest.
Proof.
  cbn [le_words].
  destruct (firstn_skipn_length (le_bytes 4 z) rest) as [F S].
  rewrite length_le_bytes in F, S. rewrite F, S, le_combine_bytes.
  f_equal. apply wrap_congr; [lia |]. exists (- (z / 2 ^ 32)).
  change (8 * Z.of_nat 4) with 32. rewrite Z.mod_eq by (cint_consts; lia). lia.
Qed.

(** Decoding the byte image. *)
Lemma gtransform_of_bytes_bytes (t : Tr.GTransform) :
  gtransform_wf t -> gtransform_of_bytes (gtransform_bytes t) = Some t.
Proof.
  intros (Ha & Hb & Hc & Hd & Htx & Hty). unfold gtransform_of_bytes, gtransform_bytes.
  rewrite !le_words_app. rewrite <- (app_nil_r (le_bytes 4 _)), le_words_app.
  cbn [le_words].
  rewrite !wrap_small by (lia || assumption).
  destruct t as [[] [] [] [] [] []]; reflexivity.
Qed.

Lemma length_gtransform_bytes (t : Tr.GTransform) :
  length (gtransform_bytes t) = sizeof_GTransform.
Proof. unfold gtransform_bytes. rewrite !length_app, !length_le_bytes. reflexivity. Qed.

(** [memcmp] over the whole of two sequences of the same length is 0
    exactly when they are equal. *)
Lemma memcmp_zero_iff (p q : list Z) :
  length p = length q -> memcmp p q (length p) = 0 <-> p = q.
Proof.
  revert q; induction p as [| x p IH]; intros [| y q] Hl; simpl in *; try discriminate.
  - split; reflexivity.
  - destruct (Z.eqb_spec x y) as [-> | Hne].
    + rewrite IH by lia. split; [intros -> | intros H; injection H]; auto.
    + split; [lia | intros H; injection H; lia].
Qed.

Lemma gtransform_bytes_inj (t1 t2 : Tr.GTransform) :
  gtransform_wf t1 -> gtransform_wf t2 -> gtransform_bytes t1 = gtransform_bytes t2 -> t1 = t2.
Proof.
  intros H1 H2 E. apply gtransform_of_bytes_bytes in H1, H2.
  rewrite E, H2 in H1. injection H1; auto.
Qed.

(** [memcmp] of two byte images is 0 exactly when the transforms are equal. *)
Lemma memcmp_gtransform_zero (t1 t2 : Tr.GTransform) :
  gtransform_wf t1 -> gtransform_wf t2 ->
  (memcmp (gtransform_bytes t1) (gtransform_bytes t2) sizeof_GTransform =? 0) = true <-> t1 = t2.
Proof.
  intros H1 H2. rewrite Z.eqb_eq, <- (length_gtransform_bytes t1), memcmp_zero_iff
    by (rewrite !length_gtransform_bytes; reflexivity).
  split; [apply gtransform_bytes_inj; assumption | intros ->; reflexivity].
Qed.

(** ** Validity *)

Ltac split_wf := unfold gtransform_wf; refine (conj _ (conj _ (conj _ (conj _ (conj _ _))))).

(** The boolean check of the invariant decides it. *)
Lemma gtransform_wfb_spec (t : Tr.GTransform) : reflect (gtransform_wf t) (gtransform_wfb t).
Proof.
  apply iff_reflect. unfold gtransform_wfb, gtransform_wf, S32_16.wf.
  rewrite !andb_true_iff.
  repeat rewrite <- (reflect_iff _ _ (in_rangeb_spec _ _)). tauto.
Qed.

Lemma GTransformIdentity_wf : gtransform_wf GTransformIdentity.
Proof. split_wf; range_by_eval. Qed.

Lemma gtransform_mul_wf (t1 t2 : Tr.GTransform) : gtransform_wf (gtransform_mul t1 t2).
Proof. split_wf; cbn [gtransform_mul Tr.a Tr.b Tr.c Tr.d Tr.tx Tr.ty]; auto with cint. Qed.

(** Every [GTransformNumber] the macros build is an [int32_t]. *)
Lemma GTransformNumberFromNumber_wf (x : Z) : S32_16.wf (GTransformNumberFromNumber x).
Proof. apply wrap_range. lia. Qed.

Lemma GTransformNumberFromQ_wf (q : Q) : S32_16.wf (GTransformNumberFromQ q).
Proof. apply wrap_range. lia. Qed.

Lemma GTransformNumberZero_wf : S32_16.wf GTransformNumberZero.
Proof. range_by_eval. Qed.

Lemma GTransformNumberOne_wf : S32_16.wf GTransformNumberOne.
Proof. range_by_eval. Qed.

#[export] Hint Resolve GTransformNumberFromNumber_wf GTransformNumberFromQ_wf
  GTransformNumberZero_wf GTransformNumberOne_wf : cint.

Lemma GTransformScale_wf (sx sy : GTransformNumber) :
  S32_16.wf sx -> S32_16.wf sy -> gtransform_wf (GTransformScale sx sy).
Proof. intros Hx Hy. split_wf; cbn [GTransformScale Tr.a Tr.b Tr.c Tr.d Tr.tx Tr.ty]; auto with cint. Qed.

Lemma GTransformTranslation_wf (tx ty : GTransformNumber) :
  S32_16.wf tx -> S32_16.wf ty -> gtransform_wf (GTransformTranslation tx ty).
Proof.
  intros Hx Hy. split_wf; cbn [GTransformTranslation Tr.a Tr.b Tr.c Tr.d Tr.tx Tr.ty]; auto with cint.
Qed.

Lemma GTransformFromNumbers_wf (a b c d tx ty : Z) :
  gtransform_wf (GTransformFromNumbers a b c d tx ty).
Proof. split_wf; cbn [GTransformFromNumbers mk_GTransform Tr.a Tr.b Tr.c Tr.d Tr.tx Tr.ty]; auto with cint. Qed.

#[export] Hint Resolve GTransformIdentity_wf gtransform_mul_wf GTransformScale_wf
  GTransformTranslation_wf GTransformFromNumbers_wf : cint.

(** ** The identity laws of the product *)

(** Multiplying by the identity on the left. *)
Lemma mul_identity_l (t : Tr.GTransform) :
  gtransform_wf t -> gtransform_mul GTransformIdentity t = t.
Proof.
  destruct t as [ta tb tc td ttx tty]. intros (Ha & Hb & Hc & Hd & Htx & Hty).
  unfold gtransform_mul; cbn [Tr.a Tr.b Tr.c Tr.d Tr.tx Tr.ty GTransformIdentity].
  autorewrite with fx_rw. reflexivity.
Qed.

(** C3: the identity transform is a left unit of [gtransform_mul], bit for
    bit: multiplying by one and adding zeros is exact in 16.16. *)
Theorem gtransform_mul_identity_l (t : Tr.GTransform) :
  gtransform_wf t -> gtransform_mul GTransformIdentity t = t.
Proof. apply mul_identity_l. Qed.

(** C4: the identity transform is a right unit of [gtransform_mul], bit
    for bit. *)
Theorem gtransform_mul_identity_r (t : Tr.GTransform) :
  gtransform_wf t -> gtransform_mul t GTransformIdentity = t.
Proof.
  destruct t as [ta tb tc td ttx tty]. intros (Ha & Hb & Hc & Hd & Htx & Hty).
  unfold gtransform_mul; cbn [Tr.a Tr.b Tr.c Tr.d Tr.tx Tr.ty GTransformIdentity].
  autorewrite with fx_rw. reflexivity.
Qed.

Lemma gtransform_mul_identity_l_witness :
  gtransform_mul GTransformIdentity (GTransformScaleFromNumber 2 3) = GTransformScaleFromNumber 2 3.
Proof. apply gtransform_mul_identity_l; split_wf; range_by_eval. Defined.

Lemma gtransform_mul_identity_r_witness :
  gtransform_mul (GTransformScaleFromNumber 2 3) GTransformIdentity = GTransformScaleFromNumber 2 3.
Proof. apply gtransform_mul_identity_r; split_wf; range_by_eval. Defined.

(** The product is not commutative: scaling by 2 then translating by
    10 (row vectors: [Scale * Translation]) moves the origin to 10, the
    other order to 20. *)
Example gtransform_mul_not_commutative :
  gtransform_mul (GTransformScaleFromNumber 2 2) (GTransformTranslationFromNumber 10 0)
  <> gtransform_mul (GTransformTranslationFromNumber 10 0) (GTransformScaleFromNumber 2 2)
  /\ S32_16.raw_value
       (Tr.tx (gtransform_mul (GTransformScaleFromNumber 2 2) (GTransformTranslationFromNumber 10 0)))
     = 10 * 65536
  /\ S32_16.raw_value
       (Tr.tx (gtransform_mul (GTransformTranslationFromNumber 10 0) (GTransformScaleFromNumber 2 2)))
     = 20 * 65536.
Proof. vm_compute. split; [discriminate | split; reflexivity]. Qed.

(** ** The predicates *)

(** C16: [gtransform_is_equal] holds exactly for two non-NULL pointers to
    equal transforms: comparing the 24 bytes of the packed structs with
    [memcmp] is comparing the six coefficients. *)
Theorem gtransform_is_equal_spec (t1 t2 : option Tr.GTransform) :
  opt_wf t1 -> opt_wf t2 ->
  gtransform_is_equal t1 t2 = true <-> t1 <> None /\ t1 = t2.
Proof.
  destruct t1 as [t1 |], t2 as [t2 |]; cbn [opt_wf gtransform_is_equal]; intros H1 H2.
  - rewrite memcmp_gtransform_zero by assumption.
    split; [intros ->; split; congruence | intros [_ E]; injection E; auto].
  - split; [discriminate | intros [_ E]; discriminate].
  - split; [discriminate | intros [E _]; contradiction].
  - split; [discriminate | intros [E _]; contradiction].
Qed.

Lemma gtransform_is_equal_witness :
  gtransform_is_equal (Some GTransformIdentity) (Some (GTransformTranslationFromNumber 0 0)) = true.
Proof.
  apply (gtransform_is_equal_spec (Some GTransformIdentity) (Some (GTransformTranslationFromNumber 0 0)));
    [split_wf; range_by_eval | split_wf; range_by_eval |].
  split; [discriminate | vm_compute; reflexivity].
Defined.

(** C17: [gtransform_is_identity] holds exactly for a non-NULL pointer to
    the identity transform. *)
Theorem gtransform_is_identity_spec (t : option Tr.GTransform) :
  opt_wf t -> gtransform_is_identity t = true <-> t = Some GTransformIdentity.
Proof.
  destruct t as [t |]; cbn [opt_wf gtransform_is_identity]; intros H.
  - destruct (memcmp (gtransform_bytes t) (gtransform_bytes GTransformIdentity) sizeof_GTransform =? 0)
      eqn:E.
    + apply memcmp_gtransform_zero in E; [| assumption | apply GTransformIdentity_wf].
      subst. split; reflexivity.
    + split; [discriminate | intros F; injection F; intros ->].
      rewrite <- E. apply memcmp_gtransform_zero; [assumption | apply GTransformIdentity_wf | reflexivity].
  - split; discriminate.
Qed.

Lemma gtransform_is_identity_witness :
  gtransform_is_identity (Some (GTransformScaleFromNumber 1 1)) = true.
Proof.
  apply (gtransform_is_identity_spec (Some (GTransformScaleFromNumber 1 1))); [split_wf; range_by_eval |].
  vm_compute. reflexivity.
Defined.

(** The two fast-path predicates on a non-NULL pointer, field by field. *)
Lemma only_scale_fields (m : Tr.GTransform) :
  gtransform_is_only_scale (Some m) = true <->
  S32_16.raw_value (Tr.b m) = 0 /\ S32_16.raw_value (Tr.c m) = 0
  /\ S32_16.raw_value (Tr.tx m) = 0 /\ S32_16.raw_value (Tr.ty m) = 0.
Proof.
  cbn [gtransform_is_only_scale]. change (S32_16.raw_value GTransformNumberZero) with 0.
  destruct ((_ =? 0) && (_ =? 0) && (_ =? 0) && (_ =? 0)) eqn:E;
    rewrite ?andb_true_iff, ?andb_false_iff, ?Z.eqb_eq, ?Z.eqb_neq in E; intuition congruence.
Qed.

Lemma only_translation_fields (m : Tr.GTransform) :
  gtransform_is_only_translation (Some m) = true <->
  S32_16.raw_value (Tr.a m) = 65536 /\ S32_16.raw_value (Tr.b m) = 0
  /\ S32_16.raw_value (Tr.c m) = 0 /\ S32_16.raw_value (Tr.d m) = 65536.
Proof.
  cbn [gtransform_is_only_translation]. change (S32_16.raw_value GTransformNumberZero) with 0.
  change (S32_16.raw_value GTransformNumberOne) with 65536.
  destruct ((_ =? 65536) && (_ =? 0) && (_ =? 0) && (_ =? 65536)) eqn:E;
    rewrite ?andb_true_iff, ?andb_false_iff, ?Z.eqb_eq, ?Z.eqb_neq in E; intuition congruence.
Qed.

(** C18: [gtransform_is_only_scale] holds exactly for a non-NULL pointer to
    a transform whose [b], [c], [tx] and [ty] are zero ([a] and [d] are
    free). *)
Theorem gtransform_is_only_scale_spec (t : option Tr.GTransform) :
  gtransform_is_only_scale t = true <->
  exists m, t = Some m /\ S32_16.raw_value (Tr.b m) = 0 /\ S32_16.raw_value (Tr.c m) = 0
            /\ S32_16.raw_value (Tr.tx m) = 0 /\ S32_16.raw_value (Tr.ty m) = 0.
Proof.
  destruct t as [m |].
  - rewrite only_scale_fields.
    split; [intros H; exists m; auto | intros (m' & Em & H); injection Em as <-; exact H].
  - split; [discriminate | intros (m' & Em & _); discriminate].
Qed.

(** [gtransform_is_only_translation] holds exactly for a non-NULL
    pointer to a transform whose linear part is the identity ([tx] and [ty]
    are free). *)
Theorem gtransform_is_only_translation_spec (t : option Tr.GTransform) :
  gtransform_is_only_translation t = true <->
  exists m, t = Some m /\ S32_16.raw_value (Tr.a m) = 65536 /\ S32_16.raw_value (Tr.b m) = 0
            /\ S32_16.raw_value (Tr.c m) = 0 /\ S32_16.raw_value (Tr.d m) = 65536.
Proof.
  destruct t as [m |].
  - rewrite only_translation_fields.
    split; [intros H; exists m; auto | intros (m' & Em & H); injection Em as <-; exact H].
  - split; [discriminate | intros (m' & Em & _); discriminate].
Qed.

(** C19: despite its name and its header comment ("has coefficients b and
    c set to 0"), [gtransform_is_only_scale_or_translation] holds exactly
    when [b] or [c] is NOT zero: it detects a rotation or shear. *)
Theorem gtransform_is_only_scale_or_translation_spec (t : option Tr.GTransform) :
  gtransform_is_only_scale_or_translation t = true <->
  exists m, t = Some m /\ (S32_16.raw_value (Tr.b m) <> 0 \/ S32_16.raw_value (Tr.c m) <> 0).
Proof.
  destruct t as [m |]; cbn [gtransform_is_only_scale_or_translation].
  - change (S32_16.raw_value GTransformNumberZero) with 0.
    destruct (negb (_ =? 0) || negb (_ =? 0)) eqn:E;
      rewrite ?orb_true_iff, ?orb_false_iff, ?negb_true_iff, ?negb_false_iff,
        ?Z.eqb_eq, ?Z.eqb_neq in E.
    + split; [intros _; exists m; intuition | reflexivity].
    + split; [discriminate | intros (m' & Em & H); injection Em as <-; intuition].
  - split; [discriminate | intros (m' & Em & _); discriminate].
Qed.

(** ** Multiplying on the left by a scale or a translation *)

(** [Scale(sx, sy) * t] scales the rows of the linear part and keeps the
    translation. *)
Lemma gtransform_mul_scale_l (sx sy : GTransformNumber) (t : Tr.GTransform) :
  gtransform_wf t ->
  gtransform_mul (GTransformScale sx sy) t
  = {| Tr.a := S32_16.Fixed_S32_16_mul sx (Tr.a t); Tr.b := S32_16.Fixed_S32_16_mul sx (Tr.b t);
       Tr.c := S32_16.Fixed_S32_16_mul sy (Tr.c t); Tr.d := S32_16.Fixed_S32_16_mul sy (Tr.d t);
       Tr.tx := Tr.tx t; Tr.ty := Tr.ty t |}.
Proof.
  destruct t as [ta tb tc td ttx tty]. intros (Ha & Hb & Hc & Hd & Htx & Hty).
  unfold gtransform_mul; cbn [Tr.a Tr.b Tr.c Tr.d Tr.tx Tr.ty GTransformScale].
  autorewrite with fx_rw. reflexivity.
Qed.

(** [Translation(tx, ty) * t] keeps the linear part and moves the
    translation by [(tx, ty)] mapped through it. *)
Lemma gtransform_mul_translation_l (tx ty : GTransformNumber) (t : Tr.GTransform) :
  gtransform_wf t ->
  gtransform_mul (GTransformTranslation tx ty) t
  = {| Tr.a := Tr.a t; Tr.b := Tr.b t; Tr.c := Tr.c t; Tr.d := Tr.d t;
       Tr.tx := S32_16.Fixed_S32_16_add3 (S32_16.Fixed_S32_16_mul tx (Tr.a t))
                  (S32_16.Fixed_S32_16_mul ty (Tr.c t)) (Tr.tx t);
       Tr.ty := S32_16.Fixed_S32_16_add3 (S32_16.Fixed_S32_16_mul tx (Tr.b t))
                  (S32_16.Fixed_S32_16_mul ty (Tr.d t)) (Tr.ty t) |}.
Proof.
  destruct t as [ta tb tc td ttx tty]. intros (Ha & Hb & Hc & Hd & Htx & Hty).
  unfold gtransform_mul; cbn [Tr.a Tr.b Tr.c Tr.d Tr.tx Tr.ty GTransformTranslation].
  autorewrite with fx_rw. reflexivity.
Qed.

(** ** Rounding error of the product *)

Lemma sum_fits_spec (p q e : Z) :
  sum_fits p q e = true ->
  in_range 32 (p >> 16) /\ in_range 32 (q >> 16) /\ in_range 32 ((p >> 16) + (q >> 16))
  /\ in_range 32 ((p >> 16) + (q >> 16) + e).
Proof.
  unfold sum_fits. rewrite !andb_true_iff. intros [[[A B] C] D].
  repeat split; apply in_range_of_b; assumption.
Qed.

(** Two rounded products, added: the error is below two units. *)
Lemma add_mul_error (x y z w : GTransformNumber) (e : Z) :
  S32_16.wf x -> S32_16.wf y -> S32_16.wf z -> S32_16.wf w ->
  let p := S32_16.raw_value x * S32_16.raw_value y in
  let q := S32_16.raw_value z * S32_16.raw_value w in
  sum_fits p q e = true ->
  S32_16.raw_value (S32_16.Fixed_S32_16_add (S32_16.Fixed_S32_16_mul x y) (S32_16.Fixed_S32_16_mul z w))
    = (p >> 16) + (q >> 16)
  /\ in_range 32 ((p >> 16) + (q >> 16) + e).
Proof.
  intros Hx Hy Hz Hw p q Hf. apply sum_fits_spec in Hf as (Hp & Hq & Hpq & He).
  split; [| exact He].
  cbn [S32_16.Fixed_S32_16_add S32_16.mk_Fixed_S32_16 S32_16.raw_value].
  rewrite !Fixed_S32_16_mul_raw, !(wrap_small 32 (_ >> 16)) by (auto; lia).
  apply wrap_small; [lia | exact Hpq].
Qed.

(** The rounding error of one product. *)
Lemma mul_error (t1 t2 : Tr.GTransform) :
  gtransform_wf t1 -> gtransform_wf t2 -> gtransform_mul_fits t1 t2 = true ->
  let m := gtransform_mul t1 t2 in let e := affine_mul t1 t2 in
  within2 (S32_16.raw_value (Tr.a m)) (ea e) /\ within2 (S32_16.raw_value (Tr.b m)) (eb e)
  /\ within2 (S32_16.raw_value (Tr.c m)) (ec e) /\ within2 (S32_16.raw_value (Tr.d m)) (ed e)
  /\ within2 (S32_16.raw_value (Tr.tx m)) (etx e) /\ within2 (S32_16.raw_value (Tr.ty m)) (ety e).
Proof.
  intros (A1 & B1 & C1 & D1 & X1 & Y1) (A2 & B2 & C2 & D2 & X2 & Y2) Hf.
  unfold gtransform_mul_fits in Hf. rewrite !andb_true_iff in Hf.
  destruct Hf as [[[[[Fa Fb] Fc] Fd] Ftx] Fty].
  cbv zeta. unfold within2, affine_mul, gtransform_mul.
  cbn [Tr.a Tr.b Tr.c Tr.d Tr.tx Tr.ty ea eb ec ed etx ety].
  rewrite !Fixed_S32_16_add3_add.
  destruct (add_mul_error _ _ _ _ _ A1 A2 B1 C2 Fa) as [Ea _].
  destruct (add_mul_error _ _ _ _ _ A1 B2 B1 D2 Fb) as [Eb _].
  destruct (add_mul_error _ _ _ _ _ C1 A2 D1 C2 Fc) as [Ec _].
  destruct (add_mul_error _ _ _ _ _ C1 B2 D1 D2 Fd) as [Ed _].
  destruct (add_mul_error _ _ _ _ _ X1 A2 Y1 C2 Ftx) as [Etx Htx].
  destruct (add_mul_error _ _ _ _ _ X1 B2 Y1 D2 Fty) as [Ety Hty].
  cbn [S32_16.Fixed_S32_16_add S32_16.mk_Fixed_S32_16 S32_16.raw_value] in Etx, Ety |- *.
  cbn [S32_16.Fixed_S32_16_add S32_16.mk_Fixed_S32_16 S32_16.raw_value] in Ea, Eb, Ec, Ed.
  rewrite Ea, Eb, Ec, Ed, Etx, Ety, !(wrap_small 32) by (auto; lia).
  repeat match goal with |- context [?p >> 16] =>
    let H := fresh in pose proof (shiftr16_floor p) as H; revert H; generalize (p >> 16) end.
  intros; lia.
Qed.

(** C11: when no intermediate result overflows, every coefficient of
    [gtransform_mul t1 t2] is the exact product's coefficient rounded down,
    by less than two units of 2^-16 (one per rounded product). *)
Theorem gtransform_mul_error (t1 t2 : Tr.GTransform) :
  gtransform_wf t1 -> gtransform_wf t2 -> gtransform_mul_fits t1 t2 = true ->
  let m := gtransform_mul t1 t2 in let e := affine_mul t1 t2 in
  within2 (S32_16.raw_value (Tr.a m)) (ea e) /\ within2 (S32_16.raw_value (Tr.b m)) (eb e)
  /\ within2 (S32_16.raw_value (Tr.c m)) (ec e) /\ within2 (S32_16.raw_value (Tr.d m)) (ed e)
  /\ within2 (S32_16.raw_value (Tr.tx m)) (etx e) /\ within2 (S32_16.raw_value (Tr.ty m)) (ety e).
Proof. apply mul_error. Qed.

Lemma gtransform_mul_error_witness :
  within2 (S32_16.raw_value (Tr.a (gtransform_mul (GTransformFromNumbers 1 2 3 4 5 6)
             (mk_GTransform (GTransformNumberFromQ (1 # 3)%Q) (GTransformNumberFromQ (2 # 3)%Q)
                (GTransformNumberFromQ (5 # 7)%Q) (GTransformNumberFromQ (1 # 9)%Q)
                (GTransformNumberFromNumber 1) (GTransformNumberFromNumber 2)))))
          (ea (affine_mul (GTransformFromNumbers 1 2 3 4 5 6)
             (mk_GTransform (GTransformNumberFromQ (1 # 3)%Q) (GTransformNumberFromQ (2 # 3)%Q)
                (GTransformNumberFromQ (5 # 7)%Q) (GTransformNumberFromQ (1 # 9)%Q)
                (GTransformNumberFromNumber 1) (GTransformNumberFromNumber 2)))).
Proof.
  destruct (gtransform_mul_error (GTransformFromNumbers 1 2 3 4 5 6)
             (mk_GTransform (GTransformNumberFromQ (1 # 3)%Q) (GTransformNumberFromQ (2 # 3)%Q)
                (GTransformNumberFromQ (5 # 7)%Q) (GTransformNumberFromQ (1 # 9)%Q)
                (GTransformNumberFromNumber 1) (GTransformNumberFromNumber 2))) as [H _];
    [split_wf; range_by_eval | split_wf; range_by_eval | vm_compute; reflexivity | exact H].
Defined.

(** ** Composition of the fast-path classes *)

(** A sum of two zero raw values is zero. *)
Lemma add_raw_zero (x y : GTransformNumber) :
  S32_16.raw_value x = 0 -> S32_16.raw_value y = 0 ->
  S32_16.raw_value (S32_16.Fixed_S32_16_add x y) = 0.
Proof. intros Hx Hy. cbn. rewrite Hx, Hy. reflexivity. Qed.

(** One times one, and one plus zero, are exact. *)
Lemma mul_raw_one (x y : GTransformNumber) :
  S32_16.raw_value x = 65536 -> S32_16.raw_value y = 65536 ->
  S32_16.raw_value (S32_16.Fixed_S32_16_mul x y) = 65536.
Proof. intros Hx Hy. cbn. rewrite Hx, Hy. reflexivity. Qed.

Lemma add_raw_one (x y : GTransformNumber) :
  (S32_16.raw_value x = 65536 /\ S32_16.raw_value y = 0)
  \/ (S32_16.raw_value x = 0 /\ S32_16.raw_value y = 65536) ->
  S32_16.raw_value (S32_16.Fixed_S32_16_add x y) = 65536.
Proof. intros [[Hx Hy] | [Hx Hy]]; cbn; rewrite Hx, Hy; reflexivity. Qed.

(** C14: the two classes the fast paths test are closed under the product:
    the product of two only-scale transforms is only-scale, and the product
    of two only-translation transforms is only-translation. *)
Theorem gtransform_mul_preserves_class (t1 t2 : Tr.GTransform) :
  (gtransform_is_only_scale (Some t1) = true -> gtransform_is_only_scale (Some t2) = true ->
   gtransform_is_only_scale (Some (gtransform_mul t1 t2)) = true)
  /\ (gtransform_is_only_translation (Some t1) = true ->
      gtransform_is_only_translation (Some t2) = true ->
      gtransform_is_only_translation (Some (gtransform_mul t1 t2)) = true).
Proof.
  split; intros H1 H2.
  - apply only_scale_fields in H1 as (B1 & C1 & X1 & Y1). apply only_scale_fields in H2 as (B2 & C2 & X2 & Y2).
    apply only_scale_fields. unfold gtransform_mul. cbn [Tr.a Tr.b Tr.c Tr.d Tr.tx Tr.ty].
    rewrite !Fixed_S32_16_add3_add.
    repeat split; auto using add_raw_zero, Fixed_S32_16_mul_zero_l, Fixed_S32_16_mul_zero_r.
  - apply only_translation_fields in H1 as (A1 & B1 & C1 & D1).
    apply only_translation_fields in H2 as (A2 & B2 & C2 & D2).
    apply only_translation_fields. unfold gtransform_mul. cbn [Tr.a Tr.b Tr.c Tr.d].
    repeat split; [apply add_raw_one; left | | | apply add_raw_one; right];
      auto using add_raw_zero, mul_raw_one, Fixed_S32_16_mul_zero_l, Fixed_S32_16_mul_zero_r.
Qed.

Lemma gtransform_mul_preserves_class_witness :
  gtransform_is_only_scale (Some (gtransform_mul (GTransformScaleFromNumber 2 3)
                                                 (GTransformScaleFromNumber 4 5))) = true.
Proof.
  exact (proj1 (gtransform_mul_preserves_class (GTransformScaleFromNumber 2 3)
                  (GTransformScaleFromNumber 4 5)) eq_refl eq_refl).
Defined.

(** C15: scales compose by multiplying their factors and translations by
    adding their offsets, bit for bit, with the rounding of
    [Fixed_S32_16_mul] and the wrapping of [Fixed_S32_16_add]. *)
Theorem gtransform_mul_compose (sx1 sy1 sx2 sy2 tx1 ty1 tx2 ty2 : GTransformNumber) :
  S32_16.wf tx1 -> S32_16.wf ty1 ->
  gtransform_mul (GTransformScale sx1 sy1) (GTransformScale sx2 sy2)
    = GTransformScale (S32_16.Fixed_S32_16_mul sx1 sx2) (S32_16.Fixed_S32_16_mul sy1 sy2)
  /\ gtransform_mul (GTransformTranslation tx1 ty1) (GTransformTranslation tx2 ty2)
    = GTransformTranslation (S32_16.Fixed_S32_16_add tx1 tx2) (S32_16.Fixed_S32_16_add ty1 ty2).
Proof.
  intros Hx Hy. unfold gtransform_mul, GTransformScale, GTransformTranslation.
  cbn [Tr.a Tr.b Tr.c Tr.d Tr.tx Tr.ty].
  split; f_equal; apply S32_16_ext; autorewrite with fx_rw;
    rewrite ?Fixed_S32_16_add3_add; cbn [S32_16.Fixed_S32_16_add S32_16.mk_Fixed_S32_16 S32_16.raw_value];
    rewrite ?Fixed_S32_16_mul_zero_l, ?Fixed_S32_16_mul_zero_r by reflexivity;
    rewrite ?Z.add_0_r, ?Z.add_0_l, ?wrap_add_l by lia; reflexivity.
Qed.

Lemma gtransform_mul_compose_witness :
  S32_16.wf (GTransformNumberFromNumber 10) /\ S32_16.wf (GTransformNumberFromNumber 20)
  /\ gtransform_mul (GTransformTranslation (GTransformNumberFromNumber 10) (GTransformNumberFromNumber 20))
                    (GTransformTranslation (GTransformNumberFromNumber 1) (GTransformNumberFromNumber 2))
     = GTransformTranslationFromNumber 11 22.
Proof.
  assert (W1 : S32_16.wf (GTransformNumberFromNumber 10)) by range_by_eval.
  assert (W2 : S32_16.wf (GTransformNumberFromNumber 20)) by range_by_eval.
  refine (conj W1 (conj W2 _)).
  rewrite (proj2 (gtransform_mul_compose (GTransformNumberFromNumber 1) (GTransformNumberFromNumber 1)
                    (GTransformNumberFromNumber 1) (GTransformNumberFromNumber 1)
                    (GTransformNumberFromNumber 10) (GTransformNumberFromNumber 20)
                    (GTransformNumberFromNumber 1) (GTransformNumberFromNumber 2) W1 W2)).
  vm_compute. reflexivity.
Defined.

(** ** Error accumulation over two products *)

(** A value within two units below [e], times [x]: the error scales with
    [|x|]. *)
Lemma scaled_error (m e x : Z) :
  within2 m e -> Z.abs (m * 65536 * x - e * x) <= 2 * 65536 * Z.abs x.
Proof.
  unfold within2. intros He.
  replace (m * 65536 * x - e * x) with ((m * 65536 - e) * x) by ring.
  rewrite Z.abs_mul. apply Z.mul_le_mono_nonneg_r; lia.
Qed.

(** One coefficient of the second product: the rounding of the second
    product plus the first product's errors scaled by the third
    transform's coefficients [x] and [y]. *)
Lemma compose_error (q ma mb ea eb x y z : Z) :
  within2 ma ea -> within2 mb eb -> within2 q (ma * x + mb * y + z * 65536) ->
  Z.abs (q * 2 ^ 32 - (ea * x + eb * y + z * 2 ^ 32))
    < 2 * 2 ^ 32 + 2 * 65536 * (Z.abs x + Z.abs y).
Proof.
  intros Ha Hb Hq. pose proof (scaled_error _ _ x Ha). pose proof (scaled_error _ _ y Hb).
  unfold within2 in Hq. change (2 ^ 32) with (65536 * 65536). lia.
Qed.

Lemma compose_error0 (q ma mb ea eb x y : Z) :
  within2 ma ea -> within2 mb eb -> within2 q (ma * x + mb * y) ->
  Z.abs (q * 2 ^ 32 - (ea * x + eb * y)) < 2 * 2 ^ 32 + 2 * 65536 * (Z.abs x + Z.abs y).
Proof.
  intros Ha Hb Hq. pose proof (compose_error q ma mb ea eb x y 0 Ha Hb) as H.
  rewrite !Z.mul_0_l, !Z.add_0_r in H. exact (H Hq).
Qed.

(** The error of [(t1 * t2) * t3] for any [m] and [q] that round the two
    products as [gtransform_mul] does. *)
Lemma mul3_error_of (t1 t2 t3 m q : Tr.GTransform) :
  let r := S32_16.raw_value in
  let e12 := affine_mul t1 t2 in let e := affine_mul m t3 in
  within2 (r (Tr.a m)) (ea e12) -> within2 (r (Tr.b m)) (eb e12) ->
  within2 (r (Tr.c m)) (ec e12) -> within2 (r (Tr.d m)) (ed e12) ->
  within2 (r (Tr.tx m)) (etx e12) -> within2 (r (Tr.ty m)) (ety e12) ->
  within2 (r (Tr.a q)) (ea e) -> within2 (r (Tr.b q)) (eb e) ->
  within2 (r (Tr.c q)) (ec e) -> within2 (r (Tr.d q)) (ed e) ->
  within2 (r (Tr.tx q)) (etx e) -> within2 (r (Tr.ty q)) (ety e) ->
  let e3 := affine_mul3 t1 t2 t3 in
  let k1 := 2 * 2 ^ 32 + 2 * 65536 * (Z.abs (r (Tr.a t3)) + Z.abs (r (Tr.c t3))) in
  let k2 := 2 * 2 ^ 32 + 2 * 65536 * (Z.abs (r (Tr.b t3)) + Z.abs (r (Tr.d t3))) in
  Z.abs (r (Tr.a q) * 2 ^ 32 - ea e3) < k1 /\ Z.abs (r (Tr.b q) * 2 ^ 32 - eb e3) < k2
  /\ Z.abs (r (Tr.c q) * 2 ^ 32 - ec e3) < k1 /\ Z.abs (r (Tr.d q) * 2 ^ 32 - ed e3) < k2
  /\ Z.abs (r (Tr.tx q) * 2 ^ 32 - etx e3) < k1 /\ Z.abs (r (Tr.ty q) * 2 ^ 32 - ety e3) < k2.
Proof.
  cbv zeta. cbn [affine_mul3 affine_mul ea eb ec ed etx ety].
  intros Ma Mb Mc Md Mtx Mty Qa Qb Qc Qd Qtx Qty.
  refine (conj (compose_error0 _ _ _ _ _ _ _ Ma Mb Qa)
         (conj (compose_error0 _ _ _ _ _ _ _ Ma Mb Qb)
         (conj (compose_error0 _ _ _ _ _ _ _ Mc Md Qc)
         (conj (compose_error0 _ _ _ _ _ _ _ Mc Md Qd)
         (conj (compose_error _ _ _ _ _ _ _ _ Mtx Mty Qtx)
               (compose_error _ _ _ _ _ _ _ _ Mtx Mty Qty)))))).
Qed.

(** C12: concatenating three transforms accumulates a bounded error.  When
    neither product overflows, each coefficient of
    [(t1 * t2) * t3] is within [2 + 2 (|x| + |y|)] units of 2^-16 of the
    exact product, where [x] and [y] are the coefficients of [t3] that
    multiply the coefficient's row ([a], [c] for the first column, [b],
    [d] for the second): the first product's rounding is scaled by [t3],
    the second adds its own.  For rotations and other transforms with
    coefficients at most one, the error stays below six units. *)
Theorem gtransform_mul3_error (t1 t2 t3 : Tr.GTransform) :
  gtransform_wf t1 -> gtransform_wf t2 -> gtransform_wf t3 ->
  gtransform_mul_fits t1 t2 = true -> gtransform_mul_fits (gtransform_mul t1 t2) t3 = true ->
  let q := gtransform_mul (gtransform_mul t1 t2) t3 in
  let e := affine_mul3 t1 t2 t3 in
  let r := S32_16.raw_value in
  let k1 := 2 * 2 ^ 32 + 2 * 65536 * (Z.abs (r (Tr.a t3)) + Z.abs (r (Tr.c t3))) in
  let k2 := 2 * 2 ^ 32 + 2 * 65536 * (Z.abs (r (Tr.b t3)) + Z.abs (r (Tr.d t3))) in
  Z.abs (r (Tr.a q) * 2 ^ 32 - ea e) < k1 /\ Z.abs (r (Tr.b q) * 2 ^ 32 - eb e) < k2
  /\ Z.abs (r (Tr.c q) * 2 ^ 32 - ec e) < k1 /\ Z.abs (r (Tr.d q) * 2 ^ 32 - ed e) < k2
  /\ Z.abs (r (Tr.tx q) * 2 ^ 32 - etx e) < k1 /\ Z.abs (r (Tr.ty q) * 2 ^ 32 - ety e) < k2.
Proof.
  intros W1 W2 W3 F12 F3.
  destruct (mul_error t1 t2 W1 W2 F12) as (Ma & Mb & Mc & Md & Mtx & Mty).
  destruct (mul_error _ t3 (gtransform_mul_wf t1 t2) W3 F3) as (Qa & Qb & Qc & Qd & Qtx & Qty).
  exact (mul3_error_of t1 t2 t3 _ _ Ma Mb Mc Md Mtx Mty Qa Qb Qc Qd Qtx Qty).
Qed.

Lemma gtransform_mul3_error_witness :
  let third := GTransformScale (GTransformNumberFromQ (1 # 3)) (GTransformNumberFromQ (1 # 3)) in
  gtransform_wf third /\ gtransform_mul_fits third third = true
  /\ gtransform_mul_fits (gtransform_mul third third) third = true
  /\ Z.abs (S32_16.raw_value (Tr.a (gtransform_mul (gtransform_mul third third) third)) * 2 ^ 32
            - ea (affine_mul3 third third third))
     < 2 * 2 ^ 32 + 2 * 65536 * (Z.abs 21845 + Z.abs 0).
Proof.
  intros third.
  assert (W : gtransform_wf third) by (split_wf; range_by_eval).
  assert (F1 : gtransform_mul_fits third third = true) by (vm_compute; reflexivity).
  assert (F2 : gtransform_mul_fits (gtransform_mul third third) third = true) by (vm_compute; reflexivity).
  refine (conj W (conj F1 (conj F2 _))).
  exact (proj1 (gtransform_mul3_error third third third W W W F1 F2)).
Defined.
