(* ===== verification/Rotation.v ===== *)
(** * Rotation: [gtransform_init_rotation] of [src/gtransform.c]

    The rotation constructor reads the Pebble SDK's trigonometric tables
    [cos_lookup] and [sin_lookup], which are not part of this repository.
    The class [TrigLookup] states what the constructor relies on from them:
    two functions of the angle whose values lie in
    [[-TRIG_MAX_RATIO, TRIG_MAX_RATIO]].  [gtransform_init_rotation] is
    defined in a section over an instance, so that every theorem holds for
    any table with that range.  [QuarterTurnLookup] is a small instance,
    exact at the quarter turns, used only to evaluate examples. *)

From Stdlib Require Import ZArith Lia Bool.
From S2P Require Import Prelude MathFixed Transform.
Open Scope Z_scope.

(** The SDK's constants [TRIG_MAX_RATIO] (0xffff) and [TRIG_MAX_ANGLE]
    (0x10000, a full turn). *)
Definition TRIG_MAX_RATIO : Z := 65535.
Definition TRIG_MAX_ANGLE : Z := 65536.

Class TrigLookup := {
  cos_lookup : Z -> Z;
  sin_lookup : Z -> Z;
  cos_lookup_range : forall angle, - TRIG_MAX_RATIO <= cos_lookup angle <= TRIG_MAX_RATIO;
  sin_lookup_range : forall angle, - TRIG_MAX_RATIO <= sin_lookup angle <= TRIG_MAX_RATIO
}.

Section Rotation.
Context `{TrigLookup}.

(** The lookups return [int32_t]; the products are computed in
    [int64_t] (they cannot overflow), the division by [TRIG_MAX_RATIO]
    truncates toward zero, and the assignment to [raw_value] narrows to
    [int32_t]. *)
Definition gtransform_init_rotation (angle : Z) : Tr.GTransform :=
  if negb (angle =? 0) then
    let cosine := cos_lookup angle in
    let sine := sin_lookup angle in
    let cosine_val := Z.quot (cosine * S32_16.raw_value GTransformNumberOne) TRIG_MAX_RATIO in
    let sine_val := Z.quot (sine * S32_16.raw_value GTransformNumberOne) TRIG_MAX_RATIO in
    let a : GTransformNumber := {| S32_16.raw_value := wrap 32 cosine_val |} in
    let b : GTransformNumber := {| S32_16.raw_value := wrap 32 (- sine_val) |} in
    let c : GTransformNumber := {| S32_16.raw_value := wrap 32 sine_val |} in
    let d : GTransformNumber := {| S32_16.raw_value := wrap 32 cosine_val |} in
    mk_GTransform a b c d GTransformNumberZero GTransformNumberZero
  else GTransformIdentity.

(** The macro [GTransformRotation(angle)]. *)
Definition GTransformRotation (angle : Z) : Tr.GTransform := gtransform_init_rotation angle.
End Rotation.

(** A table exact at the four quarter turns and zero elsewhere. *)
Definition quarter_cos (angle : Z) : Z :=
  let r := angle mod TRIG_MAX_ANGLE in
  if r =? 0 then TRIG_MAX_RATIO else if r =? 32768 then - TRIG_MAX_RATIO else 0.

Definition quarter_sin (angle : Z) : Z :=
  let r := angle mod TRIG_MAX_ANGLE in
  if r =? 16384 then TRIG_MAX_RATIO else if r =? 49152 then - TRIG_MAX_RATIO else 0.

#[export] Program Instance QuarterTurnLookup : TrigLookup := {
  cos_lookup := quarter_cos; sin_lookup := quarter_sin }.
Next Obligation.
  unfold quarter_cos, TRIG_MAX_RATIO. destruct (_ =? 0); [lia |]. destruct (_ =? 32768); lia.
Qed.
Next Obligation.
  unfold quarter_sin, TRIG_MAX_RATIO. destruct (_ =? 16384); [lia |]. destruct (_ =? 49152); lia.
Qed.

(** ** Facts *)

(** Rescaling a table value to 16.16 stays within one. *)
Lemma rescale_bound (v : Z) :
  - TRIG_MAX_RATIO <= v <= TRIG_MAX_RATIO ->
  -65536 <= Z.quot (v * 65536) TRIG_MAX_RATIO <= 65536.
Proof. unfold TRIG_MAX_RATIO. intros Hv. Z.quot_rem_to_equations. lia. Qed.

Lemma rescale_wrap (v : Z) :
  - TRIG_MAX_RATIO <= v <= TRIG_MAX_RATIO ->
  wrap 32 (Z.quot (v * 65536) TRIG_MAX_RATIO) = Z.quot (v * 65536) TRIG_MAX_RATIO
  /\ wrap 32 (- Z.quot (v * 65536) TRIG_MAX_RATIO) = - Z.quot (v * 65536) TRIG_MAX_RATIO.
Proof.
  intros Hv. pose proof (rescale_bound v Hv).
  split; apply wrap_small; unfold in_range; cint_consts; lia.
Qed.

Section RotationFacts.
Context `{TrigLookup}.

(** A rotation matrix holds six [int32_t] values, whatever the table. *)
Lemma gtransform_init_rotation_wf (angle : Z) : gtransform_wf (gtransform_init_rotation angle).
Proof.
  unfold gtransform_init_rotation. destruct (negb _); [| auto with cint].
  split_wf; cbn [mk_GTransform Tr.a Tr.b Tr.c Tr.d Tr.tx Tr.ty];
    first [apply mk_Fixed_S32_16_wf | auto with cint].
Qed.

(** The rotation by angle 0 is the identity, bit for bit; so is the
    rotation by any angle for which the table gives cosine
    [TRIG_MAX_RATIO] and sine 0, since [TRIG_MAX_RATIO * 65536 /
    TRIG_MAX_RATIO] is exactly one. *)
Theorem gtransform_init_rotation_identity (angle : Z) :
  angle = 0 \/ (cos_lookup angle = TRIG_MAX_RATIO /\ sin_lookup angle = 0) ->
  gtransform_init_rotation angle = GTransformIdentity.
Proof.
  unfold gtransform_init_rotation. destruct (Z.eqb_spec angle 0) as [-> | Hne]; [reflexivity |].
  intros [E | [Ec Es]]; [contradiction |]. rewrite Ec, Es. vm_compute. reflexivity.
Qed.

(** A rotation has no translation part. *)
Lemma gtransform_init_rotation_translation (angle : Z) :
  S32_16.raw_value (Tr.tx (gtransform_init_rotation angle)) = 0
  /\ S32_16.raw_value (Tr.ty (gtransform_init_rotation angle)) = 0.
Proof. unfold gtransform_init_rotation. destruct (negb _); split; reflexivity. Qed.
End RotationFacts.

Lemma gtransform_init_rotation_identity_witness :
  gtransform_init_rotation TRIG_MAX_ANGLE = GTransformIdentity.
Proof.
  apply gtransform_init_rotation_identity. right. split; vm_compute; reflexivity.
Defined.
