(* ===== verification/TransformStore.v ===== *)
(** * TransformStore: the mutators of [src/gtransform.c] at the pointer level

    [gtransform_concat], [gtransform_scale], [gtransform_translate],
    [gtransform_rotate] and [gtransform_invert] write their result through a
    pointer [t_new] that the header allows to alias their inputs.  They are
    modelled over a store of [GTransform] objects ([gmap loc GTransform]),
    in a small option-state monad: [load] reads a whole object, [store_field]
    writes one field (as [t_new->a = ...] does), [memcpy] copies an object,
    [alloca]/[free] give the local [GTransform tR] of [gtransform_rotate] an
    address of its own.  A pointer is [option loc], [None] being NULL; an
    access through a dangling pointer is undefined behaviour, the monad's
    failure.  Every read and write happens in the order of the C, so that
    the theorems about aliasing depend on that order. *)

From stdpp Require Import base gmap.
From Stdlib Require Import ZArith Lia.
From S2P Require Import Prelude MathFixed Transform Rotation.
Open Scope Z_scope.

Definition loc := positive.
Definition ptr := option loc.
Abbreviation store := (gmap loc Tr.GTransform).

(** ** The option-state monad *)

Definition M (A : Type) : Type := store -> option (A * store).

Definition ret {A : Type} (x : A) : M A := fun s => Some (x, s).

Definition bind {A B : Type} (m : M A) (k : A -> M B) : M B :=
  fun s => match m s with Some (x, s') => k x s' | None => None end.

Declare Scope store_scope.
Delimit Scope store_scope with store.
Notation "'let!' x := m 'in' k" := (bind m (fun x => k))
  (at level 10, x name, m at level 100, k at level 200) : store_scope.
Local Open Scope store_scope.

(** [*l] *)
Definition load (l : loc) : M Tr.GTransform :=
  fun s => match s !! l with Some t => Some (t, s) | None => None end.

(** [l->f] *)
Definition rd (l : loc) (f : Tr.GTransform -> GTransformNumber) : M GTransformNumber :=
  let! t := load l in ret (f t).

(** [l->f = v], written as an update of the object at [l]. *)
Definition store_field (l : loc) (upd : Tr.GTransform -> Tr.GTransform) : M unit :=
  fun s => match s !! l with Some t => Some (tt, <[l := upd t]> s) | None => None end.

Definition set_a (v : GTransformNumber) (t : Tr.GTransform) : Tr.GTransform :=
  mk_GTransform v (Tr.b t) (Tr.c t) (Tr.d t) (Tr.tx t) (Tr.ty t).
Definition set_b (v : GTransformNumber) (t : Tr.GTransform) : Tr.GTransform :=
  mk_GTransform (Tr.a t) v (Tr.c t) (Tr.d t) (Tr.tx t) (Tr.ty t).
Definition set_c (v : GTransformNumber) (t : Tr.GTransform) : Tr.GTransform :=
  mk_GTransform (Tr.a t) (Tr.b t) v (Tr.d t) (Tr.tx t) (Tr.ty t).
Definition set_d (v : GTransformNumber) (t : Tr.GTransform) : Tr.GTransform :=
  mk_GTransform (Tr.a t) (Tr.b t) (Tr.c t) v (Tr.tx t) (Tr.ty t).
Definition set_tx (v : GTransformNumber) (t : Tr.GTransform) : Tr.GTransform :=
  mk_GTransform (Tr.a t) (Tr.b t) (Tr.c t) (Tr.d t) v (Tr.ty t).
Definition set_ty (v : GTransformNumber) (t : Tr.GTransform) : Tr.GTransform :=
  mk_GTransform (Tr.a t) (Tr.b t) (Tr.c t) (Tr.d t) (Tr.tx t) v.

(** [memcpy(dst, src, sizeof(GTransform))] *)
Definition memcpy (dst src : loc) : M unit :=
  let! t := load src in store_field dst (fun _ => t).

(** A local variable: a fresh address holding [t], and its release. *)
Definition alloca (t : Tr.GTransform) : M loc :=
  fun s => let l := fresh (dom s) in Some (l, <[l := t]> s).

Definition free (l : loc) : M unit := fun s => Some (tt, delete l s).

(** ** The mutators *)

Definition gtransform_concat (t_new t1 t2 : ptr) : M unit :=
  match t_new, t1, t2 with
  | Some ln, Some l1, Some l2 =>
      let! x1 := load l1 in
      let! x2 := load l2 in
      let a_a := S32_16.Fixed_S32_16_mul (Tr.a x1) (Tr.a x2) in
      let b_c := S32_16.Fixed_S32_16_mul (Tr.b x1) (Tr.c x2) in
      let a_b := S32_16.Fixed_S32_16_mul (Tr.a x1) (Tr.b x2) in
      let b_d := S32_16.Fixed_S32_16_mul (Tr.b x1) (Tr.d x2) in
      let c_a := S32_16.Fixed_S32_16_mul (Tr.c x1) (Tr.a x2) in
      let d_c := S32_16.Fixed_S32_16_mul (Tr.d x1) (Tr.c x2) in
      let c_b := S32_16.Fixed_S32_16_mul (Tr.c x1) (Tr.b x2) in
      let d_d := S32_16.Fixed_S32_16_mul (Tr.d x1) (Tr.d x2) in
      let tx_a := S32_16.Fixed_S32_16_mul (Tr.tx x1) (Tr.a x2) in
      let ty_c := S32_16.Fixed_S32_16_mul (Tr.ty x1) (Tr.c x2) in
      let tx_b := S32_16.Fixed_S32_16_mul (Tr.tx x1) (Tr.b x2) in
      let ty_d := S32_16.Fixed_S32_16_mul (Tr.ty x1) (Tr.d x2) in
      let! _ := store_field ln (set_a (S32_16.Fixed_S32_16_add a_a b_c)) in
      let! _ := store_field ln (set_b (S32_16.Fixed_S32_16_add a_b b_d)) in
      let! _ := store_field ln (set_c (S32_16.Fixed_S32_16_add c_a d_c)) in
      let! _ := store_field ln (set_d (S32_16.Fixed_S32_16_add c_b d_d)) in
      let! t2_tx := rd l2 Tr.tx in
      let! _ := store_field ln (set_tx (S32_16.Fixed_S32_16_add3 tx_a ty_c t2_tx)) in
      let! t2_ty := rd l2 Tr.ty in
      store_field ln (set_ty (S32_16.Fixed_S32_16_add3 tx_b ty_d t2_ty))
  | _, _, _ => ret tt
  end.

Definition gtransform_scale (t_new t : ptr) (sx sy : GTransformNumber) : M unit :=
  match t_new, t with
  | Some ln, Some l =>
      let! _ := (if decide (ln = l) then ret tt else memcpy ln l) in
      let! t_a := rd l Tr.a in
      let! _ := store_field ln (set_a (S32_16.Fixed_S32_16_mul sx t_a)) in
      let! t_b := rd l Tr.b in
      let! _ := store_field ln (set_b (S32_16.Fixed_S32_16_mul sx t_b)) in
      let! t_c := rd l Tr.c in
      let! _ := store_field ln (set_c (S32_16.Fixed_S32_16_mul sy t_c)) in
      let! t_d := rd l Tr.d in
      store_field ln (set_d (S32_16.Fixed_S32_16_mul sy t_d))
  | _, _ => ret tt
  end.

Definition gtransform_translate (t_new t : ptr) (tx ty : GTransformNumber) : M unit :=
  match t_new, t with
  | Some ln, Some l =>
      let! _ := (if decide (ln = l) then ret tt else memcpy ln l) in
      let! x := load l in
      let tx_a := S32_16.Fixed_S32_16_mul tx (Tr.a x) in
      let ty_c := S32_16.Fixed_S32_16_mul ty (Tr.c x) in
      let tx_b := S32_16.Fixed_S32_16_mul tx (Tr.b x) in
      let ty_d := S32_16.Fixed_S32_16_mul ty (Tr.d x) in
      let! t_tx := rd l Tr.tx in
      let! _ := store_field ln (set_tx (S32_16.Fixed_S32_16_add3 tx_a ty_c t_tx)) in
      let! t_ty := rd l Tr.ty in
      store_field ln (set_ty (S32_16.Fixed_S32_16_add3 tx_b ty_d t_ty))
  | _, _ => ret tt
  end.

(** The macros taking native numbers. *)
Definition gtransform_scale_number (t_new t : ptr) (sx sy : Z) : M unit :=
  gtransform_scale t_new t (GTransformNumberFromNumber sx) (GTransformNumberFromNumber sy).

Definition gtransform_translate_number (t_new t : ptr) (tx ty : Z) : M unit :=
  gtransform_translate t_new t (GTransformNumberFromNumber tx) (GTransformNumberFromNumber ty).

Section WithTrig.
Context `{TrigLookup}.

Definition gtransform_rotate (t_new t : ptr) (angle : Z) : M unit :=
  match t_new, t with
  | Some ln, Some l =>
      let! lr := alloca (gtransform_init_rotation angle) in
      let! _ := gtransform_concat (Some ln) (Some lr) (Some l) in
      free lr
  | _, _ => ret tt
  end.
End WithTrig.

Definition gtransform_invert (t_new t : ptr) : M bool :=
  match t_new, t with
  | Some ln, Some l => let! _ := memcpy ln l in ret false
  | _, _ => ret false
  end.

(** The invariant of the store: every object holds six [int32_t] raw
    values. *)
Definition store_wf (s : store) : Prop := map_Forall (fun _ t => gtransform_wf t) s.

(** Equality of transforms and the invariant are decidable, so that
    [decide] settles them on concrete stores. *)
#[export] Instance GTransform_eq_decision : EqDecision Tr.GTransform := GTransform_eq_dec.

#[export] Instance gtransform_wf_decision (t : Tr.GTransform) : Decision (gtransform_wf t).
Proof. unfold gtransform_wf, S32_16.wf, in_range. apply _. Defined.

#[export] Instance store_wf_decision (s : store) : Decision (store_wf s).
Proof. unfold store_wf. apply _. Defined.

(** ** Witnesses: a store holding a scale (at 1) and a translation (at 2) *)

Definition sample_store : store :=
  {[ 1%positive := GTransformScaleFromNumber 2 3;
     2%positive := GTransformTranslationFromNumber 10 20 ]}.

(** ** Running the monad *)

Lemma load_some (s : store) (l : loc) (t : Tr.GTransform) :
  s !! l = Some t -> load l s = Some (t, s).
Proof. intros H. unfold load. rewrite H. reflexivity. Qed.

Lemma bind_some {A B : Type} (m : M A) (k : A -> M B) (s s' : store) (x : A) :
  m s = Some (x, s') -> bind m k s = k x s'.
Proof. intros H. unfold bind. rewrite H. reflexivity. Qed.

Lemma store_field_some (s : store) (l : loc) (t : Tr.GTransform) upd :
  s !! l = Some t -> store_field l upd s = Some (tt, <[l := upd t]> s).
Proof. intros H. unfold store_field. rewrite H. reflexivity. Qed.

(** ** Refinement of the mutators by the value-level product

    Each theorem takes a store in which the pointers of the call are valid
    and says that the call writes, at [t_new], the product [gtransform_mul]
    of the values the inputs had before the call, and changes nothing else.
    [ln], [l1], [l2] are arbitrary: any of them may be equal. *)
Section Refinement.
Variables (s : store) (ln : loc) (xn : Tr.GTransform).
Hypothesis Hn : s !! ln = Some xn.

(** The run of [gtransform_concat] on valid pointers. *)
Lemma concat_writes_product (l1 l2 : loc) (x1 x2 : Tr.GTransform) :
  s !! l1 = Some x1 -> s !! l2 = Some x2 ->
  gtransform_concat (Some ln) (Some l1) (Some l2) s
  = Some (tt, <[ln := gtransform_mul x1 x2]> s).
Proof.
  intros H1 H2. unfold gtransform_concat, rd.
  rewrite (bind_some _ _ _ _ _ (load_some _ _ _ H1)).
  rewrite (bind_some _ _ _ _ _ (load_some _ _ _ H2)).
  unfold bind, store_field, load, ret. rewrite Hn. simplify_map_eq.
  destruct (decide (ln = l2)) as [<- | Hne]; simplify_map_eq;
    rewrite !insert_insert_eq; reflexivity.
Qed.

(** C1: [gtransform_concat(t_new, t1, t2)] stores [t1 * t2] at [t_new]
    for every aliasing of [t_new] with [t1] or [t2]: the twelve products
    are staged before the first write, and [t2->tx] and [t2->ty] are read
    after writes that do not touch them. *)
Theorem gtransform_concat_refines (l1 l2 : loc) (x1 x2 : Tr.GTransform) :
  s !! l1 = Some x1 -> s !! l2 = Some x2 ->
  gtransform_concat (Some ln) (Some l1) (Some l2) s
  = Some (tt, <[ln := gtransform_mul x1 x2]> s).
Proof. apply concat_writes_product. Qed.

(** The run of [gtransform_scale] on valid pointers. *)
Lemma scale_writes_product (l : loc) (x : Tr.GTransform) (sx sy : GTransformNumber) :
  s !! l = Some x -> gtransform_wf x ->
  gtransform_scale (Some ln) (Some l) sx sy s
  = Some (tt, <[ln := gtransform_mul (GTransformScale sx sy) x]> s).
Proof.
  intros Hl Hx. rewrite gtransform_mul_scale_l by exact Hx.
  unfold gtransform_scale, memcpy, rd, bind, store_field, load, ret.
  destruct (decide (ln = l)) as [<- | Hne]; simplify_map_eq;
    rewrite !insert_insert_eq; reflexivity.
Qed.

(** C5: [gtransform_scale(t_new, t, sx, sy)] stores [Scale(sx, sy) * t]
    at [t_new], whether [t_new] is [t] or not. *)
Theorem gtransform_scale_refines (l : loc) (x : Tr.GTransform) (sx sy : GTransformNumber) :
  s !! l = Some x -> gtransform_wf x ->
  gtransform_scale (Some ln) (Some l) sx sy s
  = Some (tt, <[ln := gtransform_mul (GTransformScale sx sy) x]> s).
Proof. apply scale_writes_product. Qed.

(** The run of [gtransform_translate] on valid pointers. *)
Lemma translate_writes_product (l : loc) (x : Tr.GTransform) (tx ty : GTransformNumber) :
  s !! l = Some x -> gtransform_wf x ->
  gtransform_translate (Some ln) (Some l) tx ty s
  = Some (tt, <[ln := gtransform_mul (GTransformTranslation tx ty) x]> s).
Proof.
  intros Hl Hx. rewrite gtransform_mul_translation_l by exact Hx.
  unfold gtransform_translate, memcpy, rd, bind, store_field, load, ret.
  destruct (decide (ln = l)) as [<- | Hne]; simplify_map_eq;
    rewrite !insert_insert_eq; reflexivity.
Qed.

(** C6: [gtransform_translate(t_new, t, tx, ty)] stores
    [Translation(tx, ty) * t] at [t_new], whether [t_new] is [t] or not. *)
Theorem gtransform_translate_refines (l : loc) (x : Tr.GTransform) (tx ty : GTransformNumber) :
  s !! l = Some x -> gtransform_wf x ->
  gtransform_translate (Some ln) (Some l) tx ty s
  = Some (tt, <[ln := gtransform_mul (GTransformTranslation tx ty) x]> s).
Proof. apply translate_writes_product. Qed.
End Refinement.

(** The run of [gtransform_rotate] on valid pointers. *)
Lemma rotate_writes_product `{TrigLookup} (s : store) (ln l : loc) (xn x : Tr.GTransform)
    (angle : Z) :
  s !! ln = Some xn -> s !! l = Some x ->
  gtransform_rotate (Some ln) (Some l) angle s
  = Some (tt, <[ln := gtransform_mul (gtransform_init_rotation angle) x]> s).
Proof.
  intros Hn Hl. unfold gtransform_rotate, alloca, free.
  set (lr := fresh (dom s)).
  assert (Hr : s !! lr = None) by (apply not_elem_of_dom_1, is_fresh).
  assert (lr <> ln) by congruence. assert (lr <> l) by congruence.
  unfold bind. cbn beta iota. fold lr.
  rewrite (concat_writes_product (<[lr:=gtransform_init_rotation angle]> s) ln xn
             ltac:(simplify_map_eq; reflexivity)
             lr l (gtransform_init_rotation angle) x)
    by (simplify_map_eq; reflexivity).
  rewrite delete_insert_ne, delete_insert_id by assumption. reflexivity.
Qed.

(** C7: [gtransform_rotate(t_new, t, angle)] stores [Rotation(angle) * t]
    at [t_new], whether [t_new] is [t] or not; the local rotation matrix
    lives at an address of its own and is gone afterwards. *)
Theorem gtransform_rotate_refines `{TrigLookup} (s : store) (ln l : loc) (xn x : Tr.GTransform)
    (angle : Z) :
  s !! ln = Some xn -> s !! l = Some x ->
  gtransform_rotate (Some ln) (Some l) angle s
  = Some (tt, <[ln := gtransform_mul (gtransform_init_rotation angle) x]> s).
Proof. apply rotate_writes_product. Qed.

(** The run of [gtransform_invert]. *)
Lemma invert_copies (s : store) (ln l : loc) (xn x : Tr.GTransform) :
  s !! ln = Some xn -> s !! l = Some x ->
  gtransform_invert (Some ln) (Some l) s = Some (false, <[ln := x]> s)
  /\ gtransform_invert None (Some l) s = Some (false, s)
  /\ gtransform_invert (Some ln) None s = Some (false, s).
Proof.
  intros Hn Hl. unfold gtransform_invert, memcpy, bind, load, store_field, ret.
  rewrite Hl. simplify_map_eq. repeat split.
Qed.

(** C8: [gtransform_invert] is a stub: with valid pointers it copies [t]
    into [t_new] and reports failure; with a NULL pointer it changes nothing
    and reports failure.  It never reports success. *)
Theorem gtransform_invert_stub (s : store) (ln l : loc) (xn x : Tr.GTransform) :
  s !! ln = Some xn -> s !! l = Some x ->
  gtransform_invert (Some ln) (Some l) s = Some (false, <[ln := x]> s)
  /\ gtransform_invert None (Some l) s = Some (false, s)
  /\ gtransform_invert (Some ln) None s = Some (false, s).
Proof. apply invert_copies. Qed.

(** C21: a mutator called with a NULL pointer returns without touching the
    store. *)
Theorem gtransform_mutators_null `{TrigLookup} (s : store) (pn p q : ptr)
    (sx sy : GTransformNumber) (angle : Z) :
  (pn = None \/ p = None \/ q = None -> gtransform_concat pn p q s = Some (tt, s))
  /\ (pn = None \/ p = None ->
      gtransform_scale pn p sx sy s = Some (tt, s)
      /\ gtransform_translate pn p sx sy s = Some (tt, s)
      /\ gtransform_rotate pn p angle s = Some (tt, s)).
Proof.
  split.
  - destruct pn, p, q; intros [E | [E | E]]; try discriminate; reflexivity.
  - destruct pn, p; intros [E | E]; try discriminate; repeat split.
Qed.

Lemma gtransform_concat_refines_witness :
  gtransform_concat (Some 1%positive) (Some 1%positive) (Some 2%positive) sample_store
  = Some (tt, <[1%positive := gtransform_mul (GTransformScaleFromNumber 2 3)
                                             (GTransformTranslationFromNumber 10 20)]> sample_store).
Proof.
  apply (gtransform_concat_refines sample_store 1%positive (GTransformScaleFromNumber 2 3));
    reflexivity.
Defined.

Lemma gtransform_scale_refines_witness :
  gtransform_scale (Some 2%positive) (Some 2%positive) (GTransformNumberFromNumber 2)
    (GTransformNumberFromNumber 2) sample_store
  = Some (tt, <[2%positive := gtransform_mul (GTransformScaleFromNumber 2 2)
                                             (GTransformTranslationFromNumber 10 20)]> sample_store).
Proof.
  apply (gtransform_scale_refines sample_store 2%positive (GTransformTranslationFromNumber 10 20));
    [reflexivity | reflexivity | split_wf; range_by_eval].
Defined.

Lemma gtransform_translate_refines_witness :
  gtransform_translate (Some 1%positive) (Some 1%positive) (GTransformNumberFromNumber 5)
    (GTransformNumberFromNumber 5) sample_store
  = Some (tt, <[1%positive := gtransform_mul (GTransformTranslationFromNumber 5 5)
                                             (GTransformScaleFromNumber 2 3)]> sample_store).
Proof.
  apply (gtransform_translate_refines sample_store 1%positive (GTransformScaleFromNumber 2 3));
    [reflexivity | reflexivity | split_wf; range_by_eval].
Defined.

Lemma gtransform_rotate_refines_witness :
  gtransform_rotate (Some 1%positive) (Some 1%positive) 16384 sample_store
  = Some (tt, <[1%positive := gtransform_mul (gtransform_init_rotation 16384)
                                             (GTransformScaleFromNumber 2 3)]> sample_store).
Proof.
  apply (gtransform_rotate_refines sample_store 1%positive 1%positive (GTransformScaleFromNumber 2 3));
    reflexivity.
Defined.

Lemma gtransform_invert_stub_witness :
  gtransform_invert (Some 1%positive) (Some 2%positive) sample_store
  = Some (false, <[1%positive := GTransformTranslationFromNumber 10 20]> sample_store).
Proof.
  apply (gtransform_invert_stub sample_store 1%positive 2%positive (GTransformScaleFromNumber 2 3));
    reflexivity.
Defined.

(** ** The store invariant *)

Lemma store_wf_insert (s : store) (l : loc) (t : Tr.GTransform) :
  store_wf s -> gtransform_wf t -> store_wf (<[l := t]> s).
Proof. intros Hs Ht. apply map_Forall_insert_2; assumption. Qed.

Lemma store_wf_lookup (s : store) (l : loc) (t : Tr.GTransform) :
  store_wf s -> s !! l = Some t -> gtransform_wf t.
Proof. intros Hs Hl. exact (Hs l t Hl). Qed.
