(* ===== verification/Calls.v ===== *)
(** * Calls: sequences of mutator calls on the store

    A client of [gtransform.h] (the demo's [frame_handler] is one) calls
    the mutators one after another on transforms it owns, in any order and
    with any aliasing.  [Call] is one such call with valid (non-NULL)
    pointers, [run_call] its run in the store monad of [TransformStore],
    and [run_calls] runs a list of calls in order.  The theorems show that
    such a program never reaches a dangling pointer, keeps every object
    valid, frees what it allocates, and writes only the objects passed as
    [t_new]. *)

From stdpp Require Import base gmap.
From Stdlib Require Import ZArith Lia.
From S2P Require Import Prelude MathFixed Transform Rotation TransformStore.
Open Scope Z_scope.
Local Open Scope store_scope.

(** One call, with the addresses it is passed. *)
Inductive Call :=
| CallConcat (t_new t1 t2 : loc)
| CallScale (t_new t : loc) (sx sy : GTransformNumber)
| CallTranslate (t_new t : loc) (tx ty : GTransformNumber)
| CallRotate (t_new t : loc) (angle : Z)
| CallInvert (t_new t : loc).

(** The object a call writes. *)
Definition call_target (c : Call) : loc :=
  match c with
  | CallConcat ln _ _ | CallScale ln _ _ _ | CallTranslate ln _ _ _
  | CallRotate ln _ _ | CallInvert ln _ => ln
  end.

(** Every address a call is passed. *)
Definition call_args (c : Call) : list loc :=
  match c with
  | CallConcat ln l1 l2 => [ln; l1; l2]
  | CallScale ln l _ _ | CallTranslate ln l _ _ | CallRotate ln l _ | CallInvert ln l => [ln; l]
  end.

Section Calls.
Context `{TrigLookup}.

Definition run_call (c : Call) : M unit :=
  match c with
  | CallConcat ln l1 l2 => gtransform_concat (Some ln) (Some l1) (Some l2)
  | CallScale ln l sx sy => gtransform_scale (Some ln) (Some l) sx sy
  | CallTranslate ln l tx ty => gtransform_translate (Some ln) (Some l) tx ty
  | CallRotate ln l angle => gtransform_rotate (Some ln) (Some l) angle
  | CallInvert ln l => let! _ := gtransform_invert (Some ln) (Some l) in ret tt
  end.

Fixpoint run_calls (cs : list Call) : M unit :=
  match cs with
  | [] => ret tt
  | c :: cs' => let! _ := run_call c in run_calls cs'
  end.
End Calls.

(** ** The demo's call on its stack locals

    [frame_handler] of [src/test_gtransform.c] declares [GTransform tr, tt,
    t_concat] on its stack and calls [gtransform_concat(&t_concat, &tr,
    &tt)] twice.  The three locals are three distinct addresses of a store;
    [concat_locals] runs the call there and returns the new [t_concat].
    Its fallbacks (the call failing, [t_concat] missing) are unreachable:
    [concat_locals_mul] shows the call always writes [tr * tt]. *)
Definition L_tr : loc := 1%positive.
Definition L_tt : loc := 2%positive.
Definition L_concat : loc := 3%positive.

Definition concat_locals (tr tt t_concat : Tr.GTransform) : Tr.GTransform :=
  match gtransform_concat (Some L_concat) (Some L_tr) (Some L_tt)
          {[L_tr := tr; L_tt := tt; L_concat := t_concat]} with
  | Some (_, s') => match s' !! L_concat with Some t => t | None => t_concat end
  | None => t_concat
  end.

(** The addresses of a call are all allocated in [s]. *)
Definition call_valid (s : store) (c : Call) : Prop := Forall (fun l => l ∈ dom s) (call_args c).

#[export] Instance call_valid_decision (s : store) (c : Call) : Decision (call_valid s c).
Proof. unfold call_valid. apply _. Defined.

(** ** Facts *)

(** Writing a valid object over an existing one keeps the store valid, its
    domain, and every other object. *)
Lemma insert_safe (s : store) (ln : loc) (xn v : Tr.GTransform) :
  s !! ln = Some xn -> store_wf s -> gtransform_wf v ->
  store_wf (<[ln := v]> s) /\ dom (<[ln := v]> s) = dom s
  /\ forall l, l <> ln -> <[ln := v]> s !! l = s !! l.
Proof.
  intros Hn Hs Hv. split; [apply store_wf_insert; assumption |].
  split; [apply dom_insert_lookup_L; eauto |].
  intros l Hl. apply lookup_insert_ne. congruence.
Qed.

Lemma in_dom_lookup (s : store) (l : loc) : l ∈ dom s -> exists x, s !! l = Some x.
Proof. rewrite elem_of_dom. intros [x Hx]. eauto. Qed.

Section CallFacts.
Context `{TrigLookup}.

(** A call on valid addresses writes one valid object at its target. *)
Lemma run_call_writes (c : Call) (s : store) :
  store_wf s -> call_valid s c ->
  exists xn v, s !! call_target c = Some xn
               /\ run_call c s = Some (tt, <[call_target c := v]> s) /\ gtransform_wf v.
Proof.
  intros Hs Hv. unfold call_valid in Hv.
  destruct c as [ln l1 l2 | ln l sx sy | ln l tx ty | ln l angle | ln l];
    cbn [call_args] in Hv; repeat (apply Forall_cons in Hv as [? Hv]);
    repeat match goal with
           | Hd : _ ∈ dom s |- _ => apply in_dom_lookup in Hd as [? ?]
           end;
    do 2 eexists; (split; [eassumption |]); cbn [run_call call_target].
  - split; [eapply concat_writes_product; eassumption | auto with cint].
  - split; [eapply scale_writes_product; eauto using store_wf_lookup | auto with cint].
  - split; [eapply translate_writes_product; eauto using store_wf_lookup | auto with cint].
  - split; [eapply rotate_writes_product; eassumption | auto with cint].
  - split; [| eauto using store_wf_lookup].
    erewrite bind_some; [reflexivity | eapply proj1, invert_copies; eassumption].
Qed.

(** One call keeps the store valid, its domain and every object but its
    target. *)
Lemma run_call_safe (c : Call) (s : store) :
  store_wf s -> call_valid s c ->
  exists s', run_call c s = Some (tt, s') /\ store_wf s' /\ dom s' = dom s
             /\ forall l, l <> call_target c -> s' !! l = s !! l.
Proof.
  intros Hs Hv. destruct (run_call_writes c s Hs Hv) as (xn & v & Hn & E & Wv).
  exists (<[call_target c := v]> s). split; [exact E |]. apply (insert_safe s _ xn); assumption.
Qed.

(** C9: any sequence of mutator calls on valid addresses, in any order
    and with any aliasing, runs to the end without touching a dangling
    pointer; it leaves every object valid, allocates nothing that it does
    not free (the domain of the store is unchanged, the local [tR] of
    [gtransform_rotate] included), and changes only the objects passed as
    [t_new]. *)
Theorem run_calls_safe (cs : list Call) (s : store) :
  store_wf s -> Forall (call_valid s) cs ->
  exists s', run_calls cs s = Some (tt, s') /\ store_wf s' /\ dom s' = dom s
             /\ forall l, l ∉ map call_target cs -> s' !! l = s !! l.
Proof.
  revert s. induction cs as [| c cs IH]; intros s Hs Hcs.
  - exists s. split; [reflexivity |]. split; [exact Hs |]. split; [reflexivity | auto].
  - apply Forall_cons in Hcs as [Hc Hcs].
    destruct (run_call_safe c s Hs Hc) as (s1 & E1 & W1 & D1 & F1).
    destruct (IH s1 W1) as (s2 & E2 & W2 & D2 & F2).
    + eapply Forall_impl; [exact Hcs |]. intros c' Hc'. unfold call_valid in *. rewrite D1. exact Hc'.
    + exists s2. cbn [run_calls]. rewrite (bind_some _ _ _ _ _ E1), E2.
      split; [reflexivity |]. split; [exact W2 |]. split; [congruence |].
      intros l Hl. cbn [map] in Hl. rewrite not_elem_of_cons in Hl. rewrite F2, F1 by tauto. reflexivity.
Qed.
End CallFacts.

(** The demo's concatenation on its locals writes [tr * tt], whatever
    [t_concat] held before: it is written before it is read. *)
Lemma concat_locals_mul (tr tt t_concat : Tr.GTransform) :
  concat_locals tr tt t_concat = gtransform_mul tr tt.
Proof.
  unfold concat_locals.
  rewrite (concat_writes_product {[L_tr := tr; L_tt := tt; L_concat := t_concat]} L_concat t_concat
             ltac:(unfold L_tr, L_tt, L_concat; simplify_map_eq; reflexivity) L_tr L_tt tr tt)
    by (unfold L_tr, L_tt, L_concat; simplify_map_eq; reflexivity).
  rewrite lookup_insert. reflexivity.
Qed.

(** A program on the sample store: scale the scale at 1 in place, multiply
    it into the translation at 2 (output aliasing the second input), rotate
    1 by a quarter turn in place, and "invert" 1 into 2. *)
Definition sample_calls : list Call :=
  [CallScale 1%positive 1%positive GTransformNumberOne GTransformNumberOne;
   CallConcat 2%positive 1%positive 2%positive;
   CallRotate 1%positive 1%positive 16384;
   CallInvert 2%positive 1%positive].

Lemma run_calls_safe_witness :
  store_wf sample_store /\ Forall (call_valid sample_store) sample_calls
  /\ exists s', run_calls (H := QuarterTurnLookup) sample_calls sample_store = Some (tt, s')
              /\ store_wf s' /\ dom s' = dom sample_store
              /\ forall l, l ∉ map call_target sample_calls -> s' !! l = sample_store !! l.
Proof.
  assert (Hs : store_wf sample_store) by (apply (bool_decide_unpack _); vm_compute; reflexivity).
  assert (Hc : Forall (call_valid sample_store) sample_calls)
    by (apply (bool_decide_unpack _); vm_compute; reflexivity).
  split; [exact Hs |]. split; [exact Hc |].
  exact (run_calls_safe (H := QuarterTurnLookup) sample_calls sample_store Hs Hc).
Defined.
