(* ===== verification/Apply.v ===== *)
(** * Apply: [gpoint_transform] and [gvector_transform] of [src/gtransform.c]

    Both convert their integer argument to 13.3 fixed point, and, unless the
    transform pointer is NULL ([None]), compute [x*a + y*c + 1*tx] and
    [x*b + y*d + 1*ty] with the mixed multiplication
    [Fixed_S16_3_S32_16_mul] and the three-term [Fixed_S16_3_add3].  The
    theorems relate the result to the conversion (identity and NULL), to the
    exact products (error bounds), and [gvector_transform] to
    [gpoint_transform]. *)

From Stdlib Require Import ZArith Lia Bool QArith.
From S2P Require Import Prelude MathFixed GTypes Transform Rotation.
Open Scope Z_scope.
Local Open Scope cint_scope.

Definition gpoint_transform (point : Point.GPoint) (t : option Tr.GTransform)
  : PointPrecise.GPointPrecise :=
  let pointP := GPointPreciseFromGPoint point in
  match t with
  | None => pointP
  | Some t =>
      let x_a := Mixed.Fixed_S16_3_S32_16_mul (PointPrecise.x pointP) (Tr.a t) in
      let y_c := Mixed.Fixed_S16_3_S32_16_mul (PointPrecise.y pointP) (Tr.c t) in
      let one_tx := Mixed.Fixed_S16_3_S32_16_mul S16_3.FIXED_S16_3_ONE (Tr.tx t) in
      let x_b := Mixed.Fixed_S16_3_S32_16_mul (PointPrecise.x pointP) (Tr.b t) in
      let y_d := Mixed.Fixed_S16_3_S32_16_mul (PointPrecise.y pointP) (Tr.d t) in
      let one_ty := Mixed.Fixed_S16_3_S32_16_mul S16_3.FIXED_S16_3_ONE (Tr.ty t) in
      let sum_x := S16_3.Fixed_S16_3_add3 x_a y_c one_tx in
      let sum_y := S16_3.Fixed_S16_3_add3 x_b y_d one_ty in
      PointPrecise.mk_GPointPrecise (S16_3.raw_value sum_x) (S16_3.raw_value sum_y)
  end.

Definition gvector_transform (vector : Vector.GVector) (t : option Tr.GTransform)
  : VectorPrecise.GVectorPrecise :=
  let vectorP := GVectorPreciseFromGVector vector in
  match t with
  | None => vectorP
  | Some t =>
      let x_a := Mixed.Fixed_S16_3_S32_16_mul (VectorPrecise.dx vectorP) (Tr.a t) in
      let y_c := Mixed.Fixed_S16_3_S32_16_mul (VectorPrecise.dy vectorP) (Tr.c t) in
      let one_tx := Mixed.Fixed_S16_3_S32_16_mul S16_3.FIXED_S16_3_ONE (Tr.tx t) in
      let x_b := Mixed.Fixed_S16_3_S32_16_mul (VectorPrecise.dx vectorP) (Tr.b t) in
      let y_d := Mixed.Fixed_S16_3_S32_16_mul (VectorPrecise.dy vectorP) (Tr.d t) in
      let one_ty := Mixed.Fixed_S16_3_S32_16_mul S16_3.FIXED_S16_3_ONE (Tr.ty t) in
      let sum_x := S16_3.Fixed_S16_3_add3 x_a y_c one_tx in
      let sum_y := S16_3.Fixed_S16_3_add3 x_b y_d one_ty in
      VectorPrecise.mk_GVectorPrecise (S16_3.raw_value sum_x) (S16_3.raw_value sum_y)
  end.

(** ** One axis of the application *)

(** The raw value computed on one axis, [u*p + v*q + 1*r]. *)
Definition axis (u v : S16_3.Fixed_S16_3) (p q r : GTransformNumber) : Z :=
  S16_3.raw_value
    (S16_3.Fixed_S16_3_add3 (Mixed.Fixed_S16_3_S32_16_mul u p) (Mixed.Fixed_S16_3_S32_16_mul v q)
       (Mixed.Fixed_S16_3_S32_16_mul S16_3.FIXED_S16_3_ONE r)).

Lemma mixed_mul_raw (u : S16_3.Fixed_S16_3) (p : GTransformNumber) :
  S16_3.raw_value (Mixed.Fixed_S16_3_S32_16_mul u p)
  = wrap 16 (S16_3.raw_value u * S32_16.raw_value p >> 16).
Proof. rewrite mixed_mul_wide. reflexivity. Qed.

(** Multiplying a valid 13.3 value by one (16.16) or by zero is exact. *)
Lemma mixed_mul_one (u : S16_3.Fixed_S16_3) :
  S16_3.wf u -> S16_3.raw_value (Mixed.Fixed_S16_3_S32_16_mul u GTransformNumberOne)
                = S16_3.raw_value u.
Proof.
  intros Hu. rewrite mixed_mul_raw. change (S32_16.raw_value GTransformNumberOne) with 65536.
  rewrite Z.shiftr_div_pow2, Z.div_mul by lia. apply wrap_small; [lia | exact Hu].
Qed.

Lemma mixed_mul_zero (u : S16_3.Fixed_S16_3) (p : GTransformNumber) :
  S32_16.raw_value p = 0 -> S16_3.raw_value (Mixed.Fixed_S16_3_S32_16_mul u p) = 0.
Proof. intros Hp. rewrite mixed_mul_raw, Hp, Z.mul_0_r. reflexivity. Qed.

(** The axis sum is the sum of three floors, when nothing overflows. *)
Lemma axis_floor (u v : S16_3.Fixed_S16_3) (p q r : GTransformNumber) :
  let fu := S16_3.raw_value u * S32_16.raw_value p >> 16 in
  let fv := S16_3.raw_value v * S32_16.raw_value q >> 16 in
  let fr := 8 * S32_16.raw_value r >> 16 in
  in_range 16 fu -> in_range 16 fv -> in_range 16 fr -> in_range 16 (fu + fv + fr) ->
  axis u v p q r = fu + fv + fr.
Proof.
  intros fu fv fr Hu Hv Hr Hs. unfold axis. cbn [S16_3.Fixed_S16_3_add3 S16_3.mk_Fixed_S16_3 S16_3.raw_value].
  rewrite !mixed_mul_raw, FIXED_S16_3_ONE_raw.
  fold fu fv fr. rewrite (wrap_small 16 fu), (wrap_small 16 fv), (wrap_small 16 fr) by (auto; lia).
  apply wrap_small; [lia | exact Hs].
Qed.

Lemma gpoint_transform_axes (p : Point.GPoint) (t : Tr.GTransform) :
  let pp := GPointPreciseFromGPoint p in
  S16_3.raw_value (PointPrecise.x (gpoint_transform p (Some t)))
    = axis (PointPrecise.x pp) (PointPrecise.y pp) (Tr.a t) (Tr.c t) (Tr.tx t)
  /\ S16_3.raw_value (PointPrecise.y (gpoint_transform p (Some t)))
    = axis (PointPrecise.x pp) (PointPrecise.y pp) (Tr.b t) (Tr.d t) (Tr.ty t).
Proof. split; apply wrap_wrap; lia. Qed.

Lemma GPointPreciseFromGPoint_wf (p : Point.GPoint) :
  S16_3.wf (PointPrecise.x (GPointPreciseFromGPoint p))
  /\ S16_3.wf (PointPrecise.y (GPointPreciseFromGPoint p)).
Proof. split; apply mk_Fixed_S16_3_wf. Qed.

(** Applying the identity transform, or a NULL transform, to an
    integer point gives the point's precise conversion, bit for bit. *)
Theorem gpoint_transform_identity (p : Point.GPoint) :
  gpoint_transform p (Some GTransformIdentity) = GPointPreciseFromGPoint p
  /\ gpoint_transform p None = GPointPreciseFromGPoint p.
Proof.
  split; [| reflexivity].
  destruct (gpoint_transform_axes p GTransformIdentity) as [Ex Ey].
  destruct (GPointPreciseFromGPoint_wf p) as [Wx Wy].
  remember (GPointPreciseFromGPoint p) as pp eqn:Epp.
  destruct (gpoint_transform p (Some GTransformIdentity)) as [rx ry], pp as [px py].
  cbn [PointPrecise.x PointPrecise.y] in *. f_equal; apply S16_3_ext; [rewrite Ex | rewrite Ey];
    unfold axis; cbn [S16_3.Fixed_S16_3_add3 S16_3.mk_Fixed_S16_3 S16_3.raw_value GTransformIdentity
                      Tr.a Tr.b Tr.c Tr.d Tr.tx Tr.ty];
    rewrite ?mixed_mul_one, !mixed_mul_zero by (auto; reflexivity);
    rewrite ?Z.add_0_r, ?Z.add_0_l; apply wrap_small; auto; lia.
Qed.

(** The error of one axis against the exact sum of products: three roundings
    down, each by less than one unit of the 13.3 grid. *)
Lemma axis_error (u v : S16_3.Fixed_S16_3) (p q r : GTransformNumber) :
  let X := S16_3.raw_value u in let Y := S16_3.raw_value v in
  in_range 16 (X * S32_16.raw_value p >> 16) -> in_range 16 (Y * S32_16.raw_value q >> 16) ->
  in_range 16 (8 * S32_16.raw_value r >> 16) ->
  in_range 16 ((X * S32_16.raw_value p >> 16) + (Y * S32_16.raw_value q >> 16)
               + (8 * S32_16.raw_value r >> 16)) ->
  axis u v p q r * 65536
    <= X * S32_16.raw_value p + Y * S32_16.raw_value q + 8 * S32_16.raw_value r
    < axis u v p q r * 65536 + 3 * 65536.
Proof.
  cbv zeta. intros Hu Hv Hr Hs. rewrite axis_floor by assumption.
  pose proof (shiftr16_floor (S16_3.raw_value u * S32_16.raw_value p)).
  pose proof (shiftr16_floor (S16_3.raw_value v * S32_16.raw_value q)).
  pose proof (shiftr16_floor (8 * S32_16.raw_value r)). lia.
Qed.

(** C10: when no intermediate result overflows 16 bits, each coordinate of
    [gpoint_transform p t] is the exact [x*a + y*c + tx] (resp.
    [x*b + y*d + ty]) rounded down, with an error of less than three units
    of 1/8 pixel. *)
Theorem gpoint_transform_error (p : Point.GPoint) (t : Tr.GTransform) :
  let X := S16_3.raw_value (PointPrecise.x (GPointPreciseFromGPoint p)) in
  let Y := S16_3.raw_value (PointPrecise.y (GPointPreciseFromGPoint p)) in
  let a := S32_16.raw_value (Tr.a t) in let b := S32_16.raw_value (Tr.b t) in
  let c := S32_16.raw_value (Tr.c t) in let d := S32_16.raw_value (Tr.d t) in
  let tx := S32_16.raw_value (Tr.tx t) in let ty := S32_16.raw_value (Tr.ty t) in
  in_range 16 (X * a >> 16) -> in_range 16 (Y * c >> 16) -> in_range 16 (8 * tx >> 16) ->
  in_range 16 ((X * a >> 16) + (Y * c >> 16) + (8 * tx >> 16)) ->
  in_range 16 (X * b >> 16) -> in_range 16 (Y * d >> 16) -> in_range 16 (8 * ty >> 16) ->
  in_range 16 ((X * b >> 16) + (Y * d >> 16) + (8 * ty >> 16)) ->
  let rx := S16_3.raw_value (PointPrecise.x (gpoint_transform p (Some t))) in
  let ry := S16_3.raw_value (PointPrecise.y (gpoint_transform p (Some t))) in
  rx * 65536 <= X * a + Y * c + 8 * tx < rx * 65536 + 3 * 65536
  /\ ry * 65536 <= X * b + Y * d + 8 * ty < ry * 65536 + 3 * 65536.
Proof.
  intros X Y a b c d tx ty Ha Hc Htx Hsx Hb Hd Hty Hsy rx ry.
  destruct (gpoint_transform_axes p t) as [Ex Ey]. unfold rx, ry. rewrite Ex, Ey.
  split; apply axis_error; assumption.
Qed.

Lemma gpoint_transform_error_witness :
  S16_3.raw_value (PointPrecise.x (gpoint_transform {| Point.x := 3; Point.y := 4 |}
                                     (Some (GTransformFromNumbers 1 1 1 1 1 1)))) = 64
  /\ 64 * 65536 <= 24 * 65536 + 32 * 65536 + 8 * 65536 < 64 * 65536 + 3 * 65536.
Proof.
  split; [vm_compute; reflexivity |].
  destruct (gpoint_transform_error {| Point.x := 3; Point.y := 4 |} (GTransformFromNumbers 1 1 1 1 1 1))
    as [H _]; try range_by_eval.
  vm_compute in H. vm_compute. exact H.
Defined.

(** The translation term of one axis: [1 * tx] for [tx] =
    [GTransformNumberFromNumber(t)] is [8 * t] in 13.3, wrapped. *)
Lemma translation_term (t : Z) :
  wrap 16 (S16_3.raw_value S16_3.FIXED_S16_3_ONE
           * S32_16.raw_value (GTransformNumberFromNumber t) >> 16) = wrap 16 (8 * t).
Proof.
  rewrite FIXED_S16_3_ONE_raw. cbn [GTransformNumberFromNumber S32_16.raw_value].
  replace 32 with (16 + 16) by reflexivity. change 65536 with (2 ^ 16).
  rewrite wrap_mul_pow2, Z.mul_assoc, Z.shiftr_div_pow2, Z.div_mul by lia.
  apply wrap_congr; [lia |]. exists (-8 * ((t + 2 ^ 15) / 2 ^ 16)).
  rewrite (wrap_eq 16 t) by lia. cint_consts. lia.
Qed.

(** One axis of a translation by [GTransformNumberFromNumber(t)]: the
    coordinate plus [8 * t], wrapped to 16 bits. *)
Lemma axis_translation (u v : S16_3.Fixed_S16_3) (t : Z) :
  S16_3.wf u -> S16_3.wf v ->
  axis u v GTransformNumberOne GTransformNumberZero (GTransformNumberFromNumber t)
  = wrap 16 (S16_3.raw_value u + 8 * t)
  /\ axis u v GTransformNumberZero GTransformNumberOne (GTransformNumberFromNumber t)
  = wrap 16 (S16_3.raw_value v + 8 * t).
Proof.
  intros Hu Hv. unfold axis. cbn [S16_3.Fixed_S16_3_add3 S16_3.mk_Fixed_S16_3 S16_3.raw_value].
  split; rewrite mixed_mul_one, mixed_mul_zero by (auto; reflexivity);
    rewrite mixed_mul_raw, translation_term, ?Z.add_0_r, ?Z.add_0_l, wrap_add_r by lia; reflexivity.
Qed.

(** One coordinate of a translated integer point, back on the integer
    grid. *)
Lemma translate_coord (z t : Z) :
  wrap 16 (wrap 16 (wrap 13 z * 8 + 8 * t) >> 3) = wrap 13 (z + t).
Proof.
  replace (wrap 13 z * 8 + 8 * t) with ((wrap 13 z + t) * 2 ^ 3) by (cint_consts; lia).
  replace 16 with (13 + 3) at 2 by reflexivity.
  rewrite wrap_mul_pow2 by lia. change (2 ^ 3) with 8.
  rewrite times8_shiftr, wrap_add_l, wrap16_wrap13 by lia. reflexivity.
Qed.

(** Translation of an integer point, axis by axis. *)
Lemma translate_exact (p : Point.GPoint) (tx ty : Z) :
  GPointFromGPointPrecise (gpoint_transform p (Some (GTransformTranslationFromNumber tx ty)))
  = {| Point.x := wrap 13 (Point.x p + tx); Point.y := wrap 13 (Point.y p + ty) |}.
Proof.
  destruct (gpoint_transform_axes p (GTransformTranslationFromNumber tx ty)) as [Ex Ey].
  destruct (GPointPreciseFromGPoint_wf p) as [Wx Wy].
  unfold GPointFromGPointPrecise, Point.mk_GPoint. rewrite Ex, Ey.
  cbn [GTransformTranslationFromNumber GTransformTranslation Tr.a Tr.b Tr.c Tr.d Tr.tx Tr.ty].
  destruct (axis_translation _ _ tx Wx Wy) as [-> _]. destruct (axis_translation _ _ ty Wx Wy) as [_ ->].
  cbn [GPointPreciseFromGPoint PointPrecise.mk_GPointPrecise PointPrecise.x PointPrecise.y
       S16_3.mk_Fixed_S16_3 S16_3.raw_value].
  unfold GPOINT_PRECISE_MAX, GPOINT_PRECISE_PRECISION, S16_3.FIXED_S16_3_PRECISION.
  rewrite !coord_precise, !translate_coord. reflexivity.
Qed.

(** C13: translating an integer point by whole pixels is exact in the
    13-bit window of [GPointPrecise]: [gpoint_transform] by
    [GTransformTranslationFromNumber(tx, ty)], brought back with
    [GPointFromGPointPrecise], adds [(tx, ty)] to the point, wrapping
    into [-4096, 4096) as the 13.3 format does.  No intermediate overflow
    disturbs the result: every narrowing is a reduction modulo 2^16. *)
Theorem gpoint_translate_exact (p : Point.GPoint) (tx ty : Z) :
  GPointFromGPointPrecise (gpoint_transform p (Some (GTransformTranslationFromNumber tx ty)))
  = {| Point.x := wrap 13 (Point.x p + tx); Point.y := wrap 13 (Point.y p + ty) |}.
Proof. apply translate_exact. Qed.

(** C26: [gvector_transform] is [gpoint_transform] on the same
    coordinates: a vector is translated like a point (the translation terms
    are not dropped). *)
Theorem gvector_transform_as_point (v : Vector.GVector) (t : option Tr.GTransform) :
  let r := gpoint_transform {| Point.x := Vector.dx v; Point.y := Vector.dy v |} t in
  gvector_transform v t = {| VectorPrecise.dx := PointPrecise.x r; VectorPrecise.dy := PointPrecise.y r |}.
Proof. destruct t; reflexivity. Qed.

(** For any trigonometric table and any angle, rotating and then
    translating by (100, 100) maps the origin to precise (100, 100): the
    rotation has no translation and the origin's products are zero. *)
Theorem rotation_then_translation_origin `{TrigLookup} (angle : Z) :
  gpoint_transform {| Point.x := 0; Point.y := 0 |}
    (Some (gtransform_mul (gtransform_init_rotation angle) (GTransformTranslationFromNumber 100 100)))
  = PointPrecise.mk_GPointPrecise 800 800.
Proof.
  destruct (gtransform_init_rotation_translation angle) as [Etx Ety].
  destruct (gtransform_init_rotation angle) as [ra rb rc rd rtx rty] eqn:E.
  cbn [Tr.tx Tr.ty] in Etx, Ety.
  unfold gpoint_transform, gtransform_mul. cbn [Tr.a Tr.b Tr.c Tr.d Tr.tx Tr.ty].
  unfold PointPrecise.mk_GPointPrecise. f_equal; apply S16_3_ext;
    rewrite ?mixed_mul_raw; cbn; rewrite ?Etx, ?Ety; reflexivity.
Qed.

(** The scenarios of the specification: [Scale(2, 2)] maps the point
    (3, 4) to (6, 8); [Scale(0.5, 0.5)] maps the vector (0, 30) to
    (0, 15). *)
Example apply_scale_scenarios :
  gpoint_transform {| Point.x := 3; Point.y := 4 |} (Some (GTransformScaleFromNumber 2 2))
    = PointPrecise.mk_GPointPrecise (6 * 8) (8 * 8)
  /\ gvector_transform {| Vector.dx := 0; Vector.dy := 30 |}
       (Some (GTransformScale (GTransformNumberFromQ (1 # 2)%Q) (GTransformNumberFromQ (1 # 2)%Q)))
    = VectorPrecise.mk_GVectorPrecise 0 (15 * 8).
Proof. split; vm_compute; reflexivity. Qed.
