(* ===== verification/Demo.v ===== *)
(** * Demo: the integer state of the demo app [src/test_gtransform.c]

    The demo draws a sun, an orbiting earth and moon and a twinkling star
    field, all placed with the library.  Its state is the file's [static]
    globals, changed by two handlers: [time_handler] (every second) and
    [frame_handler] (every frame, through [draw_frame_update_proc]).
    [DemoState] holds the globals, [init] is the initial state,
    [time_handler] and [frame_handler] are functions on it, and
    [frame_handler] also returns the drawing calls it makes, in order, as a
    list of [DrawCmd].  [reachable] is the step relation of the app.
    [orbit_point] places the earth and the moon with the library's
    rotation, [gtransform_concat] on the handler's locals ([concat_locals]
    of [Calls]) and [gpoint_transform].

    The scale factor is a [float]; the model is parametric in the float
    operations the code uses (class [FloatOps]), so no theorem depends on
    how the target rounds.  Here [s_center] is a parameter of [init]; the
    SDK calls around the handlers (window, layers, timers, the screen
    geometry that gives [s_center]) are in [Sdk] and [Lifecycle]. *)

From Stdlib Require Import ZArith Lia Bool List QArith.
From S2P Require Import Prelude MathFixed GTypes Transform Rotation Calls Apply.
Import ListNotations.
Open Scope Z_scope.

(** ** Constants *)

Definition FRAME_RATE : Z := 20.
Definition NUM_STARS : Z := 60.
Definition SUN_DIST_OFFSET : Z := 0.
Definition SUN_RADIUS : Z := 30.
Definition EARTH_RADIUS : Z := 10.
Definition EARTH_DIST_OFFSET : Z := SUN_RADIUS + EARTH_RADIUS + 30.
Definition MOON_RADIUS : Z := 4.
Definition MOON_DIST_OFFSET : Z := EARTH_RADIUS + MOON_RADIUS + 10.

(** [DEG_TO_TRIG_ANGLE(angle)]: C's [%] and [/] on [int]. *)
Definition DEG_TO_TRIG_ANGLE (angle : Z) : Z :=
  Z.quot (Z.rem angle 360 * TRIG_MAX_ANGLE) 360.

Definition EARTH_ANGLE_OFFSET : Z := - DEG_TO_TRIG_ANGLE (Z.quot 90 FRAME_RATE).
Definition MOON_ANGLE_OFFSET : Z := - DEG_TO_TRIG_ANGLE (Z.quot 180 FRAME_RATE).

(** The table [stars[NUM_STARS]]. *)
Definition stars : list Point.GPoint :=
  map (fun '(x, y) => {| Point.x := x; Point.y := y |})
  [(2, 2); (30, 10); (60, 6); (90, 12); (120, 8);
   (17, 17); (45, 25); (76, 21); (105, 27); (135, 23);
   (2, 32); (30, 40); (60, 36); (90, 42); (120, 38);
   (17, 47); (45, 55); (76, 51); (105, 57); (135, 53);
   (2, 62); (30, 70); (60, 66); (90, 72); (120, 68);
   (17, 77); (45, 85); (76, 81); (105, 87); (135, 83);
   (2, 92); (30, 100); (60, 96); (90, 102); (120, 98);
   (17, 107); (45, 115); (76, 111); (105, 117); (135, 113);
   (2, 122); (30, 130); (60, 126); (90, 132); (120, 128);
   (17, 137); (45, 145); (76, 141); (105, 147); (135, 143);
   (2, 152); (30, 160); (60, 156); (90, 162); (120, 158);
   (17, 167); (45, 165); (76, 161); (105, 167); (135, 163)].

(** ** The float operations the demo uses

    [F] is the type of [s_scale_factor].  [f_lit] is the value of a
    decimal literal, [fadd] the addition the code performs,
    [fge]/[fle] its comparisons, and [f_to_number] the conversion
    [GTransformNumberFromNumber(x)] of a float: [(int32_t)(x * 65536)].
    The code mixes [float] (the global) and [double] (the literals, and
    [s_scale_factor + MIN_SCALE]); one type [F] stands for both, and the
    theorems hold for any choice of the operations. *)
Class FloatOps (F : Type) := {
  f_lit : Q -> F;
  fadd : F -> F -> F;
  fge : F -> F -> bool;
  fle : F -> F -> bool;
  f_to_number : F -> GTransformNumber
}.

Definition MAX_SCALE : Q := 3 # 2.
Definition MIN_SCALE : Q := 1 # 2.

(** Exact rational arithmetic: an idealised float, used to evaluate
    examples. *)
#[export] Instance ExactFloat : FloatOps Q := {
  f_lit q := q;
  fadd := Qplus;
  fge a b := Qle_bool b a;
  fle := Qle_bool;
  f_to_number := GTransformNumberFromQ
}.

(** ** State *)

(** The [static] globals of the demo that the handlers change; [uint8_t]
    and [int16_t]/[int32_t] fields are kept in their ranges by the code's
    conversions. *)
Record DemoState (F : Type) := mkDemoState {
  s_scale_factor : F;
  s_scale_up : bool;
  s_scale_pause_count : Z;
  s_seconds_index : Z;
  s_seconds_count : Z;
  s_center : Point.GPoint;
  s_sun_distance : Z;
  s_sun_radius : Z;
  s_earth_angle : Z;
  s_earth_radius : Z;
  s_earth_distance : Z;
  s_moon_angle : Z;
  s_moon_radius : Z;
  s_moon_distance : Z
}.
Arguments mkDemoState {F}.
Arguments s_scale_factor {F}.
Arguments s_scale_up {F}.
Arguments s_scale_pause_count {F}.
Arguments s_seconds_index {F}.
Arguments s_seconds_count {F}.
Arguments s_center {F}.
Arguments s_sun_distance {F}.
Arguments s_sun_radius {F}.
Arguments s_earth_angle {F}.
Arguments s_earth_radius {F}.
Arguments s_earth_distance {F}.
Arguments s_moon_angle {F}.
Arguments s_moon_radius {F}.
Arguments s_moon_distance {F}.

(** The drawing calls of [frame_handler], with their arguments.  The
    radius parameter of the SDK's circle functions is a [uint16_t]. *)
Inductive GColor := GColorBlack | GColorWhite.

Inductive DrawCmd :=
| SetFillColor (c : GColor)
| SetStrokeColor (c : GColor)
| FillRootBounds
| DrawPixel (p : Point.GPoint)
| FillCircle (p : Point.GPoint) (radius : Z)
| DrawCircle (p : Point.GPoint) (radius : Z)
| DrawLine (p0 p1 : Point.GPoint).

(** ** [init] *)

Section Demo.
Context {F : Type} `{FloatOps F}.

(** [init], for the centre [grect_center_point] of the root layer. *)
Definition init (center : Point.GPoint) : DemoState F :=
  mkDemoState (f_lit 1) true 0 0 0 center SUN_DIST_OFFSET SUN_RADIUS
              0 EARTH_RADIUS EARTH_DIST_OFFSET 0 MOON_RADIUS MOON_DIST_OFFSET.

(** ** [time_handler] *)

Definition set_seconds (st : DemoState F) (index count : Z) : DemoState F :=
  mkDemoState (s_scale_factor st) (s_scale_up st) (s_scale_pause_count st) index count
              (s_center st) (s_sun_distance st) (s_sun_radius st) (s_earth_angle st)
              (s_earth_radius st) (s_earth_distance st) (s_moon_angle st)
              (s_moon_radius st) (s_moon_distance st).

(** [if (++s_seconds_count > 6) { s_seconds_index = (s_seconds_index + 1) % 3;
    s_seconds_count = 0; }] on [uint8_t] globals. *)
Definition time_handler (st : DemoState F) : DemoState F :=
  let count := wrapu 8 (s_seconds_count st + 1) in
  if count >? 6 then set_seconds st (wrapu 8 (Z.rem (s_seconds_index st + 1) 3)) 0
  else set_seconds st (s_seconds_index st) count.

(** ** [frame_handler] *)

(** The scale animation at the top of [frame_handler]: the new
    [s_scale_factor], [s_scale_up] and [s_scale_pause_count]. *)
Definition scale_step (factor : F) (up : bool) (pause : Z) : F * bool * Z :=
  if pause <? FRAME_RATE * 2 then (factor, up, wrapu 8 (pause + 1))
  else
    let factor' := fadd factor (f_lit (if up then 1 # 20 else - 1 # 20)) in
    if fge factor' (f_lit MAX_SCALE) then (factor', false, 0)
    else if fle factor' (f_lit MIN_SCALE) then (factor', true, 0)
    else (factor', up, FRAME_RATE * 2).

(** The loop [for (int index = 0; index < NUM_STARS; index++)] of
    [draw_star_background], from [index] on, with [fuel] iterations at
    most: the drawing calls it makes, or [None] when it reads [stars[index]]
    past the end of the table (undefined in C) or runs out of fuel.
    [star_loop_terminates] shows that neither happens. *)
Fixpoint star_loop (fuel : nat) (ts : Tr.GTransform) (seconds_index index : Z)
  : option (list DrawCmd) :=
  match fuel with
  | O => None
  | S fuel' =>
      if index <? NUM_STARS then
        if negb (Z.rem index 3 =? Z.rem seconds_index 3) then
          match nth_error stars (Z.to_nat index) with
          | Some star =>
              option_map (cons (DrawPixel (GPointFromGPointPrecise (gpoint_transform star (Some ts)))))
                         (star_loop fuel' ts seconds_index (index + 1))
          | None => None
          end
        else star_loop fuel' ts seconds_index (index + 1)
      else Some []
  end.

(** [draw_star_background]: the stroke colour, then the loop's calls. *)
Definition draw_star_background (factor : F) (seconds_index : Z) : list DrawCmd :=
  let sf := f_to_number (fadd factor (f_lit MIN_SCALE)) in
  let ts := GTransformScale sf sf in
  SetStrokeColor GColorWhite
    :: match star_loop (S (Z.to_nat NUM_STARS)) ts seconds_index 0 with
       | Some cmds => cmds
       | None => []
       end.

(** [GVectorFromGVectorPrecise(gvector_transform(GVector(0, v), &ts)).dy]. *)
Definition scaled_length (ts : Tr.GTransform) (v : Z) : Z :=
  Vector.dy (GVectorFromGVectorPrecise (gvector_transform (Vector.mk_GVector 0 v) (Some ts))).

(** The new orbit angle: [(angle + offset) % TRIG_MAX_ANGLE] in [int]. *)
Definition orbit_step (angle offset : Z) : Z := Z.rem (wrap 32 (angle + offset)) TRIG_MAX_ANGLE.

(** [GPointFromGPointPrecise(gpoint_transform(GPoint(0, -distance),
    &t_concat))] after [tr = GTransformRotation(angle)], [tt =
    GTransformTranslationFromNumber(center.x, center.y)] and
    [gtransform_concat(&t_concat, &tr, &tt)] on the locals
    ([Calls.concat_locals]); also returns the new [t_concat], which the
    moon's call finds there. *)
Definition orbit_point `{TrigLookup} (center : Point.GPoint) (angle distance : Z)
    (t_concat : Tr.GTransform) : Point.GPoint * Tr.GTransform :=
  let tr := GTransformRotation angle in
  let tt := GTransformTranslationFromNumber (Point.x center) (Point.y center) in
  let t_concat' := concat_locals tr tt t_concat in
  (GPointFromGPointPrecise (gpoint_transform (Point.mk_GPoint 0 (- distance)) (Some t_concat')),
   t_concat').

(** The contents of the uninitialised local [GTransform t_concat] before
    its first use; [concat_locals_mul] shows that no result depends on it. *)
Definition t_concat_indeterminate : Tr.GTransform := GTransformIdentity.

Context `{TrigLookup}.

(** [frame_handler]: the new state and the drawing calls, in order. *)
Definition frame_handler (st : DemoState F) : DemoState F * list DrawCmd :=
  let '(factor, up, pause) :=
    scale_step (s_scale_factor st) (s_scale_up st) (s_scale_pause_count st) in
  let stars_cmds := draw_star_background factor (s_seconds_index st) in
  let sf := f_to_number factor in
  let ts := GTransformScale sf sf in
  let center := s_center st in
  let tt := GTransformTranslationFromNumber (Point.x center) (Point.y center) in
  let sun_radius := scaled_length ts SUN_RADIUS in
  let sun_point :=
    GPointFromGPointPrecise (gpoint_transform (Point.mk_GPoint 0 (s_sun_distance st)) (Some tt)) in
  let earth_radius := scaled_length ts EARTH_RADIUS in
  let earth_distance := scaled_length ts EARTH_DIST_OFFSET in
  let earth_angle := orbit_step (s_earth_angle st) EARTH_ANGLE_OFFSET in
  let earth := orbit_point center earth_angle earth_distance t_concat_indeterminate in
  let earth_point := fst earth in
  let moon_radius := scaled_length ts MOON_RADIUS in
  let moon_distance := scaled_length ts MOON_DIST_OFFSET in
  let moon_angle := orbit_step (s_moon_angle st) MOON_ANGLE_OFFSET in
  let moon_point := fst (orbit_point earth_point moon_angle moon_distance (snd earth)) in
  (mkDemoState factor up pause (s_seconds_index st) (s_seconds_count st) center
               (s_sun_distance st) sun_radius earth_angle earth_radius earth_distance
               moon_angle moon_radius moon_distance,
   [SetFillColor GColorBlack; FillRootBounds] ++ stars_cmds ++
   [SetFillColor GColorWhite; FillCircle sun_point (wrapu 16 sun_radius);
    FillCircle earth_point (wrapu 16 earth_radius);
    FillCircle moon_point (wrapu 16 moon_radius);
    DrawCircle earth_point (wrapu 16 moon_distance);
    DrawCircle sun_point (wrapu 16 earth_distance);
    SetStrokeColor GColorWhite;
    DrawLine sun_point earth_point; DrawLine earth_point moon_point]).

(** ** The app as a step relation

    From [init], the SDK calls [time_handler] once a second and
    [frame_handler] once a frame, in an order the model leaves free. *)
Inductive reachable (center : Point.GPoint) : DemoState F -> Prop :=
| reach_init : reachable center (init center)
| reach_tick st : reachable center st -> reachable center (time_handler st)
| reach_frame st : reachable center st -> reachable center (fst (frame_handler st)).

(** The invariant of the app's integer state. *)
Definition demo_inv (center : Point.GPoint) (st : DemoState F) : Prop :=
  0 <= s_scale_pause_count st <= FRAME_RATE * 2
  /\ 0 <= s_seconds_index st < 3 /\ 0 <= s_seconds_count st <= 6
  /\ - TRIG_MAX_ANGLE < s_earth_angle st <= 0
  /\ - TRIG_MAX_ANGLE < s_moon_angle st <= 0
  /\ s_center st = center /\ s_sun_distance st = SUN_DIST_OFFSET.
End Demo.

(** ** Facts *)

Lemma angle_offsets : EARTH_ANGLE_OFFSET = -728 /\ MOON_ANGLE_OFFSET = -1638.
Proof. split; reflexivity. Qed.

(** One orbit step on a non-positive angle, as a modulus. *)
Lemma orbit_step_mod (a k : Z) :
  - TRIG_MAX_ANGLE < a <= 0 -> 0 <= k < TRIG_MAX_ANGLE ->
  orbit_step a (- k) = - ((- a + k) mod TRIG_MAX_ANGLE).
Proof.
  unfold orbit_step, TRIG_MAX_ANGLE. intros Ha Hk.
  rewrite wrap_small by (unfold in_range; cint_consts; lia).
  replace (a + - k) with (- (- a + k)) by lia.
  rewrite Z.rem_opp_l, Z.rem_mod_nonneg by lia. reflexivity.
Qed.

Lemma orbit_step_range (a k : Z) :
  - TRIG_MAX_ANGLE < a <= 0 -> 0 <= k < TRIG_MAX_ANGLE ->
  - TRIG_MAX_ANGLE < orbit_step a (- k) <= 0.
Proof.
  intros Ha Hk. rewrite orbit_step_mod by assumption.
  pose proof (Z.mod_pos_bound (- a + k) TRIG_MAX_ANGLE). unfold TRIG_MAX_ANGLE in *. lia.
Qed.

Section DemoFacts.
Context {F : Type} `{FloatOps F}.

Lemma scale_step_pause (factor : F) (up : bool) (pause : Z) :
  0 <= pause <= FRAME_RATE * 2 ->
  0 <= snd (scale_step factor up pause) <= FRAME_RATE * 2.
Proof.
  unfold scale_step, FRAME_RATE. intros Hp.
  destruct (Z.ltb_spec pause (20 * 2)) as [Hlt | Hge].
  - cbn [snd]. rewrite wrapu_small by (cint_consts; lia). lia.
  - destruct (fge _ _); [cbn; lia |]. destruct (fle _ _); cbn; lia.
Qed.

(** [time_handler] advances the phase [7 * index + count] by one, modulo
    21. *)
Lemma time_handler_phase (st : DemoState F) :
  0 <= s_seconds_index st < 3 -> 0 <= s_seconds_count st <= 6 ->
  let st' := time_handler st in
  0 <= s_seconds_index st' < 3 /\ 0 <= s_seconds_count st' <= 6
  /\ 7 * s_seconds_index st' + s_seconds_count st'
     = (7 * s_seconds_index st + s_seconds_count st + 1) mod 21.
Proof.
  intros Hi Hc st'. subst st'. unfold time_handler.
  rewrite (wrapu_small 8 (s_seconds_count st + 1)) by (cint_consts; lia).
  destruct (Z.gtb_spec (s_seconds_count st + 1) 6); cbn [set_seconds s_seconds_index s_seconds_count].
  - assert (s_seconds_count st = 6) as -> by lia.
    assert (s_seconds_index st = 0 \/ s_seconds_index st = 1 \/ s_seconds_index st = 2)
      as [-> | [-> | ->]] by lia; cbv -[Z.le Z.lt]; lia.
  - rewrite Z.mod_small by lia. lia.
Qed.

Lemma time_handler_state (st : DemoState F) :
  let st' := time_handler st in
  s_scale_factor st' = s_scale_factor st /\ s_scale_up st' = s_scale_up st
  /\ s_scale_pause_count st' = s_scale_pause_count st
  /\ s_center st' = s_center st /\ s_sun_distance st' = s_sun_distance st
  /\ s_earth_angle st' = s_earth_angle st /\ s_moon_angle st' = s_moon_angle st.
Proof. unfold time_handler. destruct (_ >? 6); repeat split. Qed.

Context `{TrigLookup}.

Lemma frame_handler_state (st : DemoState F) :
  let st' := fst (frame_handler st) in
  (s_scale_factor st', s_scale_up st', s_scale_pause_count st')
    = scale_step (s_scale_factor st) (s_scale_up st) (s_scale_pause_count st)
  /\ s_seconds_index st' = s_seconds_index st /\ s_seconds_count st' = s_seconds_count st
  /\ s_center st' = s_center st /\ s_sun_distance st' = s_sun_distance st
  /\ s_earth_angle st' = orbit_step (s_earth_angle st) EARTH_ANGLE_OFFSET
  /\ s_moon_angle st' = orbit_step (s_moon_angle st) MOON_ANGLE_OFFSET.
Proof.
  unfold frame_handler. destruct (scale_step _ _ _) as [[f u] p]. repeat split.
Qed.
End DemoFacts.

Section DemoTheorems.
Context {F : Type} `{FloatOps F} `{TrigLookup}.

Lemma demo_inv_init (c : Point.GPoint) : demo_inv c (init c).
Proof. unfold demo_inv, init, FRAME_RATE, TRIG_MAX_ANGLE. cbn. repeat split; lia. Qed.

Lemma demo_inv_tick (c : Point.GPoint) (st : DemoState F) :
  demo_inv c st -> demo_inv c (time_handler st).
Proof.
  intros (Hp & Hi & Hc & He & Hm & Hcen & Hs).
  destruct (time_handler_state st) as (_ & _ & E3 & E4 & E5 & E6 & E7).
  destruct (time_handler_phase st Hi Hc) as (Pi & Pc & _).
  unfold demo_inv. rewrite E3, E4, E5, E6, E7. repeat split; try assumption; lia.
Qed.

Lemma demo_inv_frame (c : Point.GPoint) (st : DemoState F) :
  demo_inv c st -> demo_inv c (fst (frame_handler st)).
Proof.
  intros (Hp & Hi & Hc & He & Hm & Hcen & Hs).
  destruct (frame_handler_state st) as (E1 & E2 & E3 & E4 & E5 & E6 & E7).
  pose proof (scale_step_pause (s_scale_factor st) (s_scale_up st) _ Hp) as P.
  rewrite <- E1 in P. cbn [snd] in P.
  destruct angle_offsets as [Oe Om].
  unfold demo_inv. rewrite E2, E3, E4, E5, E6, E7, Oe, Om.
  refine (conj P (conj Hi (conj Hc (conj _ (conj _ (conj Hcen Hs))))));
    [apply (orbit_step_range _ 728) | apply (orbit_step_range _ 1638)];
    unfold TRIG_MAX_ANGLE in *; lia.
Qed.

(** C27: in every state the app reaches, whatever the interleaving of
    seconds and frames and whatever the float arithmetic does, the pause
    counter stays within [0, 2 * FRAME_RATE] (so the [uint8_t] never
    wraps), the star phase within its cycle ([s_seconds_index < 3],
    [s_seconds_count <= 6]), both orbit angles within
    [(-TRIG_MAX_ANGLE, 0]] (so [s_earth_angle + EARTH_ANGLE_OFFSET] never
    overflows), and the centre and the sun's distance keep their initial
    values. *)
Theorem reachable_demo_inv (c : Point.GPoint) (st : DemoState F) :
  reachable c st -> demo_inv c st.
Proof.
  induction 1.
  - apply demo_inv_init.
  - apply demo_inv_tick; assumption.
  - apply demo_inv_frame; assumption.
Qed.

End DemoTheorems.

Lemma reachable_demo_inv_witness :
  let c := {| Point.x := 72; Point.y := 84 |} in
  reachable (F := Q) (H0 := QuarterTurnLookup) c (time_handler (init c))
  /\ demo_inv c (time_handler (F := Q) (init c)).
Proof.
  intros c.
  assert (R : reachable (F := Q) (H0 := QuarterTurnLookup) c (time_handler (init c)))
    by (apply reach_tick, reach_init).
  split; [exact R | apply (reachable_demo_inv c _ R)].
Defined.

(** ** Behaviour of the handlers *)

Definition is_pixel (cmd : DrawCmd) : bool :=
  match cmd with DrawPixel _ => true | _ => false end.

Section DemoBehaviour.
Context {F : Type} `{FloatOps F} `{TrigLookup}.

(** [n] calls of [time_handler] advance the phase by [n], modulo 21. *)
Lemma iter_time_phase (st : DemoState F) (n : nat) :
  0 <= s_seconds_index st < 3 -> 0 <= s_seconds_count st <= 6 ->
  let st' := Nat.iter n time_handler st in
  0 <= s_seconds_index st' < 3 /\ 0 <= s_seconds_count st' <= 6
  /\ 7 * s_seconds_index st' + s_seconds_count st'
     = (7 * s_seconds_index st + s_seconds_count st + Z.of_nat n) mod 21.
Proof.
  intros Hi0 Hc0. induction n as [| n IH]; cbn zeta in *.
  - change (Nat.iter 0 time_handler st) with st. change (Z.of_nat 0) with 0. rewrite Z.add_0_r, Z.mod_small by lia. lia.
  - destruct IH as (Hi & Hc & E). rewrite Nat.iter_succ.
    destruct (time_handler_phase _ Hi Hc) as (Pi & Pc & P).
    refine (conj Pi (conj Pc _)). rewrite P, E, Nat2Z.inj_succ, <- Z.add_1_r, Z.add_mod_idemp_l by lia.
    f_equal. lia.
Qed.

(** Counted from [init], after [n] calls of [time_handler] (seconds)
    the star phase [s_seconds_index] is [(n mod 21) / 7] and
    [s_seconds_count] is [n mod 7]: the star background changes every 7
    seconds and cycles through three phases, as the comment of
    [time_handler] says. *)
Theorem ticks_star_phase (c : Point.GPoint) (n : nat) :
  let st := Nat.iter n time_handler (init (F := F) c) in
  s_seconds_index st = (Z.of_nat n mod 21) / 7 /\ s_seconds_count st = Z.of_nat n mod 7.
Proof.
  cbv zeta. destruct (iter_time_phase (init c) n) as (Hi & Hc & E); [cbn; lia | cbn; lia |].
  cbn [init s_seconds_index s_seconds_count] in E. Z.div_mod_to_equations. split; lia.
Qed.

Lemma star_loop_rem (fuel : nat) (ts : Tr.GTransform) (sidx i : Z) :
  star_loop fuel ts sidx i = star_loop fuel ts (Z.rem sidx 3) i.
Proof.
  revert i. induction fuel as [| fuel IH]; intros i; [reflexivity |].
  cbn [star_loop]. rewrite Z.rem_rem, IH by lia. reflexivity.
Qed.

(** Once the fuel exceeds the number of iterations left, [NUM_STARS -
    index], the loop exits with its calls, reading only within the table. *)
Lemma star_loop_exits (fuel : nat) (ts : Tr.GTransform) (sidx index : Z) :
  0 <= index -> (Z.to_nat (NUM_STARS - index) < fuel)%nat ->
  exists cmds, star_loop fuel ts sidx index = Some cmds.
Proof.
  revert index. induction fuel as [| fuel IH]; intros index Hi0 Hf; [lia |].
  cbn [star_loop]. destruct (Z.ltb_spec index NUM_STARS) as [Hlt | _]; [| eauto].
  destruct (IH (index + 1)) as [cmds E]; [lia | unfold NUM_STARS in *; lia |].
  rewrite E. destruct (negb _); [| eauto].
  destruct (nth_error stars (Z.to_nat index)) as [star |] eqn:En; [cbn; eauto |].
  exfalso. refine (proj2 (nth_error_Some stars (Z.to_nat index)) _ En).
  change (length stars) with 60%nat. unfold NUM_STARS in Hlt. lia.
Qed.

(** Beyond the iterations left, more fuel changes nothing. *)
Lemma star_loop_fuel_irrel (f1 f2 : nat) (ts : Tr.GTransform) (sidx index : Z) :
  (Z.to_nat (NUM_STARS - index) < f1)%nat -> (Z.to_nat (NUM_STARS - index) < f2)%nat ->
  star_loop f1 ts sidx index = star_loop f2 ts sidx index.
Proof.
  revert f2 index. induction f1 as [| f1 IH]; intros f2 index H1 H2; [lia |].
  destruct f2 as [| f2]; [lia |]. cbn [star_loop].
  destruct (Z.ltb_spec index NUM_STARS) as [Hlt | _]; [| reflexivity].
  rewrite (IH f2 (index + 1)) by lia. reflexivity.
Qed.

(** C30: each frame [draw_star_background] draws exactly 40 of the 60
    stars (every star whose index is not [s_seconds_index] modulo 3), and
    which ones depends only on [s_seconds_index mod 3]. *)
Theorem draw_star_background_count (factor : F) (sidx : Z) :
  0 <= sidx ->
  length (filter is_pixel (draw_star_background factor sidx)) = 40%nat
  /\ draw_star_background factor sidx = draw_star_background factor (Z.rem sidx 3).
Proof.
  intros Hs. unfold draw_star_background. rewrite (star_loop_rem _ _ sidx).
  split; [| rewrite (star_loop_rem _ _ (Z.rem sidx 3)), Z.rem_rem by lia; reflexivity].
  pose proof (Z.rem_bound_pos sidx 3 Hs ltac:(lia)).
  assert (Z.rem sidx 3 = 0 \/ Z.rem sidx 3 = 1 \/ Z.rem sidx 3 = 2) as [-> | [-> | ->]] by lia;
    reflexivity.
Qed.
(** C29: the [for] loop of [draw_star_background] terminates without a
    read past the star table: from [index = 0], with more fuel than its
    [NUM_STARS] iterations, it exits with its drawing calls; and those are
    the calls of the model's [draw_star_background]. *)
Theorem star_loop_terminates (factor : F) (sidx : Z) (fuel : nat) :
  (Z.to_nat NUM_STARS < fuel)%nat ->
  let sf := f_to_number (fadd factor (f_lit MIN_SCALE)) in
  exists cmds, star_loop fuel (GTransformScale sf sf) sidx 0 = Some cmds
          /\ draw_star_background factor sidx = SetStrokeColor GColorWhite :: cmds.
Proof.
  intros Hf sf.
  destruct (star_loop_exits fuel (GTransformScale sf sf) sidx 0) as [cmds E]; [lia | exact Hf |].
  exists cmds. split; [exact E |].
  unfold draw_star_background. cbv zeta. subst sf.
  rewrite (star_loop_fuel_irrel _ fuel) by (cbn in *; lia). rewrite E. reflexivity.
Qed.
End DemoBehaviour.

Lemma star_loop_terminates_witness :
  (Z.to_nat NUM_STARS < 100)%nat
  /\ let sf := f_to_number (fadd (F := Q) (1 # 1) (f_lit MIN_SCALE)) in
     exists cmds, star_loop 100 (GTransformScale sf sf) 1 0 = Some cmds
             /\ draw_star_background (F := Q) (1 # 1) 1 = SetStrokeColor GColorWhite :: cmds.
Proof.
  assert (H : (Z.to_nat NUM_STARS < 100)%nat) by (unfold NUM_STARS; lia).
  split; [exact H | exact (star_loop_terminates (F := Q) (1 # 1) 1 100 H)].
Defined.

Lemma draw_star_background_count_witness :
  0 <= 4 /\ length (filter is_pixel (draw_star_background (F := Q) (1 # 1) 4)) = 40%nat.
Proof. split; [lia | apply (draw_star_background_count (F := Q) (1 # 1) 4); lia]. Defined.

Section DemoFrames.
Context {F : Type} `{FloatOps F} `{TrigLookup}.

(** [n] frames. *)
Definition frames (n : nat) (st : DemoState F) : DemoState F :=
  Nat.iter n (fun s => fst (frame_handler s)) st.

(** In every reachable state, the next frame fills the sun's circle at
    the centre of the screen, wrapped into the 13-bit window of
    [GPointPrecise] (the identity for any real screen centre), with the new
    sun radius: [GPoint(0, s_sun_distance)] translated by the centre is
    exact. *)
Theorem frame_draws_sun_at_center (c : Point.GPoint) (st : DemoState F) :
  reachable c st ->
  In (FillCircle {| Point.x := wrap 13 (Point.x c); Point.y := wrap 13 (Point.y c) |}
                 (wrapu 16 (s_sun_radius (fst (frame_handler st)))))
     (snd (frame_handler st)).
Proof.
  intros R. destruct (reachable_demo_inv c st R) as (_ & _ & _ & _ & _ & Hcen & Hs).
  unfold frame_handler. destruct (scale_step _ _ _) as [[f u] p]. cbn [fst snd s_sun_radius].
  apply in_or_app; right. apply in_or_app; right. right; left.
  rewrite translate_exact, Hs, Hcen. reflexivity.
Qed.

(** The earth's position when its angle is 0: the rotation is the
    identity, the concatenation on the locals gives the translation, and
    the translation of [GPoint(0, -distance)] is exact. *)
Lemma orbit_point_angle0 (center : Point.GPoint) (d : Z) (t_concat : Tr.GTransform) :
  fst (orbit_point center 0 d t_concat)
  = {| Point.x := wrap 13 (Point.x center); Point.y := wrap 13 (Point.y center - d) |}.
Proof.
  unfold orbit_point. cbn [fst]. rewrite concat_locals_mul.
  change (GTransformRotation 0) with GTransformIdentity.
  rewrite mul_identity_l by (unfold GTransformTranslationFromNumber; auto with cint).
  rewrite translate_exact. cbn [Point.mk_GPoint Point.x Point.y].
  change (wrap 16 0) with 0.
  rewrite Z.add_0_l, wrap_wrap_add_le, Z.add_comm by lia. reflexivity.
Qed.

(** C31: the demo composes the library's parts as intended.  In any
    frame that brings the earth's angle back to 0, whatever the float
    arithmetic, the trigonometric table and the uninitialised contents of
    [t_concat], the earth's circle is filled straight above the centre, at
    the new orbit distance: [GTransformRotation(0)], concatenated with the
    translation to the centre by [gtransform_concat] on the locals and
    applied to [GPoint(0, -distance)], is an exact translation. *)
Theorem frame_draws_earth_at_angle0 (st : DemoState F) :
  let st' := fst (frame_handler st) in
  s_earth_angle st' = 0 ->
  In (FillCircle {| Point.x := wrap 13 (Point.x (s_center st));
                    Point.y := wrap 13 (Point.y (s_center st) - s_earth_distance st') |}
                 (wrapu 16 (s_earth_radius st')))
     (snd (frame_handler st)).
Proof.
  cbv zeta. intros E0. destruct (frame_handler_state st) as (_ & _ & _ & _ & _ & E6 & _).
  rewrite E6 in E0. unfold frame_handler in *. destruct (scale_step _ _ _) as [[f u] p].
  cbn [fst snd s_earth_radius s_earth_distance] in *.
  apply in_or_app; right. apply in_or_app; right. right; right; left.
  rewrite E0, orbit_point_angle0. reflexivity.
Qed.

Lemma frames_S (n : nat) (st : DemoState F) :
  frames (S n) st = fst (frame_handler (frames n st)).
Proof. reflexivity. Qed.

(** While the pause counter is below [2 * FRAME_RATE], each frame only
    counts it up. *)
Lemma frames_pause (st : DemoState F) (k : nat) :
  0 <= s_scale_pause_count st -> s_scale_pause_count st + Z.of_nat k <= FRAME_RATE * 2 ->
  let st' := frames k st in
  s_scale_factor st' = s_scale_factor st /\ s_scale_up st' = s_scale_up st
  /\ s_scale_pause_count st' = s_scale_pause_count st + Z.of_nat k.
Proof.
  intros Hp0 Hk. cbv zeta. induction k as [| k IH]; [change (frames 0 st) with st; repeat split; lia |].
  destruct IH as (E1 & E2 & E3); [lia |].
  rewrite frames_S.
  destruct (frame_handler_state (frames k st)) as (S & _).
  unfold scale_step in S. rewrite E3 in S.
  destruct (Z.ltb_spec (s_scale_pause_count st + Z.of_nat k) (FRAME_RATE * 2)) as [_ | Hge];
    [| unfold FRAME_RATE in *; lia].
  injection S as -> -> ->. rewrite wrapu_small by (unfold FRAME_RATE in *; cint_consts; lia).
  repeat split; [assumption | assumption | lia].
Qed.

(** C32: after the pause counter is reset (at start-up and at each switch
    of scale direction) the scale factor stays frozen for exactly
    [2 * FRAME_RATE] = 40 frames, two seconds, as the comment in
    [frame_handler] says; the 41st frame moves it by 0.05 in the current
    direction. *)
Theorem scale_pause_two_seconds (st : DemoState F) :
  s_scale_pause_count st = 0 ->
  (forall k, (k <= 40)%nat -> s_scale_factor (frames k st) = s_scale_factor st)
  /\ s_scale_factor (frames 41 st)
     = fadd (s_scale_factor st) (f_lit (if s_scale_up st then 1 # 20 else - 1 # 20)).
Proof.
  intros Hp0. split; [intros k Hk; apply (frames_pause st k); unfold FRAME_RATE; lia |].
  destruct (frames_pause st 40) as (E1 & E2 & E3); [unfold FRAME_RATE; lia .. |].
  rewrite Hp0 in E3.
  rewrite frames_S. generalize dependent (frames 40 st). intros s40 E1 E2 E3.
  destruct (frame_handler_state s40) as (S & _).
  unfold scale_step in S. rewrite E1, E2, E3 in S.
  change (Z.of_nat 40 <? FRAME_RATE * 2) with false in S. cbv beta iota zeta in S.
  destruct (fge _ _); [| destruct (fle _ _)]; injection S as -> _ _; reflexivity.
Qed.

(** One orbit after [n] frames, counted from the start angle 0. *)
Lemma orbit_after (k : Z) (n : nat) (angle : nat -> Z) :
  0 <= k < TRIG_MAX_ANGLE -> angle O = 0 ->
  (forall m, angle (S m) = orbit_step (angle m) (- k)) ->
  angle n = - ((k * Z.of_nat n) mod TRIG_MAX_ANGLE).
Proof.
  intros Hk Hz HS. induction n as [| n IH]; [rewrite Hz, Z.mul_0_r; reflexivity |].
  rewrite HS, IH, orbit_step_mod.
  - rewrite Z.opp_involutive, Z.add_mod_idemp_l, Nat2Z.inj_succ by (unfold TRIG_MAX_ANGLE; lia).
    f_equal. f_equal. lia.
  - pose proof (Z.mod_pos_bound (k * Z.of_nat n) TRIG_MAX_ANGLE). unfold TRIG_MAX_ANGLE in *. lia.
  - exact Hk.
Qed.

(** C33: counted from [init], after [n] frames the earth's orbit angle is
    [-(728 * n mod TRIG_MAX_ANGLE)] and the moon's
    [-(1638 * n mod TRIG_MAX_ANGLE)]: each frame turns the earth by
    [DEG_TO_TRIG_ANGLE(90 / FRAME_RATE)] = 728 (4 degrees, the integer
    division drops the half degree) and the moon by 1638 (9 degrees),
    clockwise, and the [%] keeps the angle in one turn. *)
Theorem frames_orbit_angles (c : Point.GPoint) (n : nat) :
  s_earth_angle (frames n (init c)) = - ((728 * Z.of_nat n) mod TRIG_MAX_ANGLE)
  /\ s_moon_angle (frames n (init c)) = - ((1638 * Z.of_nat n) mod TRIG_MAX_ANGLE).
Proof.
  destruct angle_offsets as [Oe Om].
  split; apply (orbit_after _ n (fun m => _ (frames m (init c))));
    try (unfold TRIG_MAX_ANGLE; lia); try reflexivity; intros m; rewrite frames_S;
    destruct (frame_handler_state (frames m (init c))) as (_ & _ & _ & _ & _ & E6 & E7);
    [rewrite E6, Oe | rewrite E7, Om]; reflexivity.
Qed.
(** C28: the app never stalls.  From every reachable state, within 40
    frames the pause counter reaches [2 * FRAME_RATE], so that the next
    frame moves the scale factor, and within 7 seconds [time_handler]
    changes the star phase. *)
Theorem demo_progress (c : Point.GPoint) (st : DemoState F) :
  reachable c st ->
  (exists k, (k <= 40)%nat /\ s_scale_pause_count (frames k st) = FRAME_RATE * 2)
  /\ (exists k, (1 <= k <= 7)%nat
                /\ s_seconds_index (Nat.iter k time_handler st) <> s_seconds_index st).
Proof.
  intros R. destruct (reachable_demo_inv c st R) as (Hp & Hi & Hc & _).
  unfold FRAME_RATE in *. split.
  - exists (Z.to_nat (40 - s_scale_pause_count st)). split; [lia |].
    destruct (frames_pause st (Z.to_nat (40 - s_scale_pause_count st))) as (_ & _ & E);
      unfold FRAME_RATE; [lia .. |]. lia.
  - exists (Z.to_nat (7 - s_seconds_count st)). split; [lia |].
    destruct (iter_time_phase st (Z.to_nat (7 - s_seconds_count st)) Hi Hc) as (Pi & Pc & P).
    rewrite Z2Nat.id in P by lia. Z.div_mod_to_equations. lia.
Qed.
End DemoFrames.

Lemma frame_draws_sun_at_center_witness :
  let c := {| Point.x := 72; Point.y := 84 |} in
  reachable (F := Q) (H0 := QuarterTurnLookup) c (init c)
  /\ In (FillCircle c (wrapu 16 (s_sun_radius (fst (frame_handler (H0 := QuarterTurnLookup) (init c))))))
        (snd (frame_handler (F := Q) (H0 := QuarterTurnLookup) (init c))).
Proof.
  intros c. split; [apply reach_init |].
  exact (frame_draws_sun_at_center (H0 := QuarterTurnLookup) c (init c) (reach_init c)).
Defined.

Lemma frame_draws_earth_at_angle0_witness :
  let st := mkDemoState (F := Q) (1 # 1) true 0 0 0 {| Point.x := 72; Point.y := 84 |}
              SUN_DIST_OFFSET SUN_RADIUS 728 EARTH_RADIUS EARTH_DIST_OFFSET 0
              MOON_RADIUS MOON_DIST_OFFSET in
  let st' := fst (frame_handler (H0 := QuarterTurnLookup) st) in
  s_earth_angle st' = 0
  /\ In (FillCircle {| Point.x := wrap 13 (Point.x (s_center st));
                       Point.y := wrap 13 (Point.y (s_center st) - s_earth_distance st') |}
                    (wrapu 16 (s_earth_radius st')))
        (snd (frame_handler (H0 := QuarterTurnLookup) st)).
Proof.
  intros st st'. assert (E : s_earth_angle st' = 0) by (vm_compute; reflexivity).
  split; [exact E |].
  exact (frame_draws_earth_at_angle0 (H0 := QuarterTurnLookup) st E).
Defined.

Lemma scale_pause_two_seconds_witness :
  let st := init (F := Q) {| Point.x := 72; Point.y := 84 |} in
  s_scale_pause_count st = 0
  /\ s_scale_factor (frames (H0 := QuarterTurnLookup) 41 st) = fadd (s_scale_factor st) (1 # 20).
Proof.
  intros st. split; [reflexivity |].
  exact (proj2 (scale_pause_two_seconds (H0 := QuarterTurnLookup) st eq_refl)).
Defined.

Lemma demo_progress_witness :
  let c := {| Point.x := 72; Point.y := 84 |} in
  reachable (F := Q) (H0 := QuarterTurnLookup) c (init c)
  /\ exists k, (k <= 40)%nat
     /\ s_scale_pause_count (frames (F := Q) (H0 := QuarterTurnLookup) k (init c)) = FRAME_RATE * 2.
Proof.
  intros c. split; [apply reach_init |].
  exact (proj1 (demo_progress (H0 := QuarterTurnLookup) c (init c) (reach_init c))).
Defined.
