(* ===== verification/Sdk.v ===== *)
(** * Sdk: the Pebble SDK calls the demo app makes, as a state machine

    [src/test_gtransform.c] talks to the Pebble SDK through handles:
    [window_create] returns a [Window *], [layer_create] a [Layer *],
    [app_timer_register] an [AppTimer *], and the SDK calls the app back
    through function pointers (the window's [load]/[unload] handlers, a
    layer's update procedure, a timer's callback, the tick handler).  The
    SDK is not part of the repository: this file models, from the SDK's
    documented behaviour, the part of it the demo uses.

    [Sdk] is the SDK's state: its objects by handle ([objs]), the window
    stack, the tick subscription and the drawing calls made so far
    ([gfx]).  The app's own globals are a type [G] of the client's; [SM G]
    is an option-state monad over both, whose failure is a call the SDK
    does not allow (a NULL or dangling handle, an object of the wrong
    kind): a crash or undefined behaviour on the watch.  A destroyed object
    is removed from [objs], so every use after destruction fails.

    The app's callbacks are the record [Callbacks G], the function pointers
    the app hands over; [dispatch] is one turn of [app_event_loop]: a timer
    fires, the top window is rendered, a second ticks, or the back button
    pops the window.  The app has one callback of each kind, so an object
    records only whether its callback is set. *)

From stdpp Require Import base gmap.
From Stdlib Require Import ZArith Lia List.
From S2P Require Import Prelude GTypes Demo.
Import ListNotations.
Open Scope Z_scope.

Definition handle := positive.

(** [GSize] and [GRect] of the SDK ([int16_t] fields). *)
Record GSize := mk_GSize { gs_w : Z; gs_h : Z }.
Record GRect := mk_GRect { origin : Point.GPoint; size : GSize }.

(** [grect_center_point]: [GPoint(origin.x + size.w / 2, origin.y + size.h / 2)]. *)
Definition grect_center_point (r : GRect) : Point.GPoint :=
  {| Point.x := wrap 16 (Point.x (origin r) + Z.quot (gs_w (size r)) 2);
     Point.y := wrap 16 (Point.y (origin r) + Z.quot (gs_h (size r)) 2) |}.

(** An object of the SDK behind a handle. *)
Inductive Obj :=
| OWindow (root : handle) (handlers : bool) (loaded : bool)
| OLayer (frame : GRect) (update_proc : bool) (dirty : bool)
         (parent : option handle) (children : list handle)
| OTimer (timeout_ms : Z).

Record Sdk := mkSdk {
  objs : gmap handle Obj;
  next_handle : handle;
  window_stack : list handle;
  tick_subscribed : bool;
  gfx : list DrawCmd
}.

Definition set_objs (o : gmap handle Obj) (k : Sdk) : Sdk :=
  mkSdk o (next_handle k) (window_stack k) (tick_subscribed k) (gfx k).
Definition set_next (n : handle) (k : Sdk) : Sdk :=
  mkSdk (objs k) n (window_stack k) (tick_subscribed k) (gfx k).
Definition set_stack (ws : list handle) (k : Sdk) : Sdk :=
  mkSdk (objs k) (next_handle k) ws (tick_subscribed k) (gfx k).
Definition set_ticks (b : bool) (k : Sdk) : Sdk :=
  mkSdk (objs k) (next_handle k) (window_stack k) b (gfx k).
Definition set_gfx (cs : list DrawCmd) (k : Sdk) : Sdk :=
  mkSdk (objs k) (next_handle k) (window_stack k) (tick_subscribed k) cs.

(** The SDK before the app starts: no object, nothing subscribed. *)
Definition sdk_boot : Sdk := mkSdk ∅ 1%positive [] false [].

(** ** The monad *)

Definition SM (G A : Type) : Type := Sdk * G -> option (A * (Sdk * G)).

Definition sret {G A : Type} (x : A) : SM G A := fun s => Some (x, s).
Definition sbind {G A B : Type} (m : SM G A) (k : A -> SM G B) : SM G B :=
  fun s => match m s with Some (x, s') => k x s' | None => None end.
Definition sfail {G A : Type} : SM G A := fun _ => None.

Declare Scope sdk_scope.
Delimit Scope sdk_scope with sdk.
Notation "'let@' x := m 'in' k" := (sbind m (fun x => k))
  (at level 10, x name, m at level 100, k at level 200) : sdk_scope.
Local Open Scope sdk_scope.

Section Prims.
Context {G : Type}.

Definition get_sdk : SM G Sdk := fun s => Some (fst s, s).
Definition modify_sdk (f : Sdk -> Sdk) : SM G unit := fun s => Some (tt, (f (fst s), snd s)).
Definition get_g : SM G G := fun s => Some (snd s, s).
Definition modify_g (f : G -> G) : SM G unit := fun s => Some (tt, (fst s, f (snd s))).

(** A fresh handle for a new object. *)
Definition alloc (o : Obj) : SM G handle :=
  let@ k := get_sdk in
  let h := next_handle k in
  let@ _ := modify_sdk (fun k => set_next (Pos.succ h) (set_objs (<[h := o]> (objs k)) k)) in
  sret h.

Definition put_obj (h : handle) (o : Obj) : SM G unit :=
  modify_sdk (fun k => set_objs (<[h := o]> (objs k)) k).
Definition del_obj (h : handle) : SM G unit :=
  modify_sdk (fun k => set_objs (delete h (objs k)) k).

(** The object behind a pointer: NULL and dangling handles fail. *)
Definition deref (p : option handle) : SM G (handle * Obj) :=
  let@ k := get_sdk in
  match p with
  | Some h => match objs k !! h with Some o => sret (h, o) | None => sfail end
  | None => sfail
  end.

Definition get_window (p : option handle) : SM G (handle * handle * bool * bool) :=
  let@ x := deref p in
  match x with (h, OWindow r hd ld) => sret (h, r, hd, ld) | _ => sfail end.

Definition get_layer (p : option handle)
  : SM G (handle * (GRect * bool * bool * option handle * list handle)) :=
  let@ x := deref p in
  match x with (h, OLayer fr up d par ch) => sret (h, (fr, up, d, par, ch)) | _ => sfail end.

(** ** The SDK calls of the demo *)

Definition window_set_window_handlers (w : option handle) : SM G unit :=
  let@ x := get_window w in
  let '(h, r, _, ld) := x in put_obj h (OWindow r true ld).

Definition window_get_root_layer (w : option handle) : SM G handle :=
  let@ x := get_window w in let '(_, r, _, _) := x in sret r.

Definition layer_get_frame (l : option handle) : SM G GRect :=
  let@ x := get_layer l in let '(_, (fr, _, _, _, _)) := x in sret fr.

(** The bounds are the frame moved to the origin. *)
Definition layer_get_bounds (l : option handle) : SM G GRect :=
  let@ fr := layer_get_frame l in
  sret (mk_GRect (Point.mk_GPoint 0 0) (size fr)).

Definition layer_create (frame : GRect) : SM G handle :=
  alloc (OLayer frame false false None []).

Definition layer_set_update_proc (l : option handle) : SM G unit :=
  let@ x := get_layer l in
  let '(h, (fr, _, d, par, ch)) := x in put_obj h (OLayer fr true d par ch).

Definition remove_handle (l : handle) (hs : list handle) : list handle :=
  List.filter (fun x => negb (Pos.eqb x l)) hs.

Definition layer_remove_from_parent (l : option handle) : SM G unit :=
  let@ x := get_layer l in
  let '(h, (fr, up, d, par, ch)) := x in
  match par with
  | None => sret tt
  | Some _ =>
      let@ y := get_layer par in
      let '(p, (pfr, pup, pd, ppar, pch)) := y in
      let@ _ := put_obj p (OLayer pfr pup pd ppar (remove_handle h pch)) in
      put_obj h (OLayer fr up d None ch)
  end.

(** The child is first removed from its old parent, then appended. *)
Definition layer_add_child (parent child : option handle) : SM G unit :=
  let@ _ := layer_remove_from_parent child in
  let@ x := get_layer child in
  let '(c, (fr, up, d, _, ch)) := x in
  let@ y := get_layer parent in
  let '(p, (pfr, pup, pd, ppar, pch)) := y in
  let@ _ := put_obj c (OLayer fr up d (Some p) ch) in
  put_obj p (OLayer pfr pup pd ppar (pch ++ [c])).

Definition layer_mark_dirty (l : option handle) : SM G unit :=
  let@ x := get_layer l in
  let '(h, (fr, up, _, par, ch)) := x in put_obj h (OLayer fr up true par ch).

Definition layer_destroy (l : option handle) : SM G unit :=
  let@ _ := layer_remove_from_parent l in
  let@ x := get_layer l in del_obj (fst x).

(** [app_timer_register] (allocation is assumed to succeed). *)
Definition app_timer_register (timeout_ms : Z) : SM G handle := alloc (OTimer timeout_ms).

Definition app_timer_cancel (t : option handle) : SM G unit :=
  let@ x := deref t in
  match x with (h, OTimer _) => del_obj h | _ => sfail end.

Definition tick_timer_service_subscribe : SM G unit := modify_sdk (set_ticks true).
Definition tick_timer_service_unsubscribe : SM G unit := modify_sdk (set_ticks false).

(** [graphics_*] calls on the context: recorded in order. *)
Definition graphics_draw (cs : list DrawCmd) : SM G unit :=
  modify_sdk (fun k => set_gfx (gfx k ++ cs) k).

(** Whether the layer tree under [r] (the app's is one level deep) has a
    dirty layer. *)
Definition tree_dirty (k : Sdk) (r : handle) : bool :=
  match objs k !! r with
  | Some (OLayer _ _ d _ ch) =>
      d || existsb (fun c => match objs k !! c with
                             | Some (OLayer _ _ dc _ _) => dc | _ => false end) ch
  | _ => false
  end.
End Prims.

(** ** Callbacks and the event loop *)

(** The function pointers the app hands to the SDK. *)
Record Callbacks (G : Type) := {
  cb_load : handle -> SM G unit;
  cb_unload : handle -> SM G unit;
  cb_update : SM G unit;
  cb_timer : SM G unit;
  cb_tick : SM G unit
}.
Arguments cb_load {G}. Arguments cb_unload {G}. Arguments cb_update {G}.
Arguments cb_timer {G}. Arguments cb_tick {G}.

Section Loop.
Context {G : Type} (cbs : Callbacks G) (screen : GRect).

(** [window_create]: a window and its root layer, which covers the
    screen. *)
Definition window_create : SM G handle :=
  let@ r := layer_create screen in alloc (OWindow r false false).

(** [window_stack_push]: the window goes on the stack and, if its
    handlers are set, its [load] handler runs; the window is then marked
    for rendering (its root layer dirty), so its first frame is drawn. *)
Definition window_stack_push (w : option handle) (animated : bool) : SM G unit :=
  let@ x := get_window w in
  let '(h, r, hd, _) := x in
  let@ _ := modify_sdk (fun k => set_stack (h :: window_stack k) k) in
  let@ _ := (if hd then cb_load cbs h else sret tt) in
  let@ _ := put_obj h (OWindow r hd true) in
  layer_mark_dirty (Some r).

(** [window_stack_pop]: the top window leaves the stack and, if loaded,
    its [unload] handler runs.  The result says whether the stack is now
    empty, which ends the app. *)
Definition window_stack_pop : SM G bool :=
  let@ k := get_sdk in
  match window_stack k with
  | [] => sret true
  | w :: rest =>
      let@ x := get_window (Some w) in
      let '(h, r, hd, ld) := x in
      let@ _ := modify_sdk (set_stack rest) in
      let@ _ := (if hd && ld then cb_unload cbs h else sret tt) in
      let@ _ := put_obj h (OWindow r hd false) in
      sret (match rest with [] => true | _ => false end)
  end.

(** [window_destroy]: off the stack, its root layer and itself freed. *)
Definition window_destroy (w : option handle) : SM G unit :=
  let@ x := get_window w in
  let '(h, r, _, _) := x in
  let@ _ := modify_sdk (fun k => set_stack (remove_handle h (window_stack k)) k) in
  let@ _ := layer_destroy (Some r) in
  del_obj h.

(** Rendering one layer: clean, then its update procedure. *)
Definition render_layer (l : handle) : SM G unit :=
  let@ x := get_layer (Some l) in
  let '(h, (fr, up, _, par, ch)) := x in
  let@ _ := put_obj h (OLayer fr up false par ch) in
  if up then cb_update cbs else sret tt.

Fixpoint render_layers (ls : list handle) : SM G unit :=
  match ls with
  | [] => sret tt
  | l :: ls' => let@ _ := render_layer l in render_layers ls'
  end.

Definition render_window (r : handle) : SM G unit :=
  let@ _ := render_layer r in
  let@ x := get_layer (Some r) in
  let '(_, (_, _, _, _, ch)) := x in render_layers ch.

Inductive Event :=
| EvTimer (t : handle)   (* the timer [t] expires *)
| EvRender               (* the display refreshes *)
| EvTick                 (* a second passes *)
| EvBack.                (* the back button *)

(** One turn of [app_event_loop]; the result says whether the app ends.
    An event whose source is absent (a timer not armed, no tick
    subscription, nothing dirty) does not occur and changes nothing. *)
Definition dispatch (e : Event) : SM G bool :=
  let@ k := get_sdk in
  match e with
  | EvTimer t =>
      match objs k !! t with
      | Some (OTimer _) => let@ _ := del_obj t in let@ _ := cb_timer cbs in sret false
      | _ => sret false
      end
  | EvRender =>
      match window_stack k with
      | w :: _ =>
          match objs k !! w with
          | Some (OWindow r _ true) =>
              if tree_dirty k r then let@ _ := render_window r in sret false else sret false
          | _ => sret false
          end
      | [] => sret false
      end
  | EvTick => if tick_subscribed k then let@ _ := cb_tick cbs in sret false else sret false
  | EvBack => window_stack_pop
  end.

(** [app_event_loop] on a finite prefix of the events: the result says
    whether the app ended within it. *)
Fixpoint app_event_loop (evs : list Event) : SM G bool :=
  match evs with
  | [] => sret false
  | e :: evs' => let@ ex := dispatch e in if ex then sret true else app_event_loop evs'
  end.
End Loop.

(** ** Facts *)

(** Unfolds the monad and the SDK's primitive accesses and simplifies the
    map operations: a run on a state of known shape computes to its
    result. *)
Ltac sdk_simpl :=
  repeat (progress (unfold sbind, sret, sfail, get_sdk, modify_sdk, get_g, modify_g, alloc,
                      put_obj, del_obj, deref, get_window, get_layer in *;
                    cbn [fst snd objs next_handle window_stack tick_subscribed gfx
                         set_objs set_next set_stack set_ticks set_gfx] in *;
                    simplify_map_eq)).

Lemma sbind_some {G A B : Type} (m : SM G A) (k : A -> SM G B) s s' (x : A) :
  m s = Some (x, s') -> sbind m k s = k x s'.
Proof. unfold sbind. intros ->. reflexivity. Qed.

Lemma sbind_none {G A B : Type} (m : SM G A) (k : A -> SM G B) s :
  m s = None -> sbind m k s = None.
Proof. unfold sbind. intros ->. reflexivity. Qed.
