(* ===== verification/Lifecycle.v ===== *)
(** * Lifecycle: the demo app from [main] to exit, on the SDK of [Sdk]

    [src/test_gtransform.c] keeps the handles it gets from the SDK in three
    globals ([window], [s_canvas], [s_render_timer]) beside the animation
    state of [Demo].  Module [App] translates every function of the file
    that talks to the SDK: [frame_timer_handler], [draw_frame_update_proc],
    [time_handler] (through [Demo.time_handler]), [window_load],
    [window_unload], [init], [deinit] and [main], each as the sequence of
    SDK calls the C makes, in the monad [SM] of [Sdk].

    The theorems show that the app never makes a call the SDK does not
    allow, whatever the events; that while it runs it holds exactly one
    live frame timer, its canvas and its tick subscription; that its
    animation state follows the step relation [reachable] of [Demo]; that
    every timer expiry followed by a refresh draws one frame; and that on
    exit it has released every SDK object.  They also show the order
    [main] relies on: [window_unload] destroys the canvas but leaves the
    timer armed, so a frame timer that fired between [window_unload] and
    [deinit] would crash. *)

From stdpp Require Import base gmap.
From Stdlib Require Import ZArith Lia List QArith.
From S2P Require Import Prelude GTypes Rotation Demo Sdk.
Import ListNotations.
Open Scope Z_scope.
Local Open Scope sdk_scope.

Module App.

(** The globals of the file that hold SDK handles, and the animation
    state. *)
Record Globals (F : Type) := mkGlobals {
  window : option handle;
  s_canvas : option handle;
  s_render_timer : option handle;
  s_demo : DemoState F
}.
Arguments mkGlobals {F}. Arguments window {F}. Arguments s_canvas {F}.
Arguments s_render_timer {F}. Arguments s_demo {F}.

Section App.
Context {F : Type} `{FloatOps F} `{TrigLookup} (screen : GRect).

Definition set_window (w : option handle) (g : Globals F) : Globals F :=
  mkGlobals w (s_canvas g) (s_render_timer g) (s_demo g).
Definition set_canvas (c : option handle) (g : Globals F) : Globals F :=
  mkGlobals (window g) c (s_render_timer g) (s_demo g).
Definition set_render_timer (t : option handle) (g : Globals F) : Globals F :=
  mkGlobals (window g) (s_canvas g) t (s_demo g).
Definition set_demo (st : DemoState F) (g : Globals F) : Globals F :=
  mkGlobals (window g) (s_canvas g) (s_render_timer g) st.

(** The [static] globals before [main]: zero (NULL, [false], [0]). *)
Definition demo_zero : DemoState F :=
  mkDemoState (f_lit 0) false 0 0 0 (Point.mk_GPoint 0 0) 0 0 0 0 0 0 0 0.
Definition globals_zero : Globals F := mkGlobals None None None demo_zero.

Abbreviation AM := (SM (Globals F)).

(** [frame_timer_handler]: mark the canvas dirty and register the next
    frame's timer. *)
Definition frame_timer_handler : AM unit :=
  let@ g := get_g in
  let@ _ := layer_mark_dirty (s_canvas g) in
  let@ t := app_timer_register (Z.quot 1000 FRAME_RATE) in
  modify_g (set_render_timer (Some t)).

(** [draw_frame_update_proc]: [frame_handler] and its drawing calls.
    Its [graphics_fill_rect] reads the bounds of the root layer of the
    global [window] ([window_get_root_layer], [layer_get_bounds]); those
    reads change no state, and are made here against the SDK before the
    frame's drawing calls (the command [FillRootBounds]). *)
Definition draw_frame_update_proc : AM unit :=
  let@ g := get_g in
  let r := frame_handler (s_demo g) in
  let@ window_layer := window_get_root_layer (window g) in
  let@ _ := layer_get_bounds (Some window_layer) in
  let@ _ := modify_g (set_demo (fst r)) in
  graphics_draw (snd r).

Definition time_handler_cb : AM unit := modify_g (fun g => set_demo (time_handler (s_demo g)) g).

Definition window_load (w : handle) : AM unit :=
  let@ window_layer := window_get_root_layer (Some w) in
  let@ window_bounds := layer_get_bounds (Some window_layer) in
  let@ c := layer_create (mk_GRect (Point.mk_GPoint 0 0)
                                   (mk_GSize (gs_w (size window_bounds)) (gs_h (size window_bounds)))) in
  let@ _ := modify_g (set_canvas (Some c)) in
  let@ g := get_g in
  let@ _ := layer_set_update_proc (s_canvas g) in
  let@ _ := layer_add_child (Some window_layer) (s_canvas g) in
  let@ t := app_timer_register (Z.quot 1000 FRAME_RATE) in
  let@ _ := modify_g (set_render_timer (Some t)) in
  tick_timer_service_subscribe.

Definition window_unload (w : handle) : AM unit :=
  let@ g := get_g in layer_destroy (s_canvas g).

Definition callbacks : Callbacks (Globals F) := {|
  cb_load := window_load;
  cb_unload := window_unload;
  cb_update := draw_frame_update_proc;
  cb_timer := frame_timer_handler;
  cb_tick := time_handler_cb
|}.

(** [init]: create and push the window (which loads it), then set the
    globals; [s_center] is the centre of the root layer's frame. *)
Definition init : AM unit :=
  let@ w := window_create screen in
  let@ _ := modify_g (set_window (Some w)) in
  let@ g := get_g in
  let@ _ := window_set_window_handlers (window g) in
  let@ _ := window_stack_push callbacks (window g) true in
  let@ window_layer := window_get_root_layer (window g) in
  let@ frame := layer_get_frame (Some window_layer) in
  modify_g (set_demo (Demo.init (grect_center_point frame))).

Definition deinit : AM unit :=
  let@ g := get_g in
  let@ _ := (match s_render_timer g with
             | Some _ => let@ _ := app_timer_cancel (s_render_timer g) in
                         modify_g (set_render_timer None)
             | None => sret tt
             end) in
  let@ _ := tick_timer_service_unsubscribe in
  let@ g := get_g in
  window_destroy (window g).

(** [main] on the events the SDK delivers: the result says whether the
    app has ended (and [deinit] run) within them. *)
Definition main (evs : list Event) : AM bool :=
  let@ _ := init in
  let@ ex := app_event_loop callbacks evs in
  if ex then let@ _ := deinit in sret true else sret false.

Definition boot : Sdk * Globals F := (sdk_boot, globals_zero).
End App.
End App.

Import App.

(** ** The states of the app

    The handles come from one counter, so [init] always gets the same
    ones: the root layer is 1, the window 2, the canvas 3 and the first
    frame timer 4; each later frame timer takes the next handle. *)
Definition h_root : handle := 1%positive.
Definition h_window : handle := 2%positive.
Definition h_canvas : handle := 3%positive.

Section States.
Context {F : Type} (screen : GRect).

Definition canvas_rect : GRect :=
  mk_GRect (Point.mk_GPoint 0 0) (mk_GSize (gs_w (size screen)) (gs_h (size screen))).

(** The objects while the window is loaded; [dr] and [dc] say whether
    the root layer and the canvas are dirty. *)
Definition loaded_objs (dr dc : bool) : gmap handle Obj :=
  {[h_root := OLayer screen false dr None [h_canvas];
    h_window := OWindow h_root true true;
    h_canvas := OLayer canvas_rect true dc (Some h_root) []]}.

(** The app between [init] and the back button: the frame timer [t] is the
    only timer and is [s_render_timer], the canvas is a child of the root
    layer with the update procedure, the tick handler is subscribed. *)
Definition run_state (dr dc : bool) (t : handle) (gf : list DrawCmd) (d : DemoState F)
  : Sdk * Globals F :=
  (mkSdk (<[t := OTimer (Z.quot 1000 FRAME_RATE)]> (loaded_objs dr dc)) (Pos.succ t) [h_window] true gf,
   mkGlobals (Some h_window) (Some h_canvas) (Some t) d).

Definition running (s : Sdk * Globals F) : Prop :=
  exists dr dc t gf d, (h_canvas < t)%positive /\ s = run_state dr dc t gf d.

(** After [window_unload]: the canvas is freed, the timer still armed. *)
Definition unloaded_state (dr : bool) (t : handle) (gf : list DrawCmd) (d : DemoState F)
  : Sdk * Globals F :=
  (mkSdk (<[t := OTimer (Z.quot 1000 FRAME_RATE)]>
            {[h_root := OLayer screen false dr None [];
              h_window := OWindow h_root true false]}) (Pos.succ t) [] true gf,
   mkGlobals (Some h_window) (Some h_canvas) (Some t) d).

(** After [deinit]: no object left, nothing subscribed, no timer. *)
Definition ended (s : Sdk * Globals F) : Prop :=
  objs (fst s) = ∅ /\ window_stack (fst s) = [] /\ tick_subscribed (fst s) = false
  /\ s_render_timer (snd s) = None.
End States.

(** ** Runs of the app

    Each event on a running app computes to a running app again (or, for
    the back button, to the unloaded app), by the exact shapes above. *)
Section Runs.
Context {F : Type} `{FloatOps F} `{TrigLookup} (screen : GRect).

Lemma loaded_objs_timer (dr dc : bool) (t : handle) :
  (h_canvas < t)%positive -> loaded_objs screen dr dc !! t = None.
Proof.
  intros Ht. unfold loaded_objs, h_root, h_window, h_canvas in *.
  rewrite !lookup_insert_ne by lia. apply lookup_singleton_ne. lia.
Qed.

Lemma loaded_objs_no_timer (dr dc : bool) (k : handle) (ms : Z) :
  loaded_objs screen dr dc !! k <> Some (OTimer ms).
Proof.
  unfold loaded_objs. rewrite !lookup_insert, lookup_singleton.
  repeat case_decide; discriminate.
Qed.

Lemma loaded_objs_dirty (dr dc b : bool) :
  <[h_canvas := OLayer (canvas_rect screen) true b (Some h_root) []]> (loaded_objs screen dr dc)
  = loaded_objs screen dr b.
Proof. reflexivity. Qed.

(** The frame timer's handle is none of the fixed ones. *)
Ltac timer_facts t :=
  let Ht := fresh in
  assert (Ht : (h_canvas < t)%positive) by assumption;
  unfold h_canvas in Ht;
  assert (t ≠ h_root) by (unfold h_root; lia);
  assert (t ≠ h_window) by (unfold h_window; lia);
  assert (t ≠ h_canvas) by (unfold h_canvas; lia).

(** Unfolds the app's handlers and the SDK calls they make, then
    computes as [sdk_simpl] does. *)
Ltac app_simpl :=
  repeat (progress (unfold dispatch, render_window, render_layer, draw_frame_update_proc,
                      graphics_draw, frame_timer_handler, layer_mark_dirty, app_timer_register,
                      time_handler_cb, window_stack_pop, window_unload, layer_destroy,
                      layer_remove_from_parent, tree_dirty, window_get_root_layer,
                      layer_get_bounds, layer_get_frame in *;
                    cbn [callbacks cb_load cb_unload cb_update cb_timer cb_tick render_layers] in *;
                    sdk_simpl)).

(** Moves the insertion of the timer [t] outside the operations on the
    fixed handles. *)
Ltac float_timer t :=
  repeat first [ rewrite (insert_insert_ne _ _ t) by congruence
               | rewrite (delete_insert_ne _ _ t) by congruence ].

(** [init] leaves the window marked for its first rendering. *)
Lemma init_runs :
  App.init screen boot
  = Some (tt, run_state screen true false 4%positive [] (Demo.init (grect_center_point screen))).
Proof. reflexivity. Qed.

Lemma dispatch_timer (dr dc : bool) (t : handle) gf (d : DemoState F) :
  (h_canvas < t)%positive ->
  dispatch callbacks (EvTimer t) (run_state screen dr dc t gf d)
  = Some (false, run_state screen dr true (Pos.succ t) gf d).
Proof.
  intros Ht. timer_facts t.
  unfold dispatch, run_state. cbn [callbacks cb_timer].
  unfold frame_timer_handler, layer_mark_dirty, app_timer_register. sdk_simpl.
  rewrite delete_insert_eq, delete_id by (apply loaded_objs_timer; assumption).
  rewrite loaded_objs_dirty. reflexivity.
Qed.

(** A refresh with a dirty layer draws exactly one frame and cleans both
    layers. *)
Lemma dispatch_render (dr dc : bool) (t : handle) gf (d : DemoState F) :
  (h_canvas < t)%positive -> dr || dc = true ->
  dispatch callbacks EvRender (run_state screen dr dc t gf d)
  = Some (false, run_state screen false false t (gf ++ snd (frame_handler d)) (fst (frame_handler d))).
Proof.
  intros Ht Hd. timer_facts t.
  destruct dr, dc; try discriminate Hd; unfold run_state; app_simpl; float_timer t; reflexivity.
Qed.

Lemma dispatch_render_clean (t : handle) gf (d : DemoState F) :
  (h_canvas < t)%positive ->
  dispatch callbacks EvRender (run_state screen false false t gf d)
  = Some (false, run_state screen false false t gf d).
Proof. intros Ht. timer_facts t. unfold run_state. app_simpl. reflexivity. Qed.

Lemma dispatch_timer_other (dr dc : bool) (t t' : handle) gf (d : DemoState F) :
  (h_canvas < t)%positive -> t' ≠ t ->
  dispatch callbacks (EvTimer t') (run_state screen dr dc t gf d)
  = Some (false, run_state screen dr dc t gf d).
Proof.
  intros Ht Hne. timer_facts t. unfold run_state, dispatch. sdk_simpl.
  destruct (loaded_objs screen dr dc !! t') as [[| | ms] |] eqn:E; try reflexivity.
  exfalso. exact (loaded_objs_no_timer dr dc t' ms E).
Qed.

Lemma dispatch_tick (dr dc : bool) (t : handle) gf (d : DemoState F) :
  dispatch callbacks EvTick (run_state screen dr dc t gf d)
  = Some (false, run_state screen dr dc t gf (time_handler d)).
Proof. unfold run_state. app_simpl. reflexivity. Qed.

Lemma dispatch_back (dr dc : bool) (t : handle) gf (d : DemoState F) :
  (h_canvas < t)%positive ->
  dispatch callbacks EvBack (run_state screen dr dc t gf d)
  = Some (true, unloaded_state screen dr t gf d).
Proof.
  intros Ht. timer_facts t. unfold run_state. app_simpl. float_timer t. reflexivity.
Qed.

(** The state [deinit] leaves. *)
Definition ended_state (t : handle) gf (d : DemoState F) : Sdk * Globals F :=
  (mkSdk ∅ (Pos.succ t) [] false gf, mkGlobals (Some h_window) (Some h_canvas) None d).

Lemma deinit_ends (dr : bool) (t : handle) gf (d : DemoState F) :
  (h_canvas < t)%positive ->
  App.deinit (unloaded_state screen dr t gf d) = Some (tt, ended_state t gf d).
Proof.
  intros Ht. timer_facts t. unfold unloaded_state, App.deinit, app_timer_cancel,
    tick_timer_service_unsubscribe, window_destroy. app_simpl.
  rewrite delete_insert_eq, (delete_id _ t) by (unfold h_root, h_window in *; simplify_map_eq; reflexivity).
  reflexivity.
Qed.

Lemma loop_runs (c : Point.GPoint) (evs : list Event) :
  forall dr dc t gf (d : DemoState F), (h_canvas < t)%positive -> reachable c d ->
  exists b s', app_event_loop callbacks evs (run_state screen dr dc t gf d) = Some (b, s')
  /\ exists dr' dc' t' gf' d', (h_canvas < t')%positive /\ reachable c d'
     /\ s' = if b then unloaded_state screen dr' t' gf' d' else run_state screen dr' dc' t' gf' d'.
Proof.
  induction evs as [| e evs IH]; intros dr dc t gf d Ht R.
  - exists false, (run_state screen dr dc t gf d). split; [reflexivity |]. exists dr, dc, t, gf, d. auto.
  - cbn [app_event_loop].
    destruct e as [t0 | | |].
    + destruct (decide (t0 = t)) as [-> | Hne].
      * rewrite (sbind_some _ _ _ _ _ (dispatch_timer dr dc t gf d Ht)). apply IH; [lia | exact R].
      * rewrite (sbind_some _ _ _ _ _ (dispatch_timer_other dr dc t t0 gf d Ht Hne)). apply IH; assumption.
    + destruct (dr || dc) eqn:Hd.
      * rewrite (sbind_some _ _ _ _ _ (dispatch_render dr dc t gf d Ht Hd)).
        apply IH; [exact Ht | apply reach_frame, R].
      * apply orb_false_iff in Hd as [-> ->].
        rewrite (sbind_some _ _ _ _ _ (dispatch_render_clean t gf d Ht)). apply IH; assumption.
    + rewrite (sbind_some _ _ _ _ _ (dispatch_tick dr dc t gf d)). apply IH; [exact Ht | apply reach_tick, R].
    + rewrite (sbind_some _ _ _ _ _ (dispatch_back dr dc t gf d Ht)).
      exists true, (unloaded_state screen dr t gf d). split; [reflexivity |]. exists dr, dc, t, gf, d. auto.
Qed.

Lemma main_runs (evs : list Event) :
  exists b s', App.main screen evs boot = Some (b, s')
  /\ reachable (grect_center_point screen) (s_demo (snd s'))
  /\ (if b then ended s' else running screen s').
Proof.
  unfold App.main. rewrite (sbind_some _ _ _ _ _ init_runs).
  destruct (loop_runs (grect_center_point screen) evs true false 4%positive [] _ ltac:(reflexivity)
             (reach_init _)) as (b & s' & E & dr & dc & t & gf & d & Ht & R & ->).
  rewrite (sbind_some _ _ _ _ _ E). destruct b.
  - rewrite (sbind_some _ _ _ _ _ (deinit_ends dr t gf d Ht)).
    exists true, (ended_state t gf d). split; [reflexivity |]. split; [exact R |]. repeat split.
  - exists false, (run_state screen dr dc t gf d). split; [reflexivity |]. split; [exact R |].
    exists dr, dc, t, gf, d. auto.
Qed.

(** What [main] ends in, from the run it computes. *)
Lemma main_result (evs : list Event) (b : bool) (s : Sdk * Globals F) :
  App.main screen evs boot = Some (b, s) ->
  reachable (grect_center_point screen) (s_demo (snd s)) /\ (if b then ended s else running screen s).
Proof.
  intros E. destruct (main_runs evs) as (b' & s' & E' & R & P).
  rewrite E in E'. injection E' as -> ->. split; assumption.
Qed.

(** ** Theorems *)

(** C34: the demo app never makes a call the SDK does not allow.  Whatever
    events the SDK delivers (timers expiring, refreshes, seconds, the back
    button) and in whatever order, [main] runs [init], the event loop and,
    if the app ends, [deinit] without passing a NULL or dangling handle or
    an object of the wrong kind to the SDK: no layer, window or timer is
    used after it is destroyed, and none is destroyed twice. *)
Theorem main_safe (evs : list Event) :
  exists b s, App.main screen evs boot = Some (b, s).
Proof. destruct (main_runs evs) as (b & s & E & _). exists b, s. exact E. Qed.

(** C35: while the app runs, it holds exactly the SDK objects it should:
    its window (loaded, on the stack), the root layer with the canvas as
    its only child, the canvas with [draw_frame_update_proc], and exactly
    one armed timer, the frame timer whose handle is in [s_render_timer]
    (each expiry re-registers it, so the frames never stop and timers
    never pile up); the tick handler is subscribed. *)
Theorem main_running_inv (evs : list Event) (s : Sdk * Globals F) :
  App.main screen evs boot = Some (false, s) -> running screen s.
Proof. intros E. exact (proj2 (main_result evs false s E)). Qed.

(** C36: the SDK-level app refines the step relation of [Demo]: after any
    events, the animation state held in the globals is reachable from
    [Demo.init] of the root layer's centre by [time_handler] and
    [frame_handler] steps, so every theorem about [reachable] (C27, C28)
    holds of the running app. *)
Theorem main_refines_reachable (evs : list Event) (b : bool) (s : Sdk * Globals F) :
  App.main screen evs boot = Some (b, s) ->
  reachable (grect_center_point screen) (s_demo (snd s)).
Proof. intros E. exact (proj1 (main_result evs b s E)). Qed.

(** C37: when the back button ends the app, [window_unload] and [deinit]
    leave nothing behind: no window, layer or timer is left allocated, the
    window stack is empty, the tick service is unsubscribed and
    [s_render_timer] is NULL. *)
Theorem main_releases_all (evs : list Event) (s : Sdk * Globals F) :
  App.main screen evs boot = Some (true, s) -> ended s.
Proof. intros E. exact (proj2 (main_result evs true s E)). Qed.

(** C38: the animation keeps going: in every running state, the armed
    frame timer's expiry followed by a refresh runs [frame_handler] once,
    appends its drawing calls to the screen, and leaves the app running
    with the next frame timer armed. *)
Theorem running_draws_frame (s : Sdk * Globals F) :
  running screen s ->
  exists t s1 s2, s_render_timer (snd s) = Some t
  /\ dispatch callbacks (EvTimer t) s = Some (false, s1)
  /\ dispatch callbacks EvRender s1 = Some (false, s2)
  /\ s_demo (snd s2) = fst (frame_handler (s_demo (snd s)))
  /\ gfx (fst s2) = gfx (fst s) ++ snd (frame_handler (s_demo (snd s)))
  /\ running screen s2.
Proof.
  intros (dr & dc & t & gf & d & Ht & ->).
  exists t, (run_state screen dr true (Pos.succ t) gf d),
    (run_state screen false false (Pos.succ t) (gf ++ snd (frame_handler d)) (fst (frame_handler d))).
  split; [reflexivity |]. split; [exact (dispatch_timer dr dc t gf d Ht) |].
  split; [apply dispatch_render; [lia | apply orb_true_r] |]. split; [reflexivity |]. split; [reflexivity |].
  exists false, false, (Pos.succ t), (gf ++ snd (frame_handler d)), (fst (frame_handler d)).
  split; [lia | reflexivity].
Qed.

(** C39: [init] pushes the window, which marks it for rendering, so the
    first refresh after start-up, before any timer has fired, draws the
    first frame: [frame_handler] runs once on [Demo.init] of the root
    layer's centre, its drawing calls are the first on the screen, and the
    app is left running with both layers clean and the first frame timer
    armed. *)
Theorem first_refresh_draws_frame :
  let d0 := Demo.init (grect_center_point screen) in
  App.main screen [EvRender] boot
  = Some (false, run_state screen false false 4%positive (snd (frame_handler d0)) (fst (frame_handler d0))).
Proof.
  cbv zeta. unfold App.main. rewrite (sbind_some _ _ _ _ _ init_runs). cbn [app_event_loop].
  unfold sbind at 1.
  rewrite (sbind_some _ _ _ _ _ (dispatch_render true false 4%positive [] _ ltac:(reflexivity) eq_refl)).
  reflexivity.
Qed.

(** C40: the order of [main] matters.  [window_unload] destroys the canvas
    but does not cancel the frame timer: after it, the timer in
    [s_render_timer] is still armed while [s_canvas] points to a freed
    layer, so if that timer fired, [frame_timer_handler] would call
    [layer_mark_dirty] on the destroyed canvas.  Only [deinit] cancels the
    timer; the app is safe (C34) because the event loop ends with the
    window's unload, before the timer can fire. *)
Theorem timer_after_unload_crashes (s : Sdk * Globals F) :
  running screen s ->
  exists t s', s_render_timer (snd s) = Some t
  /\ window_unload h_window s = Some (tt, s')
  /\ objs (fst s') !! t = Some (OTimer (Z.quot 1000 FRAME_RATE))
  /\ s_render_timer (snd s') = Some t
  /\ s_canvas (snd s') = Some h_canvas /\ objs (fst s') !! h_canvas = None
  /\ frame_timer_handler s' = None.
Proof.
  intros (dr & dc & t & gf & d & Ht & ->). timer_facts t. exists t.
  eexists. split; [reflexivity |]. split; [unfold run_state; app_simpl; reflexivity |].
  cbn [fst snd objs s_render_timer s_canvas]. split; [simplify_map_eq; reflexivity |].
  split; [reflexivity |]. split; [reflexivity |]. split; [simplify_map_eq; reflexivity |].
  app_simpl. reflexivity.
Qed.
End Runs.

(** ** Witnesses, on the Pebble's 144 x 168 screen *)

Definition pebble_screen : GRect := mk_GRect (Point.mk_GPoint 0 0) (mk_GSize 144 168).

(** Two frames and a second. *)
Definition sample_events : list Event :=
  [EvTimer 4%positive; EvRender; EvTick; EvTimer 5%positive; EvRender].

Lemma main_running_inv_witness :
  exists s, App.main (F := Q) (H0 := QuarterTurnLookup) pebble_screen sample_events boot = Some (false, s)
            /\ running pebble_screen s.
Proof.
  destruct (App.main (F := Q) (H0 := QuarterTurnLookup) pebble_screen sample_events boot)
    as [[b s] |] eqn:E; [| vm_compute in E; discriminate E].
  assert (Hb : b = false) by (vm_compute in E; congruence). subst b.
  exists s. split; [reflexivity |]. exact (main_running_inv pebble_screen sample_events s E).
Defined.

Lemma main_refines_reachable_witness :
  exists b s, App.main (F := Q) (H0 := QuarterTurnLookup) pebble_screen sample_events boot = Some (b, s)
              /\ reachable (grect_center_point pebble_screen) (s_demo (snd s)).
Proof.
  destruct (App.main (F := Q) (H0 := QuarterTurnLookup) pebble_screen sample_events boot)
    as [[b s] |] eqn:E; [| vm_compute in E; discriminate E].
  exists b, s. split; [reflexivity |]. exact (main_refines_reachable pebble_screen sample_events b s E).
Defined.

Lemma main_releases_all_witness :
  exists s, App.main (F := Q) (H0 := QuarterTurnLookup) pebble_screen (sample_events ++ [EvBack]) boot
            = Some (true, s) /\ ended s.
Proof.
  destruct (App.main (F := Q) (H0 := QuarterTurnLookup) pebble_screen (sample_events ++ [EvBack]) boot)
    as [[b s] |] eqn:E; [| vm_compute in E; discriminate E].
  assert (Hb : b = true) by (vm_compute in E; congruence). subst b.
  exists s. split; [reflexivity |]. exact (main_releases_all pebble_screen (sample_events ++ [EvBack]) s E).
Defined.

Lemma running_draws_frame_witness :
  let s := run_state (F := Q) pebble_screen true false 4%positive [] (Demo.init (grect_center_point pebble_screen)) in
  running pebble_screen s
  /\ exists t s1 s2, s_render_timer (snd s) = Some t
     /\ dispatch (callbacks (H0 := QuarterTurnLookup)) (EvTimer t) s = Some (false, s1)
     /\ dispatch (callbacks (H0 := QuarterTurnLookup)) EvRender s1 = Some (false, s2)
     /\ s_demo (snd s2) = fst (frame_handler (H0 := QuarterTurnLookup) (s_demo (snd s)))
     /\ gfx (fst s2) = gfx (fst s) ++ snd (frame_handler (H0 := QuarterTurnLookup) (s_demo (snd s)))
     /\ running pebble_screen s2.
Proof.
  intros s. assert (R : running pebble_screen s).
  { exists true, false, 4%positive, [], (Demo.init (grect_center_point pebble_screen)).
    split; [vm_compute; reflexivity | reflexivity]. }
  split; [exact R |]. exact (running_draws_frame (H0 := QuarterTurnLookup) pebble_screen s R).
Defined.

Lemma timer_after_unload_crashes_witness :
  let s := run_state (F := Q) pebble_screen false true 7%positive [] (Demo.init (grect_center_point pebble_screen)) in
  running pebble_screen s
  /\ exists t s', s_render_timer (snd s) = Some t
     /\ window_unload h_window s = Some (tt, s')
     /\ objs (fst s') !! t = Some (OTimer (Z.quot 1000 FRAME_RATE))
     /\ s_render_timer (snd s') = Some t
     /\ s_canvas (snd s') = Some h_canvas /\ objs (fst s') !! h_canvas = None
     /\ frame_timer_handler s' = None.
Proof.
  intros s. assert (R : running pebble_screen s).
  { exists false, true, 7%positive, [], (Demo.init (grect_center_point pebble_screen)).
    split; [vm_compute; reflexivity | reflexivity]. }
  split; [exact R |]. exact (timer_after_unload_crashes pebble_screen s R).
Defined.
